(** * chaos_downloader: the download, extract and concatenate pipeline

    The program (package main, one Go file) is sequential I/O orchestration:
    it fetches a JSON index, downloads the archive of each selected entry to
    a temporary file, extracts it below ./AllChaosData/<name>, and
    concatenates every .txt file found there into ./everything.txt.

    It is embedded here as functions over an explicit [world]: a directory
    tree, a working directory, a umask, the directory and the name supply of
    temporary files, the remote servers seen as a function from URLs to
    responses, and the sequence of lines written to stdout and to the logger.
    A function of the program that returns an error is a computation in the
    monad [M], which threads the world and carries the error.

    Conventions and scope of the embedding

    - Go strings are byte strings: Rocq [string].
    - The operating system is POSIX (paths separated by a slash), without
      symbolic links.  The process is unprivileged and owns every node, so
      the owner permission bits decide every access: search (0o100) on each
      directory traversed, write (0o200) on a directory to add or remove a
      name, read (0o400) to list a directory or to read a file, write
      (0o200) to open an existing file for writing.  A new node gets the
      permission bits asked for, less the umask.
    - Path resolution is lexical and starts at the root of the tree, also for
      a relative path (the working directory is prepended).  Every path that
      the program hands to the system comes out of filepath.Join (hence
      filepath.Clean) or is the name of the temporary file, so dot-dot
      segments occur only in front.  The names of directory entries are
      single path elements.
    - Writing through an open descriptor never fails (no quota, no full
      disk): io.Copy fails only on its reading side.  A reading fault of the
      medium is given by the world ([io_fault]).
    - A file is read as it is when the read starts, and an archive is decoded
      when it is opened: a file that is copied into itself and an archive
      that is its own extraction target are outside the embedding.
    - The Unicode-aware functions strings.TrimSpace and strings.ToLower, the
      ZIP reader and the JSON decoder belong to the Go library, not to the
      repository: they are the fields of the class [GoLib].  [tableLib] is an
      instance for ASCII text and finitely many payloads, used to run the
      program on the worlds of [Sample]. *)

From Stdlib Require Import ZArith String Ascii List Lia Bool DecimalString.
From stdpp Require Import base gmap strings list.

Open Scope Z_scope.

(* ===================================================================== *)
(** * Byte strings: package strings                                       *)
(* ===================================================================== *)

(** strings.Split(s, sep) for a one-byte separator: never the empty list. *)
Fixpoint Split (s : string) (sep : ascii) : list string :=
  match s with
  | EmptyString => [EmptyString]
  | String c s' =>
      if Ascii.eqb c sep then EmptyString :: Split s' sep
      else match Split s' sep with
           | t :: ts => String c t :: ts
           | [] => [String c EmptyString]
           end
  end.

(** strings.Join(elems, sep). *)
Fixpoint joinWith (sep : string) (elems : list string) : string :=
  match elems with
  | [] => ""
  | [e] => e
  | e :: rest => e +:+ sep +:+ joinWith sep rest
  end.

(** strings.HasSuffix:
    len(s) >= len(suffix) && s[len(s)-len(suffix):] == suffix. *)
Definition HasSuffix (s suffix : string) : bool :=
  let n := String.length s in
  let m := String.length suffix in
  (m <=? n)%nat && String.eqb (String.substring (n - m) m s) suffix.

(* ===================================================================== *)
(** * Paths: package path/filepath                                        *)
(* ===================================================================== *)

Definition slash : ascii := "/"%char.

Definition isRooted (p : string) : bool :=
  match p with
  | String c _ => Ascii.eqb c slash
  | EmptyString => false
  end.

(** The segment stack of filepath.Clean, top first. *)
Fixpoint clean_segs (rooted : bool) (stack segs : list string) : list string :=
  match segs with
  | [] => rev stack
  | s :: rest =>
      if String.eqb s "" || String.eqb s "." then clean_segs rooted stack rest
      else if String.eqb s ".." then
        match stack with
        | top :: stack' =>
            if String.eqb top ".." then clean_segs rooted (s :: stack) rest
            else clean_segs rooted stack' rest
        | [] =>
            if rooted then clean_segs rooted [] rest
            else clean_segs rooted [s] rest
        end
      else clean_segs rooted (s :: stack) rest
  end.

(** filepath.Clean: the shortest equivalent path by lexical processing. *)
Definition Clean (p : string) : string :=
  let segs := clean_segs (isRooted p) [] (Split p slash) in
  if isRooted p then "/" +:+ joinWith "/" segs
  else match segs with
       | [] => "."
       | _ => joinWith "/" segs
       end.

(** filepath.Join(a, b): empty elements are ignored, the rest is joined by a
    slash and cleaned. *)
Definition Join (a b : string) : string :=
  if String.eqb a "" then (if String.eqb b "" then "" else Clean b)
  else Clean (a +:+ "/" +:+ b).

Fixpoint hasSlash (s : string) : bool :=
  match s with
  | EmptyString => false
  | String c s' => Ascii.eqb c slash || hasSlash s'
  end.

(** path[:i+1] where i is the index of the last slash. *)
Fixpoint upToLastSlash (s : string) : string :=
  match s with
  | EmptyString => ""
  | String c s' => if hasSlash s then String c (upToLastSlash s') else ""
  end.

(** filepath.Dir. *)
Definition Dir (path : string) : string := Clean (upToLastSlash path).

Fixpoint allSlashes (s : string) : bool :=
  match s with
  | EmptyString => true
  | String c s' => Ascii.eqb c slash && allSlashes s'
  end.

Fixpoint stripTrailingSlashes (s : string) : string :=
  match s with
  | EmptyString => ""
  | String c s' =>
      if allSlashes s' then String c "" else String c (stripTrailingSlashes s')
  end.

(** The last element of a path, as os.Lstat reports it in FileInfo.Name
    (function basename of package os). *)
Definition basename (name : string) : string :=
  let s := stripTrailingSlashes name in
  if String.eqb s "/" then "/" else List.last (Split s slash) "".

(** Lexical resolution of a path against the working directory: the list of
    names from the root of the tree. *)
Fixpoint walk_segs (stack segs : list string) : list string :=
  match segs with
  | [] => rev stack
  | s :: rest =>
      if String.eqb s "" || String.eqb s "." then walk_segs stack rest
      else if String.eqb s ".." then walk_segs (tail stack) rest
      else walk_segs (s :: stack) rest
  end.

Definition resolve (cwd : list string) (p : string) : list string :=
  walk_segs (if isRooted p then [] else rev cwd) (Split p slash).

(* ===================================================================== *)
(** * Errors and results                                                  *)
(* ===================================================================== *)

(** Go's error values: the errno of a failed system call, the sentinel errors
    of the library, and fmt.Errorf("msg: %w", err). *)
Inductive error :=
  | ENOENT | ENOTDIR | EISDIR | EACCES | EEXIST | ENOTEMPTY | EIO
  | ErrTooLong
  | ErrFormat
  | ErrNet (why : string)
  | Wrap (msg : string) (e : error).

Inductive result (A : Type) :=
  | Ok (a : A)
  | Err (e : error).
Arguments Ok {A} a.
Arguments Err {A} e.

Definition isErr {A} (r : result A) : bool :=
  match r with Ok _ => false | Err _ => true end.

(** An io.Reader consumed to its end: the bytes it delivers, then io.EOF
    ([None]) or an error. *)
Record stream := Stream { s_data : string; s_err : option error }.

(* ===================================================================== *)
(** * The directory tree                                                  *)
(* ===================================================================== *)

(** A regular file with its permission bits and content, or a directory with
    its permission bits and its entries in the order os.ReadDir lists them
    (sorted by name). *)
#[warnings="-register-all"]
Inductive node :=
  | NFile (perm : Z) (data : string)
  | NDir (perm : Z) (entries : list (string * node)).

Definition may_read (m : Z) : bool := Z.testbit m 8.
Definition may_write (m : Z) : bool := Z.testbit m 7.
Definition may_exec (m : Z) : bool := Z.testbit m 6.

(** The permission bits a new node gets: FileMode.Perm, less the umask. *)
Definition creation_mode (umask perm : Z) : Z := Z.ldiff (Z.land perm 511) umask.

Fixpoint lookupEntry (c : string) (es : list (string * node)) : option node :=
  match es with
  | [] => None
  | (k, v) :: rest => if String.eqb c k then Some v else lookupEntry c rest
  end.

Fixpoint setEntry (c : string) (x : node) (es : list (string * node))
  : list (string * node) :=
  match es with
  | [] => [(c, x)]
  | (k, v) :: rest =>
      match String.compare c k with
      | Eq => (c, x) :: rest
      | Lt => (c, x) :: (k, v) :: rest
      | Gt => (k, v) :: setEntry c x rest
      end
  end.

Fixpoint delEntry (c : string) (es : list (string * node)) : list (string * node) :=
  match es with
  | [] => []
  | (k, v) :: rest => if String.eqb c k then delEntry c rest else (k, v) :: delEntry c rest
  end.

(** Path lookup as the kernel does it: every directory on the way must be
    searchable. *)
Fixpoint find (n : node) (p : list string) : result node :=
  match p with
  | [] => Ok n
  | c :: p' =>
      match n with
      | NFile _ _ => Err ENOTDIR
      | NDir m es =>
          if may_exec m then
            match lookupEntry c es with
            | Some ch => find ch p'
            | None => Err ENOENT
            end
          else Err EACCES
      end
  end.

(** The change of one directory entry, once the system call is allowed:
    [f] maps the old entry (if any) to the new one (if any). *)
Fixpoint upd (p : list string) (f : option node -> option node) (n : node) : node :=
  match p, n with
  | [c], NDir m es =>
      NDir m (match f (lookupEntry c es) with
              | Some x => setEntry c x es
              | None => delEntry c es
              end)
  | c :: p', NDir m es =>
      match lookupEntry c es with
      | Some ch => NDir m (setEntry c (upd p' f ch) es)
      | None => n
      end
  | [], _ => match f (Some n) with Some x => x | None => n end
  | _, _ => n
  end.

(** A name is added only where there is none. *)
Definition created (x : node) (o : option node) : option node :=
  match o with
  | None => Some x
  | Some _ => o
  end.

Definition parentOf (p : list string) : list string := removelast p.

(** mkdir(2). *)
Definition mkdir_node (umask perm : Z) (p : list string) (n : node) : result node :=
  match find n p with
  | Ok _ => Err EEXIST
  | Err ENOENT =>
      match find n (parentOf p) with
      | Ok (NDir m _) =>
          if may_write m
          then Ok (upd p (created (NDir (creation_mode umask perm) [])) n)
          else Err EACCES
      | Ok (NFile _ _) => Err ENOTDIR
      | Err e => Err e
      end
  | Err e => Err e
  end.

(** os.MkdirAll on the resolved path [rev rp]: the fast path (Stat), then the
    parent, then Mkdir, and Lstat again when Mkdir fails. *)
Fixpoint mkdirAll_node (umask perm : Z) (rp : list string) (n : node) : result node :=
  match find n (rev rp) with
  | Ok (NDir _ _) => Ok n
  | Ok (NFile _ _) => Err ENOTDIR
  | Err e0 =>
      match rp with
      | [] => Err e0
      | _ :: rparent =>
          match mkdirAll_node umask perm rparent n with
          | Err e => Err e
          | Ok n1 =>
              match mkdir_node umask perm (rev rp) n1 with
              | Ok n2 => Ok n2
              | Err e =>
                  match find n1 (rev rp) with
                  | Ok (NDir _ _) => Ok n1
                  | _ => Err e
                  end
              end
          end
      end
  end.

(** The flags of open(2), with Linux's values. *)
Definition O_RDONLY : Z := 0.
Definition O_WRONLY : Z := 1.
Definition O_RDWR : Z := 2.
Definition O_CREATE : Z := 64.
Definition O_EXCL : Z := 128.
Definition O_TRUNC : Z := 512.

Definition hasFlag (flag bit : Z) : bool := negb (Z.land flag bit =? 0).
Definition wants_read (flag : Z) : bool := negb (Z.land flag 3 =? O_WRONLY).
Definition wants_write (flag : Z) : bool := negb (Z.land flag 3 =? O_RDONLY).

Definition truncated (o : option node) : option node :=
  match o with
  | Some (NFile m _) => Some (NFile m "")
  | _ => o
  end.

Definition appended (data : string) (o : option node) : option node :=
  match o with
  | Some (NFile m d) => Some (NFile m (d +:+ data))
  | _ => o
  end.

(** open(2). *)
Definition openFile_node (umask flag perm : Z) (p : list string) (n : node)
  : result node :=
  match find n p with
  | Ok (NFile fm _) =>
      if hasFlag flag O_CREATE && hasFlag flag O_EXCL then Err EEXIST
      else if (implb (wants_read flag) (may_read fm))
              && (implb (wants_write flag) (may_write fm))
      then Ok (if hasFlag flag O_TRUNC then upd p truncated n else n)
      else Err EACCES
  | Ok (NDir dm _) =>
      if hasFlag flag O_CREATE && hasFlag flag O_EXCL then Err EEXIST
      else if wants_write flag then Err EISDIR
      else if may_read dm then Ok n else Err EACCES
  | Err ENOENT =>
      if hasFlag flag O_CREATE then
        match find n (parentOf p) with
        | Ok (NDir m _) =>
            if may_write m
            then Ok (upd p (created (NFile (creation_mode umask perm) "")) n)
            else Err EACCES
        | Ok (NFile _ _) => Err ENOTDIR
        | Err e => Err e
        end
      else Err ENOENT
  | Err e => Err e
  end.

(** unlink(2), then rmdir(2): os.Remove. *)
Definition remove_node (p : list string) (n : node) : result node :=
  match p with
  | [] => Err EACCES
  | _ =>
      match find n p with
      | Err e => Err e
      | Ok x =>
          match find n (parentOf p) with
          | Ok (NDir m _) =>
              if may_write m then
                match x with
                | NDir _ (_ :: _) => Err ENOTEMPTY
                | _ => Ok (upd p (fun _ => None) n)
                end
              else Err EACCES
          | Ok (NFile _ _) => Err ENOTDIR
          | Err e => Err e
          end
      end
  end.

(** Reading an open file to its end. *)
Definition read_node (fault : list string -> option nat) (p : list string) (n : node)
  : stream :=
  match find n p with
  | Ok (NFile _ d) =>
      match fault p with
      | None => Stream d None
      | Some k => Stream (String.substring 0 k d) (Some EIO)
      end
  | Ok (NDir _ _) => Stream "" (Some EISDIR)
  | Err e => Stream "" (Some e)
  end.

(* ===================================================================== *)
(** * The world of one run                                                *)
(* ===================================================================== *)

(** What http.Get gives for a URL: a transport error, or a response whose
    body is a stream (the status code is not looked at by the program). *)
Inductive response :=
  | Refused (e : error)
  | Served (body : stream).

(** One element of the JSON index. *)
Record Entry := mkEntry { e_Name : string; e_URL : string }.

(** One *zip.File: its name, its mode (fs.FileMode, bit 31 is ModeDir) and
    what f.Open() gives. *)
Record zipFile := mkZipFile { zf_Name : string; zf_Mode : Z; zf_Open : result stream }.

Definition ModeDir : Z := Z.shiftl 1 31.
Definition ModePerm : Z := 511.
Definition IsDir (mode : Z) : bool := Z.testbit mode 31.

(** The lines the program writes: fmt.Printf and fmt.Println on stdout,
    log.Printf and log.Fatalf on the logger, one constructor per call site. *)
Inductive event :=
  | PrintUsage
  | PrintSelected (names : gset string)
  | PrintDownloadingAll
  | PrintProcessing (name : string)
  | LogFailedProcess (name : string) (err : error)
  | PrintCompleted (processedCount : nat)
  | LogFailedOpen (file : string) (err : error)
  | LogFailedCopy (file destPath : string) (err : error)
  | LogFailedNewline (file : string) (err : error)
  | PrintCreated (destPath : string)
  | LogFatal (msg : string) (err : error).

Record world := World {
  fs : node;
  cwd : list string;
  umask : Z;
  tmpdir : string;
  rng : nat;
  net : string -> response;
  io_fault : list string -> option nat;
  out : list event }.

Definition set_fs (n : node) (w : world) : world :=
  World n (cwd w) (umask w) (tmpdir w) (rng w) (net w) (io_fault w) (out w).
Definition set_rng (k : nat) (w : world) : world :=
  World (fs w) (cwd w) (umask w) (tmpdir w) k (net w) (io_fault w) (out w).
Definition emit (e : event) (w : world) : world :=
  World (fs w) (cwd w) (umask w) (tmpdir w) (rng w) (net w) (io_fault w) (out w ++ [e]).

(** An *os.File: the name it was opened under and the node it denotes. *)
Record file := mkFile { f_Name : string; f_path : list string }.

(** FileInfo, as far as the program reads it. *)
Record FileInfo := mkInfo { fi_Name : string; fi_IsDir : bool }.

Definition infoOf (path : string) (n : node) : FileInfo :=
  mkInfo (basename path) (match n with NDir _ _ => true | NFile _ _ => false end).

(** Computations that change the world and may fail. *)
Definition M (A : Type) : Type := world -> result A * world.

Definition ret {A} (a : A) : M A := fun w => (Ok a, w).

Definition bind {A B} (m : M A) (k : A -> M B) : M B :=
  fun w => match m w with
           | (Ok a, w') => k a w'
           | (Err e, w') => (Err e, w')
           end.

Notation "'let*' x := m 'in' k" := (bind m (fun x => k))
  (at level 10, x name, m at level 100, k at level 200).

(** if err != nil { return fmt.Errorf(msg + ": %w", err) } *)
Definition orWrap {A} (msg : string) (m : M A) : M A :=
  fun w => match m w with
           | (Err e, w') => (Err (Wrap msg e), w')
           | r => r
           end.

(** defer cleanup(): runs on every way out of [body]; its result is dropped. *)
Definition defer {A B} (cleanup : M B) (body : M A) : M A :=
  fun w => let '(r, w1) := body w in (r, snd (cleanup w1)).

Definition lift {A} (r : world -> result A) : M A := fun w => (r w, w).

Definition say (e : event) : M unit := fun w => (Ok tt, emit e w).

(** ** Package os *)

Definition locate (path : string) (w : world) : result (list string) :=
  if String.eqb path "" then Err ENOENT else Ok (resolve (cwd w) path).

Definition on_fs (path : string) (op : list string -> node -> result node) : M unit :=
  fun w => match locate path w with
           | Err e => (Err e, w)
           | Ok p => match op p (fs w) with
                     | Err e => (Err e, w)
                     | Ok n' => (Ok tt, set_fs n' w)
                     end
           end.

Definition os_Lstat (path : string) (w : world) : result node :=
  match locate path w with
  | Err e => Err e
  | Ok p => find (fs w) p
  end.

Definition os_MkdirAll (path : string) (perm : Z) : M unit :=
  fun w => on_fs path (fun p => mkdirAll_node (umask w) perm (rev p)) w.

Definition os_OpenFile (name : string) (flag perm : Z) : M file :=
  fun w => match on_fs name (openFile_node (umask w) flag perm) w with
           | (Err e, w') => (Err e, w')
           | (Ok _, w') => (Ok (mkFile name (resolve (cwd w) name)), w')
           end.

Definition os_Create (name : string) : M file :=
  os_OpenFile name (Z.lor O_RDWR (Z.lor O_CREATE O_TRUNC)) 438.

Definition os_Open (name : string) : M file := os_OpenFile name O_RDONLY 0.

Definition os_Remove (name : string) : M unit := on_fs name remove_node.

(** f.Write: the bytes go to the end of the file the descriptor denotes. *)
Definition file_Write (f : file) (data : string) : M unit :=
  fun w => (Ok tt, set_fs (upd (f_path f) (appended data) (fs w)) w).

(** The content of an open file as a reader. *)
Definition file_Reader (f : file) (w : world) : stream :=
  read_node (io_fault w) (f_path f) (fs w).

(** io.Copy(dst, src): what src delivers is written to dst; the reading error,
    if any, is the result. *)
Definition io_Copy (dst : file) (src : stream) : M unit :=
  fun w => let '(_, w1) := file_Write dst (s_data src) w in
           match s_err src with
           | Some e => (Err e, w1)
           | None => (Ok tt, w1)
           end.

(** prefixAndSuffix of package os: the pattern around its last star. *)
Definition prefixAndSuffix (pattern : string) : string * string :=
  match Split pattern "*"%char with
  | [_] | [] => (pattern, "")
  | parts => (joinWith "*" (removelast parts), List.last parts "")
  end.

Definition joinPath (dir name : string) : string :=
  if HasSuffix dir "/" then dir +:+ name else dir +:+ "/" +:+ name.

Definition nextRandom (w : world) : string * world :=
  (NilZero.string_of_uint (Nat.to_uint (rng w)), set_rng (S (rng w)) w).

Fixpoint createTemp_loop (tries : nat) (prefix suffix : string) : M file :=
  fun w =>
    let '(r, w1) := nextRandom w in
    let name := prefix +:+ r +:+ suffix in
    match os_OpenFile name (Z.lor O_RDWR (Z.lor O_CREATE O_EXCL)) 384 w1 with
    | (Err EEXIST, w2) =>
        match tries with
        | O => (Err EEXIST, w2)
        | S tries' => createTemp_loop tries' prefix suffix w2
        end
    | r' => r'
    end.

(** os.CreateTemp(dir, pattern). *)
Definition os_CreateTemp (dir pattern : string) : M file :=
  fun w =>
    let dir := if String.eqb dir "" then tmpdir w else dir in
    let '(prefix, suffix) := prefixAndSuffix pattern in
    createTemp_loop (Z.to_nat 9999) (joinPath dir prefix) suffix w.

(** ** Package net/http *)

Definition http_Get (url : string) : M stream :=
  lift (fun w => match net w url with
                 | Refused e => Err e
                 | Served body => Ok body
                 end).

(** ** Package bufio: Scanner with ScanLines *)

(** dropCR of package bufio: a final carriage return is dropped. *)
Fixpoint dropCR (s : string) : string :=
  match s with
  | EmptyString => ""
  | String c EmptyString => if Ascii.eqb c "013"%char then "" else s
  | String c s' => String c (dropCR s')
  end.

Definition MaxScanTokenSize : Z := 65536.

Definition rawLines (data : string) : list string :=
  let parts := Split data "010"%char in
  if String.eqb (List.last parts "") "" then removelast parts else parts.

(** The tokens Scan delivers and the value of Err afterwards. *)
Fixpoint scanTokens (raw : list string) (final : option error)
  : list string * option error :=
  match raw with
  | [] => ([], final)
  | l :: rest =>
      if MaxScanTokenSize <=? Z.of_nat (String.length l) then ([], Some ErrTooLong)
      else let '(ts, e) := scanTokens rest final in (dropCR l :: ts, e)
  end.

Definition scanLines (src : stream) : list string * option error :=
  scanTokens (rawLines (s_data src)) (s_err src).

(* ===================================================================== *)
(** * The Go library functions the repository does not define             *)
(* ===================================================================== *)

Class GoLib := {
  (** strings.TrimSpace and strings.ToLower (Unicode aware) *)
  TrimSpace : string -> string;
  ToLower : string -> string;
  (** zip.NewReader on the bytes of an archive: its files, or an error *)
  zip_NewReader : string -> result (list zipFile);
  (** json.NewDecoder(body).Decode(&entries) on the bytes of the body *)
  json_Decode : string -> result (list Entry) }.

(* ===================================================================== *)
(** * The program                                                         *)
(* ===================================================================== *)

Section Program.
Context {L : GoLib}.

(** ** The Selector *)

Definition parseCompanyNames (input : string) : gset string :=
  foldl (fun companies name =>
           let trimmed := TrimSpace name in
           if negb (String.eqb trimmed "")
           then {[ ToLower trimmed ]} ∪ companies
           else companies)
        ∅ (Split input ","%char).

(** The map built by the scanning loop and the value of scanner.Err(); the
    map is nil ([None]) when the file cannot be opened. *)
Definition readCompanyList (path : string) (w : world)
  : option (gset string) * option error :=
  match os_Open path w with
  | (Err err, _) => (None, Some err)
  | (Ok file, _) =>
      let '(lines, err) := scanLines (file_Reader file w) in
      (Some (foldl (fun companies text =>
                      let line := TrimSpace text in
                      if negb (String.eqb line "")
                      then {[ ToLower line ]} ∪ companies
                      else companies)
                   ∅ lines),
       err)
  end.

(** The Selection Set in the words of the specification.  From a string:
    split on commas, trim whitespace, drop empty tokens, lowercase each,
    collect into a set.  From a file: the same over its lines. *)
Definition spec_tokens (pieces : list string) : list string :=
  map ToLower (List.filter (λ t, negb (String.eqb t "")) (map TrimSpace pieces)).

Definition spec_selection_of_string (input : string) : gset string :=
  list_to_set (spec_tokens (Split input ","%char)).

Definition textLines (content : string) : list string :=
  map dropCR (rawLines content).

Definition spec_selection_of_file (content : string) : gset string :=
  list_to_set (spec_tokens (textLines content)).

(** ** The Archive Extractor *)

(** zip.OpenReader(name). *)
Definition zip_OpenReader (name : string) : M (list zipFile) :=
  let* f := os_Open name in
  fun w =>
    let src := file_Reader f w in
    match s_err src with
    | Some e => (Err e, w)
    | None => (zip_NewReader (s_data src), w)
    end.

(** The loop body of unzipFile over r.File. *)
Fixpoint unzipEntries (destDir : string) (files : list zipFile) : M unit :=
  match files with
  | [] => ret tt
  | f :: rest =>
      let fpath := Join destDir (zf_Name f) in
      if IsDir (zf_Mode f) then
        fun w => unzipEntries destDir rest (snd (os_MkdirAll fpath ModePerm w))
      else
        let* _ := os_MkdirAll (Dir fpath) ModePerm in
        let* outFile :=
          orWrap "error opening output file"
            (os_OpenFile fpath (Z.lor O_WRONLY (Z.lor O_CREATE O_TRUNC)) (zf_Mode f)) in
        let* rc := orWrap "error opening zip content" (lift (fun _ => zf_Open f)) in
        let* _ := orWrap "error writing to output file" (io_Copy outFile rc) in
        unzipEntries destDir rest
  end.

Definition unzipFile (zipFile destDir : string) : M unit :=
  let* r := orWrap "error opening zip file" (zip_OpenReader zipFile) in
  unzipEntries destDir r.

(** ** The Item Processor *)

Definition downloadAndUnzip (url name baseDir : string) : M unit :=
  let* resp := orWrap ("error downloading " +:+ url) (http_Get url) in
  let* tempFile := orWrap "error creating temp file" (os_CreateTemp "" "*.zip") in
  defer (os_Remove (f_Name tempFile))
    (let* _ := orWrap "error writing to temp file" (io_Copy tempFile resp) in
     let dirPath := Join baseDir name in
     let* _ := orWrap ("error creating directory " +:+ dirPath)
                 (os_MkdirAll dirPath ModePerm) in
     let* _ := orWrap "error unzipping file" (unzipFile (f_Name tempFile) dirPath) in
     ret tt).

(** filterSet is nil ([None]) or a set of lowercase names. *)
Definition selected (filterSet : option (gset string)) (entry : Entry) : bool :=
  match filterSet with
  | None => true
  | Some s => bool_decide (ToLower (e_Name entry) ∈ s)
  end.

(** The loop of processURLs over the entries: the final processedCount. *)
Fixpoint processEntries (baseDir : string) (filterSet : option (gset string))
    (entries : list Entry) (processedCount : nat) (w : world) : nat * world :=
  match entries with
  | [] => (processedCount, w)
  | entry :: rest =>
      if selected filterSet entry then
        let w1 := emit (PrintProcessing (e_Name entry)) w in
        match downloadAndUnzip (e_URL entry) (e_Name entry) baseDir w1 with
        | (Err err, w2) =>
            processEntries baseDir filterSet rest processedCount
              (emit (LogFailedProcess (e_Name entry) err) w2)
        | (Ok _, w2) =>
            processEntries baseDir filterSet rest (S processedCount) w2
        end
      else processEntries baseDir filterSet rest processedCount w
  end.

Definition processURLs (jsonURL baseDir : string) (filterSet : option (gset string))
  : M unit :=
  let* resp := orWrap "error fetching JSON index" (http_Get jsonURL) in
  let* entries := orWrap "error decoding JSON index"
                    (lift (fun _ => json_Decode (s_data resp))) in
  fun w =>
    let '(processedCount, w1) := processEntries baseDir filterSet entries 0 w in
    (Ok tt, emit (PrintCompleted processedCount) w1).

(** ** The Concatenator *)

(** filepath.Walk's recursion, for a callback that threads a state [S].  The
    callbacks of this program return nil or the error they are given, never
    filepath.SkipDir. *)
Section Walk.
Context {S : Type}.
Variable walkFn : string -> option FileInfo -> option error -> S -> S * option error.

Fixpoint walk (path : string) (n : node) (st : S) {struct n} : S * option error :=
  match n with
  | NFile _ _ => walkFn path (Some (infoOf path n)) None st
  | NDir m es =>
      let err := if may_read m then None else Some EACCES in
      let '(st1, err1) := walkFn path (Some (infoOf path n)) err st in
      match err, err1 with
      | None, None =>
          (fix each (es : list (string * node)) (st : S) {struct es}
             : S * option error :=
             match es with
             | [] => (st, None)
             | (name, child) :: rest =>
                 let filename := Join path name in
                 let '(st', e) :=
                   if may_exec m then walk filename child st
                   else walkFn filename None (Some EACCES) st in
                 match e with
                 | None => each rest st'
                 | Some _ => (st', e)
                 end
             end) es st1
      | _, _ => (st1, err1)
      end
  end.

Definition Walk (root : string) (w : world) (st : S) : S * option error :=
  match os_Lstat root w with
  | Err e => walkFn root None (Some e) st
  | Ok n => walk root n st
  end.

End Walk.

(** The function literal handed to filepath.Walk; [files] is the slice it
    appends to. *)
Definition collectTxt (path : string) (info : option FileInfo) (err : option error)
    (files : list string) : list string * option error :=
  match err with
  | Some e => (files, Some e)
  | None =>
      match info with
      | Some i =>
          if negb (fi_IsDir i) && HasSuffix (fi_Name i) ".txt"
          then (files ++ [path], None)
          else (files, None)
      | None => (files, None)
      end
  end.

Definition findAllTxtFiles (root : string) (w : world) : list string :=
  fst (Walk collectTxt root w []).

(** The loop of concatenateAllTxtFiles over allTxtFiles. *)
Fixpoint concatFiles (dest : file) (destPath : string) (files : list string)
    (w : world) : world :=
  match files with
  | [] => w
  | file :: rest =>
      match os_Open file w with
      | (Err err, w1) =>
          concatFiles dest destPath rest (emit (LogFailedOpen file err) w1)
      | (Ok src, w1) =>
          match io_Copy dest (file_Reader src w1) w1 with
          | (Err err, w2) =>
              concatFiles dest destPath rest (emit (LogFailedCopy file destPath err) w2)
          | (Ok _, w2) =>
              match file_Write dest (String "010"%char "") w2 with
              | (Err err, w3) =>
                  concatFiles dest destPath rest (emit (LogFailedNewline file err) w3)
              | (Ok _, w3) => concatFiles dest destPath rest w3
              end
          end
      end
  end.

Definition concatenateAllTxtFiles (baseDir outputDir : string) : M unit :=
  fun w =>
    let allTxtFiles := findAllTxtFiles baseDir w in
    let destPath := Join outputDir "everything.txt" in
    (let* dest := orWrap ("error creating " +:+ destPath) (os_Create destPath) in
     fun w1 =>
       (Ok tt, emit (PrintCreated destPath) (concatFiles dest destPath allTxtFiles w1))) w.

(** ** main *)

Record flags := mkFlags {
  inputFile : string;
  companies : string;
  all : bool;
  help : bool }.

(** log.Fatalf: the line is logged and the process exits. *)
Definition orFatal {A} (msg : string) (m : M A) : M A :=
  fun w => match m w with
           | (Err e, w') => (Err e, emit (LogFatal msg e) w')
           | r => r
           end.

Definition main (fl : flags) : M unit :=
  if help fl
     || (String.eqb (inputFile fl) "" && String.eqb (companies fl) "" && negb (all fl))
  then say PrintUsage
  else
    let baseDir := Join "." "AllChaosData" in
    let* _ := orFatal "Failed to create base directory" (os_MkdirAll baseDir ModePerm) in
    let* companySet :=
      (if negb (String.eqb (companies fl) "") then
         let companySet := parseCompanyNames (companies fl) in
         (* getCompanyNames ranges over the map in Go's unspecified order:
            the line printed is recorded with the set itself *)
         let* _ := say (PrintSelected companySet) in
         ret (Some companySet)
       else if negb (String.eqb (inputFile fl) "") then
         orFatal "Failed to read input file"
           (lift (fun w => match readCompanyList (inputFile fl) w with
                           | (_, Some err) => Err err
                           | (companySet, None) => Ok companySet
                           end))
       else if all fl then
         let* _ := say PrintDownloadingAll in
         ret None
       else ret None) in
    let jsonURL := "https://chaos-data.projectdiscovery.io/index.json" in
    let* _ := orFatal "Failed to process URLs" (processURLs jsonURL baseDir companySet) in
    let* _ := orFatal "Failed to concatenate all txt files"
                (concatenateAllTxtFiles baseDir ".") in
    ret tt.

End Program.

(* ===================================================================== *)
(** * A library instance and sample worlds                                *)
(* ===================================================================== *)

(** TrimSpace and ToLower on ASCII text, where they act byte by byte. *)
Definition isAsciiSpace (c : ascii) : bool :=
  let n := nat_of_ascii c in
  ((9 <=? n)%nat && (n <=? 13)%nat) || (n =? 32)%nat.

Fixpoint trimLeft (s : string) : string :=
  match s with
  | String c s' => if isAsciiSpace c then trimLeft s' else s
  | EmptyString => ""
  end.

Fixpoint allSpace (s : string) : bool :=
  match s with
  | String c s' => isAsciiSpace c && allSpace s'
  | EmptyString => true
  end.

Fixpoint trimRight (s : string) : string :=
  match s with
  | String c s' => if allSpace s then "" else String c (trimRight s')
  | EmptyString => ""
  end.

Definition asciiTrimSpace (s : string) : string := trimRight (trimLeft s).

Definition asciiLowerByte (c : ascii) : ascii :=
  let n := nat_of_ascii c in
  if (65 <=? n)%nat && (n <=? 90)%nat then ascii_of_nat (n + 32) else c.

Fixpoint asciiToLower (s : string) : string :=
  match s with
  | String c s' => String (asciiLowerByte c) (asciiToLower s')
  | EmptyString => ""
  end.

(** A reader and a decoder that know finitely many payloads. *)
Fixpoint payload {A} (table : list (string * A)) (data : string) : result A :=
  match table with
  | [] => Err ErrFormat
  | (k, v) :: rest => if String.eqb k data then Ok v else payload rest data
  end.

Definition tableLib (zips : list (string * list zipFile))
    (indexes : list (string * list Entry)) : GoLib :=
  {| TrimSpace := asciiTrimSpace;
     ToLower := asciiToLower;
     zip_NewReader := payload zips;
     json_Decode := payload indexes |}.


(* ===================================================================== *)
(** * Predicates used by the statements                                   *)
(* ===================================================================== *)

(** Two nodes of the same kind with the same permission bits. *)
Definition same_attr (x y : node) : Prop :=
  match x, y with
  | NFile m _, NFile m' _ => m = m'
  | NDir m _, NDir m' _ => m = m'
  | _, _ => False
  end.

(** [n'] has every node that [n] has, with its kind and its permissions. *)
Definition keeps (n n' : node) : Prop :=
  ∀ q x, find n q = Ok x → ∃ y, find n' q = Ok y ∧ same_attr x y.

(** An entry function that leaves directories alone and changes at most the
    content of a file. *)
Definition mild (f : option node -> option node) : Prop :=
  (∀ m es, f (Some (NDir m es)) = Some (NDir m es)) ∧
  (∀ m d, ∃ d', f (Some (NFile m d)) = Some (NFile m d')).

(** The environment of the process, which nothing in the program changes. *)
Definition same_env (w w' : world) : Prop :=
  cwd w' = cwd w ∧ umask w' = umask w ∧ tmpdir w' = tmpdir w
  ∧ net w' = net w ∧ io_fault w' = io_fault w.

(** [w'] is [w] after system calls that add names or change file contents. *)
Definition stable (w w' : world) : Prop :=
  same_env w w' ∧ keeps (fs w) (fs w').

(** Nothing was printed or logged between [w] and [w']. *)
Definition same_out (w w' : world) : Prop := out w' = out w.

(** A computation whose final world is related to its initial world. *)
Definition respects (R : world -> world -> Prop) {A} (m : M A) : Prop :=
  ∀ w, R w (snd (m w)).

(** [name] denotes a regular file that os.Remove can unlink: its directory
    is writable. *)
Definition removable (w : world) (name : string) : Prop :=
  name ≠ "" ∧
  let p := resolve (cwd w) name in
  p ≠ [] ∧ (∃ m d, find (fs w) p = Ok (NFile m d))
  ∧ (∃ pm pes, find (fs w) (parentOf p) = Ok (NDir pm pes) ∧ may_write pm = true).

(** The names in the "Processing ..." notices and in the "Failed to
    process ..." log lines of a run. *)
Definition processingNotices (evs : list event) : list string :=
  omap (λ e, match e with PrintProcessing n => Some n | _ => None end) evs.

Definition failedEntries (evs : list event) : list string :=
  omap (λ e, match e with LogFailedProcess n _ => Some n | _ => None end) evs.

(** What the loop of processURLs writes for one selected entry: the notice,
    and the log line when downloadAndUnzip returned the error [outcome]. *)
Definition entryLines (entry : Entry) (outcome : option error) : list event :=
  PrintProcessing (e_Name entry)
  :: match outcome with
     | Some err => [LogFailedProcess (e_Name entry) err]
     | None => []
     end.

(** The number of entries without an error. *)
Definition succeeded (outcomes : list (option error)) : nat :=
  length (List.filter (λ o, match o with None => true | Some _ => false end) outcomes).

(** Every directory of [w] is still a directory of [w'], with its
    permissions. *)
Definition dirs_kept (w w' : world) : Prop :=
  same_env w w'
  ∧ ∀ q m es, find (fs w) q = Ok (NDir m es) → ∃ es', find (fs w') q = Ok (NDir m es').

(** [path] names a directory. *)
Definition is_dir (w : world) (path : string) : Prop :=
  ∃ m es, os_Lstat path w = Ok (NDir m es).

(** The names of the directories directly under [path]. *)
Definition subdirs (w : world) (path : string) : list string :=
  match os_Lstat path w with
  | Ok (NDir _ es) =>
      omap (λ e, match snd e with NDir _ _ => Some (fst e) | NFile _ _ => None end) es
  | _ => []
  end.

(** The newline the Concatenator writes after each file. *)
Definition LF : string := String "010"%char "".

Definition concatAll (parts : list string) : string := foldr String.append "" parts.

(** What the Concatenator adds to the combined file for one source file that
    is a regular file of [w]: its bytes and a newline; nothing when it cannot
    be opened; the bytes read before a reading fault. *)
Definition piece (w : world) (file : string) : string :=
  match find (fs w) (resolve (cwd w) file) with
  | Ok (NFile m data) =>
      if may_read m then
        match io_fault w (resolve (cwd w) file) with
        | None => data +:+ LF
        | Some k => String.substring 0 k data
        end
      else ""
  | _ => ""
  end.

(** The log line, if any, for one source file that is a regular file. *)
Definition pieceLog (w : world) (destPath file : string) : list event :=
  match find (fs w) (resolve (cwd w) file) with
  | Ok (NFile m data) =>
      if may_read m then
        match io_fault w (resolve (cwd w) file) with
        | None => []
        | Some k => [LogFailedCopy file destPath EIO]
        end
      else [LogFailedOpen file EACCES]
  | _ => []
  end.

(** [file] names a regular file other than the one at [dest]. *)
Definition source_of (w : world) (dest : list string) (file : string) : Prop :=
  file ≠ "" ∧ resolve (cwd w) file ≠ dest
  ∧ ∃ m data, find (fs w) (resolve (cwd w) file) = Ok (NFile m data).

(** The content of the regular file that [path] names. *)
Definition contentOf (w : world) (path : string) : option string :=
  match os_Lstat path w with
  | Ok (NFile _ data) => Some data
  | _ => None
  end.

(** [path] names a regular file with content [data] that can be opened and
    read to its end. *)
Definition readable_with (w : world) (path data : string) : Prop :=
  path ≠ ""
  ∧ ∃ m, find (fs w) (resolve (cwd w) path) = Ok (NFile m data)
         ∧ may_read m = true ∧ io_fault w (resolve (cwd w) path) = None.

Section Extraction.
Context {L : GoLib}.

(** One turn of the loop of unzipFile for an entry that is not a directory. *)
Definition extractFile (destDir : string) (f : zipFile) : M unit :=
  let fpath := Join destDir (zf_Name f) in
  let* _ := os_MkdirAll (Dir fpath) ModePerm in
  let* outFile :=
    orWrap "error opening output file"
      (os_OpenFile fpath (Z.lor O_WRONLY (Z.lor O_CREATE O_TRUNC)) (zf_Mode f)) in
  let* rc := orWrap "error opening zip content" (lift (fun _ => zf_Open f)) in
  orWrap "error writing to output file" (io_Copy outFile rc).

(** A file entry whose destination is already there: its directory exists,
    the file exists and may be written, and its content can be read from the
    archive. *)
Definition ready (w : world) (destDir : string) (f : zipFile) : Prop :=
  let fpath := Join destDir (zf_Name f) in
  fpath ≠ "" ∧ Dir fpath ≠ ""
  ∧ (∃ m es, find (fs w) (resolve (cwd w) (Dir fpath)) = Ok (NDir m es))
  ∧ (∃ m d, find (fs w) (resolve (cwd w) fpath) = Ok (NFile m d) ∧ may_write m = true)
  ∧ ∃ data, zf_Open f = Ok (Stream data None).

End Extraction.

(** The flags unzipFile opens a destination with. *)
Definition WCT : Z := Z.lor O_WRONLY (Z.lor O_CREATE O_TRUNC).

(** A file entry whose declared permission bits, less the umask [u], let the
    owner write. *)
Definition writable_entry (u : Z) (f : zipFile) : Prop :=
  IsDir (zf_Mode f) = false → may_write (creation_mode u (zf_Mode f)) = true.

(** The loop of filepath.Walk over the names of one directory, by itself. *)
Fixpoint walkChildren {S : Type}
    (walkFn : string -> option FileInfo -> option error -> S -> S * option error)
    (path : string) (m : Z) (es : list (string * node)) (st : S) : S * option error :=
  match es with
  | [] => (st, None)
  | (name, child) :: rest =>
      let filename := Join path name in
      let '(st', e) :=
        if may_exec m then walk walkFn filename child st
        else walkFn filename None (Some EACCES) st in
      match e with
      | None => walkChildren walkFn path m rest st'
      | Some _ => (st', e)
      end
  end.

(** A path with a parent-directory segment. *)
Definition hasDotDot (name : string) : Prop := ".." ∈ Split name slash.

(* ===================================================================== *)
(** * Sample archives, indexes and worlds                                 *)
(* ===================================================================== *)

Module Sample.

Definition indexURL : string := "https://chaos-data.projectdiscovery.io/index.json".

(** A file entry with mode 0644 and a directory entry with mode 0755. *)
Definition plain (name data : string) : zipFile :=
  mkZipFile name 420 (Ok (Stream data None)).
Definition folder (name : string) : zipFile :=
  mkZipFile name (Z.lor ModeDir 493) (Ok (Stream "" None)).

Definition archive_a : list zipFile :=
  [folder "sub/"; plain "sub/1.txt" "X"; plain "readme.md" "R"].
Definition archive_b : list zipFile := [plain "2.txt" "Y"].
(** An entry with mode 0444. *)
Definition archive_ro : list zipFile := [mkZipFile "r.txt" 292 (Ok (Stream "X" None))].
(** An entry that climbs out of its destination. *)
Definition archive_up : list zipFile := [plain "../../escaped.txt" "E"].
(** An archive whose second entry is corrupt after one byte. *)
Definition archive_cut : list zipFile :=
  [plain "a.txt" "A";
   mkZipFile "b.txt" 420 (Ok (Stream "B" (Some ErrFormat)));
   plain "c.txt" "C"].

Definition index3 : list Entry :=
  [mkEntry "Tesla" "u/tesla"; mkEntry "Acme" "u/acme"; mkEntry "Google" "u/google"].
Definition index_dup : list Entry := [mkEntry "Acme" "u/1"; mkEntry "Acme" "u/2"].
Definition index_cut : list Entry := [mkEntry "Cut" "u/cut"; mkEntry "Google" "u/google"].

Definition lib : GoLib :=
  tableLib [("ZIP-a", archive_a); ("ZIP-b", archive_b); ("ZIP-cut", archive_cut)]
           [("IDX", index3); ("IDX-dup", index_dup); ("IDX-cut", index_cut)].

Fixpoint serve (table : list (string * string)) (url : string) : response :=
  match table with
  | [] => Refused (ErrNet "no such host")
  | (k, body) :: rest =>
      if String.eqb k url then Served (Stream body None) else serve rest url
  end.

Definition net0 : string -> response :=
  serve [(indexURL, "IDX"); ("dup/index.json", "IDX-dup"); ("cut/index.json", "IDX-cut");
         ("u/tesla", "ZIP-a"); ("u/google", "ZIP-b"); ("u/1", "ZIP-b"); ("u/2", "ZIP-b");
         ("u/cut", "ZIP-cut")].

Definition worldOf (home : list (string * node)) : world :=
  World (NDir 493 [("home", NDir 493 [("u", NDir 493 home)]); ("tmp", NDir 511 [])])
        ["home"; "u"] 18 "/tmp" 7 net0 (fun _ => None) [].

(** The working directory /home/u with an empty base directory. *)
Definition w0 : world := worldOf [("AllChaosData", NDir 493 [])].

(** A name-list file. *)
Definition w_names : world :=
  worldOf [("names.txt",
            NFile 420 ("Tesla" +:+ LF +:+ LF +:+ "  google  " +:+ LF))].

(** Two text files under the base directory. *)
Definition w_two : world :=
  worldOf [("AllChaosData",
            NDir 493 [("a", NDir 493 [("1.txt", NFile 420 "X")]);
                      ("b", NDir 493 [("2.txt", NFile 420 "Y")])])].

(** Three text files, the second of which nobody may read. *)
Definition w_secret : world :=
  worldOf [("AllChaosData",
            NDir 493 [("a", NDir 493 [("1.txt", NFile 420 "X")]);
                      ("b", NDir 493 [("2.txt", NFile 0 "Y")]);
                      ("c", NDir 493 [("3.txt", NFile 420 "Z")])])].

(** Three text files, the second in a directory that cannot be listed. *)
Definition w_closed : world :=
  worldOf [("AllChaosData",
            NDir 493 [("a", NDir 493 [("1.txt", NFile 420 "X")]);
                      ("b", NDir 192 [("2.txt", NFile 420 "Y")]);
                      ("c", NDir 493 [("3.txt", NFile 420 "Z")])])].

(** A file that is not an archive. *)
Definition w_garbage : world := worldOf [("bad.zip", NFile 420 "garbage")].

(** A destination that already holds 2.txt with mode 0600, and a regular
    file named sub. *)
Definition w_old : world :=
  worldOf [("AllChaosData",
            NDir 493 [("acme", NDir 493 [("2.txt", NFile 384 "old content");
                                         ("sub", NFile 420 "")])])].

End Sample.

(* ===================================================================== *)
(** * Parts of the program taken by themselves                            *)
(* ===================================================================== *)

(** The regular files of a tree whose name ends in ".txt", in the order of
    the directory entries; [path] is the path of the root of the tree. *)
Fixpoint txtFilesOf (path : string) (n : node) {struct n} : list string :=
  match n with
  | NFile _ _ => if HasSuffix (basename path) ".txt" then [path] else []
  | NDir _ es =>
      (fix each (es : list (string * node)) {struct es} : list string :=
         match es with
         | [] => []
         | (name, child) :: rest => txtFilesOf (Join path name) child ++ each rest
         end) es
  end.

Fixpoint txtFilesUnder (path : string) (es : list (string * node)) : list string :=
  match es with
  | [] => []
  | (name, child) :: rest => txtFilesOf (Join path name) child ++ txtFilesUnder path rest
  end.

(** Every directory of the tree can be read and searched. *)
Fixpoint open_tree (n : node) {struct n} : bool :=
  match n with
  | NFile _ _ => true
  | NDir m es =>
      may_read m && may_exec m
      && (fix each (es : list (string * node)) {struct es} : bool :=
            match es with
            | [] => true
            | (_, child) :: rest => open_tree child && each rest
            end) es
  end.

Fixpoint open_trees (es : list (string * node)) : bool :=
  match es with
  | [] => true
  | (_, child) :: rest => open_tree child && open_trees rest
  end.

(** Every regular file of [w] other than the one at [dest] is a regular file
    of [w'] with the same mode and the same content, and can be read as
    before. *)
Definition others_kept (dest : list string) (w w' : world) : Prop :=
  cwd w' = cwd w ∧ io_fault w' = io_fault w
  ∧ ∀ q m d, q ≠ dest → find (fs w) q = Ok (NFile m d) → find (fs w') q = Ok (NFile m d).

Section Parts.
Context {L : GoLib}.

(** The chain of main that settles the Selection Set. *)
Definition chooseCompanies (fl : flags) : M (option (gset string)) :=
  if negb (String.eqb (companies fl) "") then
    let companySet := parseCompanyNames (companies fl) in
    let* _ := say (PrintSelected companySet) in
    ret (Some companySet)
  else if negb (String.eqb (inputFile fl) "") then
    orFatal "Failed to read input file"
      (lift (fun w => match readCompanyList (inputFile fl) w with
                      | (_, Some err) => Err err
                      | (companySet, None) => Ok companySet
                      end))
  else if all fl then
    let* _ := say PrintDownloadingAll in
    ret None
  else ret None.

(** What main does once the Selection Set is known. *)
Definition afterSelection (companySet : option (gset string)) : M unit :=
  let* _ := orFatal "Failed to process URLs"
              (processURLs "https://chaos-data.projectdiscovery.io/index.json"
                 (Join "." "AllChaosData") companySet) in
  let* _ := orFatal "Failed to concatenate all txt files"
              (concatenateAllTxtFiles (Join "." "AllChaosData") ".") in
  ret tt.

End Parts.

(* ===================================================================== *)
(** * Name lists                                                          *)
(* ===================================================================== *)

(** The byte [c] occurs in [s]. *)
Fixpoint hasByte (c : ascii) (s : string) : bool :=
  match s with
  | EmptyString => false
  | String x s' => Ascii.eqb x c || hasByte c s'
  end.

(** The text file with these lines, each ended by a newline. *)
Definition linesOf (names : list string) : string :=
  concatAll (map (fun n => n +:+ LF) names).

(** A name that can stand on a line of a name list and in a comma-separated
    list alike. *)
Definition plainName (n : string) : Prop :=
  hasByte ","%char n = false ∧ hasByte "010"%char n = false ∧ dropCR n = n
  ∧ Z.of_nat (String.length n) < MaxScanTokenSize.

(* ===================================================================== *)
(** * getCompanyNames                                                     *)
(* ===================================================================== *)

(** The keys of a map in an order in which a range loop may deliver them:
    every key once; Go leaves the order open. *)
Definition rangeOf (m : gset string) (keys : list string) : Prop :=
  NoDup keys ∧ ∀ x, x ∈ keys ↔ x ∈ m.

(** getCompanyNames, given the order [keys] in which the range loop over
    companySet delivers the names: each is appended to the slice, which
    starts out nil. *)
Definition getCompanyNames (keys : list string) : list string :=
  foldl (fun names name => names ++ [name]) [] keys.

(* ===================================================================== *)
(** * The program of chaos.go                                             *)
(* ===================================================================== *)

(** chaos.go has the functions above but for main and processURLs: its main
    knows the option -i alone, and its processURLs does not count. *)
Module ChaosGo.
Section Earlier.
Context {L : GoLib}.

(** The loop of processURLs over the entries. *)
Fixpoint processEntries (baseDir : string) (filterSet : option (gset string))
    (entries : list Entry) (w : world) : world :=
  match entries with
  | [] => w
  | entry :: rest =>
      if selected filterSet entry then
        let w1 := emit (PrintProcessing (e_Name entry)) w in
        match downloadAndUnzip (e_URL entry) (e_Name entry) baseDir w1 with
        | (Err err, w2) =>
            processEntries baseDir filterSet rest
              (emit (LogFailedProcess (e_Name entry) err) w2)
        | (Ok _, w2) => processEntries baseDir filterSet rest w2
        end
      else processEntries baseDir filterSet rest w
  end.

Definition processURLs (jsonURL baseDir : string) (filterSet : option (gset string))
  : M unit :=
  let* resp := orWrap "error fetching JSON index" (http_Get jsonURL) in
  let* entries := orWrap "error decoding JSON index"
                    (lift (fun _ => json_Decode (s_data resp))) in
  fun w => (Ok tt, processEntries baseDir filterSet entries w).

(** What main does once the Selection Set is known. *)
Definition afterSelection (companySet : option (gset string)) : M unit :=
  let* _ := orFatal "Failed to process URLs"
              (processURLs "https://chaos-data.projectdiscovery.io/index.json"
                 (Join "." "AllChaosData") companySet) in
  let* _ := orFatal "Failed to concatenate all txt files"
              (concatenateAllTxtFiles (Join "." "AllChaosData") ".") in
  ret tt.

Definition main (inputFile : string) : M unit :=
  let baseDir := Join "." "AllChaosData" in
  let* _ := orFatal "Failed to create base directory" (os_MkdirAll baseDir ModePerm) in
  let* companySet :=
    (if negb (String.eqb inputFile "") then
       orFatal "Failed to read input file"
         (lift (fun w => match readCompanyList inputFile w with
                         | (_, Some err) => Err err
                         | (companySet, None) => Ok companySet
                         end))
     else ret None) in
  let jsonURL := "https://chaos-data.projectdiscovery.io/index.json" in
  let* _ := orFatal "Failed to process URLs" (processURLs jsonURL baseDir companySet) in
  let* _ := orFatal "Failed to concatenate all txt files"
              (concatenateAllTxtFiles baseDir ".") in
  ret tt.

End Earlier.
End ChaosGo.

(** The lines that both programs write: all but the two notices that only
    the later main and processURLs print. *)
Definition shared (e : event) : bool :=
  match e with
  | PrintDownloadingAll | PrintCompleted _ => false
  | _ => true
  end.

(** Two worlds that differ at most in the notices that are not [shared]. *)
Definition alike (w w' : world) : Prop :=
  fs w' = fs w ∧ cwd w' = cwd w ∧ umask w' = umask w ∧ tmpdir w' = tmpdir w
  ∧ rng w' = rng w ∧ net w' = net w ∧ io_fault w' = io_fault w
  ∧ List.filter shared (out w') = List.filter shared (out w).

(** A computation that neither reads the output nor writes a notice that is
    not [shared]. *)
Definition blind {A} (m : M A) : Prop :=
  ∀ w w', alike w w' → fst (m w') = fst (m w) ∧ alike (snd (m w)) (snd (m w')).

(* ===================================================================== *)
(** * More sample worlds                                                  *)
(* ===================================================================== *)

Module Cases.

(** The world of [Sample.w0] without a network. *)
Definition w_offline : world :=
  World (fs Sample.w0) (cwd Sample.w0) (umask Sample.w0) (tmpdir Sample.w0)
        (rng Sample.w0) (fun _ => Refused (ErrNet "network is unreachable"))
        (io_fault Sample.w0) [].

Fixpoint repeatByte (n : nat) (c : ascii) : string :=
  match n with
  | O => ""
  | S k => String c (repeatByte k c)
  end.

(** A line of 65536 bytes. *)
Definition longLine : string := repeatByte (Z.to_nat MaxScanTokenSize) "a"%char.

(** A name list whose second line is too long for the Scanner. *)
Definition longList : string :=
  "Tesla" +:+ LF +:+ longLine +:+ LF +:+ "Google" +:+ LF.

Definition w_long : world := Sample.worldOf [("names.txt", NFile 420 longList)].

(** The base directory of [Sample.w_two]. *)
Definition twoTree : node :=
  NDir 493 [("a", NDir 493 [("1.txt", NFile 420 "X")]);
            ("b", NDir 493 [("2.txt", NFile 420 "Y")])].

(** The base directory of [Sample.w_closed]. *)
Definition closedTree : node :=
  NDir 493 [("a", NDir 493 [("1.txt", NFile 420 "X")]);
            ("b", NDir 192 [("2.txt", NFile 420 "Y")]);
            ("c", NDir 493 [("3.txt", NFile 420 "Z")])].

End Cases.
#[local] Set Warnings "-clear-no-such-hyp".

(* ===================================================================== *)
(** * The library functions at sample arguments                           *)
(* ===================================================================== *)

Example Split_commas :
  Split "Tesla, Google,,  Microsoft" ","%char = ["Tesla"; " Google"; ""; "  Microsoft"].
Proof. reflexivity. Qed.

Example Split_empty : Split "" ","%char = [""].
Proof. reflexivity. Qed.

Example Clean_inner : Clean "a//b/./c/.." = "a/b".
Proof. reflexivity. Qed.

Example Clean_rooted : Clean "/../a" = "/a".
Proof. reflexivity. Qed.

Example Clean_leading : Clean "../../a" = "../../a".
Proof. reflexivity. Qed.

Example Clean_empty : Clean "" = ".".
Proof. reflexivity. Qed.

Example Join_base : Join "." "AllChaosData" = "AllChaosData".
Proof. reflexivity. Qed.

Example Join_dest : Join "." "everything.txt" = "everything.txt".
Proof. reflexivity. Qed.

Example Join_climbs : Join "AllChaosData/acme" "../../escaped.txt" = "escaped.txt".
Proof. reflexivity. Qed.

Example Dir_nested : Dir "a/b/c.txt" = "a/b".
Proof. reflexivity. Qed.

Example Dir_plain : Dir "c.txt" = ".".
Proof. reflexivity. Qed.

Example basename_slashes : basename "a/b//" = "b".
Proof. reflexivity. Qed.

Example resolve_relative : resolve ["home"; "u"] "../x/./y" = ["home"; "x"; "y"].
Proof. reflexivity. Qed.

Example resolve_rooted : resolve ["home"; "u"] "/tmp/7.zip" = ["tmp"; "7.zip"].
Proof. reflexivity. Qed.

Example HasSuffix_txt :
  HasSuffix "a.txt" ".txt" = true ∧ HasSuffix "a.TXT" ".txt" = false
  ∧ HasSuffix "txt" ".txt" = false.
Proof. repeat split; reflexivity. Qed.

Example rawLines_text :
  rawLines ("a" +:+ LF +:+ LF +:+ "b") = ["a"; ""; "b"]
  ∧ rawLines ("a" +:+ LF) = ["a"] ∧ rawLines "" = [].
Proof. repeat split; reflexivity. Qed.

Example prefixAndSuffix_zip : prefixAndSuffix "*.zip" = ("", ".zip").
Proof. reflexivity. Qed.

Example modes :
  creation_mode 18 438 = 420 ∧ creation_mode 18 ModePerm = 493
  ∧ may_write 292 = false ∧ may_read 192 = false ∧ IsDir (Z.lor ModeDir 493) = true.
Proof. repeat split; reflexivity. Qed.

(** A whole run: all companies of the sample index, one of which cannot be
    downloaded. *)
Example main_all :
  let r := main (L:=Sample.lib) (mkFlags "" "" true false) Sample.w0 in
  fst r = Ok tt
  ∧ out (snd r)
    = [PrintDownloadingAll; PrintProcessing "Tesla"; PrintProcessing "Acme";
       LogFailedProcess "Acme" (Wrap "error downloading u/acme" (ErrNet "no such host"));
       PrintProcessing "Google"; PrintCompleted 2; PrintCreated "everything.txt"]
  ∧ findAllTxtFiles "AllChaosData" (snd r)
    = ["AllChaosData/Google/2.txt"; "AllChaosData/Tesla/sub/1.txt"]
  ∧ contentOf (snd r) "everything.txt" = Some ("Y" +:+ LF +:+ "X" +:+ LF)
  ∧ subdirs (snd r) "/tmp" = [] ∧ contentOf (snd r) "/tmp/7.zip" = None.
Proof. repeat split; vm_compute; reflexivity. Qed.

Example main_usage :
  main (L:=Sample.lib) (mkFlags "" "" false false) Sample.w0
  = (Ok tt, emit PrintUsage Sample.w0).
Proof. reflexivity. Qed.

(* ===================================================================== *)
(** * Directory entries                                                   *)
(* ===================================================================== *)

Lemma lookup_setEntry_eq c x es : lookupEntry c (setEntry c x es) = Some x.
Proof.
  induction es as [|[k v] rest IH]; simpl.
  - by rewrite String.eqb_refl.
  - destruct (String.compare c k) eqn:Hc; simpl.
    + by rewrite String.eqb_refl.
    + by rewrite String.eqb_refl.
    + destruct (String.eqb c k) eqn:He; [|done].
      apply String.eqb_eq in He. subst k.
      assert (String.compare c c = Eq) as Hr.
      { clear. induction c as [|a c IHc]; simpl; [done|].
        assert (Ascii.compare a a = Eq) as -> by (unfold Ascii.compare; apply N.compare_refl).
        done. }
      congruence.
Qed.

Lemma lookup_setEntry_ne c d x es :
  c ≠ d → lookupEntry d (setEntry c x es) = lookupEntry d es.
Proof.
  intros Hne. induction es as [|[k v] rest IH]; simpl.
  - destruct (String.eqb d c) eqn:He; [|done].
    apply String.eqb_eq in He. congruence.
  - destruct (String.compare c k) eqn:Hc; simpl.
    + apply String.compare_eq_iff in Hc. subst k.
      destruct (String.eqb d c) eqn:He; [|done].
      apply String.eqb_eq in He. congruence.
    + destruct (String.eqb d c) eqn:He; [|done].
      apply String.eqb_eq in He. congruence.
    + by rewrite IH.
Qed.

Lemma lookup_delEntry_eq c es : lookupEntry c (delEntry c es) = None.
Proof.
  induction es as [|[k v] rest IH]; simpl; [done|].
  destruct (String.eqb c k) eqn:He; simpl; [done|]. by rewrite He.
Qed.

Lemma lookup_delEntry_ne c d es :
  c ≠ d → lookupEntry d (delEntry c es) = lookupEntry d es.
Proof.
  intros Hne. induction es as [|[k v] rest IH]; simpl; [done|].
  destruct (String.eqb c k) eqn:He; simpl.
  - apply String.eqb_eq in He. subst k.
    destruct (String.eqb d c) eqn:He'; [|done].
    apply String.eqb_eq in He'. congruence.
  - by rewrite IH.
Qed.

(** What [upd] leaves in a directory under a name other than the one it
    changes. *)
Lemma lookup_updated_ne c d (o : option node) es :
  c ≠ d →
  lookupEntry d (match o with Some x => setEntry c x es | None => delEntry c es end)
  = lookupEntry d es.
Proof.
  intros. destruct o; [by apply lookup_setEntry_ne | by apply lookup_delEntry_ne].
Qed.

(* ===================================================================== *)
(** * Lookup after a change of the tree                                   *)
(* ===================================================================== *)

Lemma same_attr_refl x : same_attr x x.
Proof. by destruct x. Qed.

Lemma same_attr_trans x y z : same_attr x y → same_attr y z → same_attr x z.
Proof. destruct x, y, z; simpl; intros; by subst. Qed.

Lemma keeps_refl n : keeps n n.
Proof. intros q x H. exists x. split; [done | apply same_attr_refl]. Qed.

Lemma keeps_trans n1 n2 n3 : keeps n1 n2 → keeps n2 n3 → keeps n1 n3.
Proof.
  intros H12 H23 q x Hq.
  destruct (H12 q x Hq) as (y & Hy & Hxy).
  destruct (H23 q y Hy) as (z & Hz & Hyz).
  exists z. split; [done | by eapply same_attr_trans].
Qed.

Lemma mild_created x : mild (created x).
Proof. split; intros; simpl; eauto. Qed.

Lemma mild_truncated : mild truncated.
Proof. split; intros; simpl; eauto. Qed.

Lemma mild_appended data : mild (appended data).
Proof. split; intros; simpl; eauto. Qed.

Lemma find_file_nil m d q x : find (NFile m d) q = Ok x → q = [] ∧ x = NFile m d.
Proof. destruct q; simpl; intros H; by inversion H. Qed.

Lemma upd_nil f n :
  upd [] f n = match f (Some n) with Some x => x | None => n end.
Proof. by destruct n. Qed.

Lemma upd_nil_mild f n y : f (Some n) = Some y → upd [] f n = y.
Proof. intros H. by rewrite upd_nil, H. Qed.

Lemma upd_file c p f m d : upd (c :: p) f (NFile m d) = NFile m d.
Proof. by destruct p. Qed.

Lemma upd_last c f m es :
  upd [c] f (NDir m es)
  = NDir m (match f (lookupEntry c es) with
            | Some x => setEntry c x es
            | None => delEntry c es
            end).
Proof. done. Qed.

Lemma upd_cons c c2 p f m es :
  upd (c :: c2 :: p) f (NDir m es)
  = match lookupEntry c es with
    | Some ch => NDir m (setEntry c (upd (c2 :: p) f ch) es)
    | None => NDir m es
    end.
Proof. done. Qed.

Lemma find_cons m es c q :
  find (NDir m es) (c :: q)
  = if may_exec m then
      match lookupEntry c es with
      | Some ch => find ch q
      | None => Err ENOENT
      end
    else Err EACCES.
Proof. done. Qed.

(** A mild change keeps every node of the tree. *)
Lemma upd_keeps f p n : mild f → keeps n (upd p f n).
Proof.
  intros Hf. revert n. induction p as [|c p' IH]; intros n.
  - destruct n as [m d|m es].
    + destruct Hf as [_ Hfile]. destruct (Hfile m d) as [d' Hd'].
      rewrite (upd_nil_mild _ _ _ Hd'). intros q x Hq.
      apply find_file_nil in Hq as [-> ->]. by eexists.
    + destruct Hf as [Hdir _]. rewrite (upd_nil_mild _ _ _ (Hdir m es)).
      apply keeps_refl.
  - destruct n as [m d|m es]; [rewrite upd_file; apply keeps_refl|].
    intros q x Hq. destruct q as [|d q'].
    + simpl in Hq. inversion Hq; subst x.
      destruct p' as [|c2 p''].
      * rewrite upd_last. by eexists.
      * rewrite upd_cons. destruct (lookupEntry c es); by eexists.
    + rewrite find_cons in Hq. destruct (may_exec m) eqn:Hx; [|done].
      destruct (lookupEntry d es) as [ch|] eqn:Hd; [|done].
      destruct (decide (c = d)) as [->|Hne].
      * destruct p' as [|c2 p''].
        -- rewrite upd_last, Hd.
           destruct ch as [m0 d0|m0 es0].
           ++ apply find_file_nil in Hq as [-> ->].
              destruct Hf as [_ Hfile]. destruct (Hfile m0 d0) as [d' ->].
              rewrite find_cons, Hx, lookup_setEntry_eq. by eexists.
           ++ destruct Hf as [Hdir _]. rewrite Hdir.
              rewrite find_cons, Hx, lookup_setEntry_eq.
              exists x. split; [done | apply same_attr_refl].
        -- rewrite upd_cons, Hd, find_cons, Hx, lookup_setEntry_eq. by apply IH.
      * exists x. split; [|apply same_attr_refl].
        destruct p' as [|c2 p''].
        -- rewrite upd_last, find_cons, Hx, lookup_updated_ne by done. by rewrite Hd.
        -- rewrite upd_cons.
           destruct (lookupEntry c es); rewrite find_cons, Hx.
           ++ rewrite lookup_setEntry_ne by done. by rewrite Hd.
           ++ by rewrite Hd.
Qed.

(** A mild change elsewhere leaves a file as it is. *)
Lemma find_upd_file_frame f p n q m x :
  mild f → find n q = Ok (NFile m x) → q ≠ p →
  find (upd p f n) q = Ok (NFile m x).
Proof.
  intros Hf. revert n q. induction p as [|c p' IH]; intros n q Hq Hne.
  - destruct n as [m0 d0|m0 es].
    + apply find_file_nil in Hq as [-> _]. done.
    + destruct Hf as [Hdir _]. by rewrite (upd_nil_mild _ _ _ (Hdir m0 es)).
  - destruct n as [m0 d0|m0 es]; [by rewrite upd_file|].
    destruct q as [|d q']; [simpl in Hq; congruence|].
    rewrite find_cons in Hq. destruct (may_exec m0) eqn:Hx; [|done].
    destruct (lookupEntry d es) as [ch|] eqn:Hd; [|done].
    destruct (decide (c = d)) as [->|Hcd].
    + destruct p' as [|c2 p''].
      * rewrite upd_last, Hd.
        destruct ch as [m1 d1|m1 es1].
        -- apply find_file_nil in Hq as [-> _]. done.
        -- destruct Hf as [Hdir _]. rewrite Hdir.
           by rewrite find_cons, Hx, lookup_setEntry_eq.
      * rewrite upd_cons, Hd, find_cons, Hx, lookup_setEntry_eq.
        apply IH; [done|]. congruence.
    + destruct p' as [|c2 p''].
      * rewrite upd_last, find_cons, Hx, lookup_updated_ne by done. by rewrite Hd.
      * rewrite upd_cons. destruct (lookupEntry c es); rewrite find_cons, Hx.
        -- rewrite lookup_setEntry_ne by done. by rewrite Hd.
        -- by rewrite Hd.
Qed.

(** What a change makes of the entry it applies to. *)
Lemma find_upd_same f p n x y :
  find n p = Ok x → f (Some x) = Some y →
  find (upd p f n) p = Ok y.
Proof.
  revert n. induction p as [|c p' IH]; intros n Hp Hfx.
  { simpl in Hp. inversion Hp; subst x. by rewrite (upd_nil_mild _ _ _ Hfx). }
  destruct n as [m0 d0|m0 es]; [done|].
  rewrite find_cons in Hp. destruct (may_exec m0) eqn:Hx; [|done].
  destruct (lookupEntry c es) as [ch|] eqn:Hc; [|done].
  destruct p' as [|c2 p''].
  - simpl in Hp. inversion Hp; subst ch.
    by rewrite upd_last, Hc, Hfx, find_cons, Hx, lookup_setEntry_eq.
  - rewrite upd_cons, Hc, find_cons, Hx, lookup_setEntry_eq. by apply IH.
Qed.

Lemma parentOf_cons c c2 p : parentOf (c :: c2 :: p) = c :: parentOf (c2 :: p).
Proof. done. Qed.

(** A name that is missing in an existing, searchable directory. *)
Lemma find_upd_created p n x m es :
  find n p = Err ENOENT → find n (parentOf p) = Ok (NDir m es) →
  find (upd p (created x) n) p = Ok x.
Proof.
  revert n. induction p as [|c p' IH]; intros n Hp Hpar; [done|].
  destruct n as [m0 d0|m0 es0]; [done|].
  rewrite find_cons in Hp. destruct (may_exec m0) eqn:Hx; [|done].
  destruct p' as [|c2 p''].
  - destruct (lookupEntry c es0) as [ch|] eqn:Hc; [done|].
    rewrite upd_last, Hc. unfold created.
    by rewrite find_cons, Hx, lookup_setEntry_eq.
  - rewrite parentOf_cons, find_cons, Hx in Hpar.
    destruct (lookupEntry c es0) as [ch|] eqn:Hc; [|done].
    rewrite upd_cons, Hc, find_cons, Hx, lookup_setEntry_eq. by apply IH.
Qed.

(** Unlinking a name. *)
Lemma find_upd_removed p n x :
  find n p = Ok x → p ≠ [] → find (upd p (λ _, None) n) p = Err ENOENT.
Proof.
  revert n. induction p as [|c p' IH]; intros n Hp Hne; [done|].
  destruct n as [m0 d0|m0 es]; [done|].
  rewrite find_cons in Hp. destruct (may_exec m0) eqn:Hx; [|done].
  destruct (lookupEntry c es) as [ch|] eqn:Hc; [|done].
  destruct p' as [|c2 p''].
  - by rewrite upd_last, find_cons, Hx, lookup_delEntry_eq.
  - rewrite upd_cons, Hc, find_cons, Hx, lookup_setEntry_eq. by apply IH.
Qed.

(** Unlinking a file keeps every other node. *)
Lemma find_upd_removed_other p n q x mp dp :
  find n p = Ok (NFile mp dp) → find n q = Ok x → q ≠ p →
  ∃ y, find (upd p (λ _, None) n) q = Ok y ∧ same_attr x y.
Proof.
  revert n q. induction p as [|c p' IH]; intros n q Hp Hq Hne.
  - rewrite upd_nil. exists x. split; [done | apply same_attr_refl].
  - destruct n as [m0 d0|m0 es]; [done|].
    rewrite find_cons in Hp. destruct (may_exec m0) eqn:Hx; [|done].
    destruct (lookupEntry c es) as [ch|] eqn:Hc; [|done].
    destruct q as [|d q'].
    + simpl in Hq. inversion Hq; subst x.
      destruct p' as [|c2 p'']; [rewrite upd_last | rewrite upd_cons, Hc]; by eexists.
    + rewrite find_cons, Hx in Hq.
      destruct (lookupEntry d es) as [chq|] eqn:Hd; [|done].
      destruct (decide (c = d)) as [->|Hcd].
      * assert (chq = ch) as -> by congruence.
        destruct p' as [|c2 p''].
        -- simpl in Hp. inversion Hp; subst ch.
           apply find_file_nil in Hq as [-> _]. done.
        -- rewrite upd_cons, Hc, find_cons, Hx, lookup_setEntry_eq.
           apply IH; [done|done|congruence].
      * exists x. split; [|apply same_attr_refl].
        destruct p' as [|c2 p''].
        -- by rewrite upd_last, find_cons, Hx, lookup_delEntry_ne, Hd.
        -- by rewrite upd_cons, Hc, find_cons, Hx, lookup_setEntry_ne, Hd.
Qed.

(* ===================================================================== *)
(** * System calls that only add to the tree                              *)
(* ===================================================================== *)

Lemma mkdir_node_keeps u perm p n n' :
  mkdir_node u perm p n = Ok n' → keeps n n'.
Proof.
  unfold mkdir_node. intros H.
  destruct (find n p) as [?|[]]; try done.
  destruct (find n (parentOf p)) as [[?|m es]|]; try done.
  destruct (may_write m); [|done].
  inversion H. apply upd_keeps, mild_created.
Qed.

Lemma mkdirAll_node_keeps u perm rp n n' :
  mkdirAll_node u perm rp n = Ok n' → keeps n n'.
Proof.
  revert n'. induction rp as [|c rparent IH]; intros n' H; simpl in H.
  - destruct n; inversion H; apply keeps_refl.
  - destruct (find n (rev rparent ++ [c])) as [[?|? ?]|e0] eqn:Hf.
    + done.
    + inversion H. apply keeps_refl.
    + destruct (mkdirAll_node u perm rparent n) as [n1|] eqn:H1; [|done].
      specialize (IH n1 eq_refl).
      destruct (mkdir_node u perm (rev rparent ++ [c]) n1) as [n2|] eqn:H2.
      * inversion H; subst n2. eapply keeps_trans; [done|]. by eapply mkdir_node_keeps.
      * destruct (find n1 (rev rparent ++ [c])) as [[?|? ?]|]; try done.
        inversion H; by subst.
Qed.

(** After a successful MkdirAll the path is a directory. *)
Lemma mkdir_node_dir u perm p n n' :
  mkdir_node u perm p n = Ok n' →
  find n' p = Ok (NDir (creation_mode u perm) []).
Proof.
  unfold mkdir_node. intros H.
  destruct (find n p) as [?|[]] eqn:Hp; try done.
  destruct (find n (parentOf p)) as [[?|m es]|] eqn:Hpar; try done.
  destruct (may_write m); [|done].
  inversion H. by eapply find_upd_created.
Qed.

Lemma mkdirAll_node_dir u perm rp n n' :
  mkdirAll_node u perm rp n = Ok n' → ∃ m es, find n' (rev rp) = Ok (NDir m es).
Proof.
  destruct rp as [|c rparent]; intros H; simpl in H.
  - destruct n; inversion H; subst. by eexists _, _.
  - destruct (find n (rev rparent ++ [c])) as [[?|? ?]|e0] eqn:Hf.
    + done.
    + inversion H; subst. simpl. rewrite Hf. by eexists _, _.
    + destruct (mkdirAll_node u perm rparent n) as [n1|] eqn:H1; [|done].
      destruct (mkdir_node u perm (rev rparent ++ [c]) n1) as [n2|] eqn:H2.
      * inversion H; subst n2. simpl. erewrite mkdir_node_dir by done. by eexists _, _.
      * destruct (find n1 (rev rparent ++ [c])) as [[?|? ?]|] eqn:Hf1; try done.
        inversion H; subst. simpl. rewrite Hf1. by eexists _, _.
Qed.

Lemma openFile_node_keeps u flag perm p n n' :
  openFile_node u flag perm p n = Ok n' → keeps n n'.
Proof.
  unfold openFile_node. intros H.
  destruct (find n p) as [[fm ?|dm ?]|[]]; try done.
  - destruct (hasFlag flag O_CREATE && hasFlag flag O_EXCL); [done|].
    destruct (implb _ _ && implb _ _); [|done].
    inversion H. destruct (hasFlag flag O_TRUNC);
      [apply upd_keeps, mild_truncated | apply keeps_refl].
  - destruct (hasFlag flag O_CREATE && hasFlag flag O_EXCL); [done|].
    destruct (wants_write flag); [done|].
    destruct (may_read dm); inversion H. apply keeps_refl.
  - destruct (hasFlag flag O_CREATE); [|done].
    destruct (find n (parentOf p)) as [[?|m es]|]; try done.
    destruct (may_write m); inversion H. apply upd_keeps, mild_created.
Qed.

(* ===================================================================== *)
(** * Computations and the relations they respect                         *)
(* ===================================================================== *)

Section Respects.
Variable R : world → world → Prop.
Hypothesis R_refl : ∀ w, R w w.
Hypothesis R_trans : ∀ w1 w2 w3, R w1 w2 → R w2 w3 → R w1 w3.

Lemma respects_ret {A} (a : A) : respects R (ret a).
Proof. intros w. apply R_refl. Qed.

Lemma respects_lift {A} (r : world → result A) : respects R (lift r).
Proof. intros w. apply R_refl. Qed.

Lemma respects_bind {A B} (m : M A) (k : A → M B) :
  respects R m → (∀ a, respects R (k a)) → respects R (bind m k).
Proof.
  intros Hm Hk w. unfold bind. specialize (Hm w).
  destruct (m w) as [[a|e] w1]; simpl in *; [|done].
  eapply R_trans; [done | apply Hk].
Qed.

Lemma respects_orWrap {A} msg (m : M A) : respects R m → respects R (orWrap msg m).
Proof.
  intros Hm w. unfold orWrap. specialize (Hm w).
  by destruct (m w) as [[a|e] w1].
Qed.

Lemma respects_defer {A B} (cleanup : M B) (body : M A) :
  respects R body → respects R cleanup → respects R (defer cleanup body).
Proof.
  intros Hb Hc w. unfold defer. specialize (Hb w).
  destruct (body w) as [r w1]; simpl in *.
  eapply R_trans; [done | apply Hc].
Qed.

End Respects.

Lemma same_env_refl w : same_env w w.
Proof. by repeat split. Qed.

Lemma same_env_trans w1 w2 w3 : same_env w1 w2 → same_env w2 w3 → same_env w1 w3.
Proof.
  intros (?&?&?&?&?) (?&?&?&?&?). repeat split; congruence.
Qed.

Lemma stable_refl w : stable w w.
Proof. split; [apply same_env_refl | apply keeps_refl]. Qed.

Lemma stable_trans w1 w2 w3 : stable w1 w2 → stable w2 w3 → stable w1 w3.
Proof.
  intros [? ?] [? ?]. split; [by eapply same_env_trans | by eapply keeps_trans].
Qed.

Lemma same_out_refl w : same_out w w.
Proof. done. Qed.

Lemma same_out_trans w1 w2 w3 : same_out w1 w2 → same_out w2 w3 → same_out w1 w3.
Proof. unfold same_out. congruence. Qed.

Lemma on_fs_same_env path op : respects same_env (on_fs path op).
Proof.
  intros w. unfold on_fs.
  destruct (locate path w); [|apply same_env_refl].
  destruct (op a (fs w)); by repeat split.
Qed.

Lemma on_fs_same_out path op : respects same_out (on_fs path op).
Proof.
  intros w. unfold on_fs.
  destruct (locate path w); [|done]. by destruct (op a (fs w)).
Qed.

Lemma on_fs_stable path op :
  (∀ p n n', op p n = Ok n' → keeps n n') → respects stable (on_fs path op).
Proof.
  intros Hop w. unfold on_fs.
  destruct (locate path w) as [p|]; [|apply stable_refl].
  destruct (op p (fs w)) as [n'|] eqn:E; [|apply stable_refl].
  split; [by repeat split | by eapply Hop].
Qed.

Lemma os_MkdirAll_stable path perm : respects stable (os_MkdirAll path perm).
Proof.
  intros w. unfold os_MkdirAll. apply on_fs_stable.
  intros p n n'. apply mkdirAll_node_keeps.
Qed.

Lemma os_OpenFile_stable name flag perm : respects stable (os_OpenFile name flag perm).
Proof.
  intros w. unfold os_OpenFile.
  pose proof (on_fs_stable name (openFile_node (umask w) flag perm)
                (λ p n n', openFile_node_keeps _ _ _ p n n') w) as H.
  by destruct (on_fs name (openFile_node (umask w) flag perm) w) as [[?|?] ?].
Qed.

Lemma file_Write_stable f data : respects stable (file_Write f data).
Proof.
  intros w. split; [by repeat split|]. apply upd_keeps, mild_appended.
Qed.

Lemma io_Copy_stable dst src : respects stable (io_Copy dst src).
Proof.
  intros w. unfold io_Copy.
  pose proof (file_Write_stable dst (s_data src) w) as H.
  destruct (file_Write dst (s_data src) w) as [r w1]. by destruct (s_err src).
Qed.

Lemma nextRandom_stable w : stable w (snd (nextRandom w)).
Proof. split; [by repeat split | apply keeps_refl]. Qed.

Lemma createTemp_loop_stable tries prefix suffix :
  respects stable (createTemp_loop tries prefix suffix).
Proof.
  induction tries as [|tries IH]; intros w; simpl.
  - pose proof (os_OpenFile_stable
      (prefix +:+ NilZero.string_of_uint (Nat.to_uint (rng w)) +:+ suffix)
      (Z.lor O_RDWR (Z.lor O_CREATE O_EXCL)) 384 (set_rng (S (rng w)) w)) as H.
    destruct (os_OpenFile _ _ _ _) as [[?|[]] w2]; simpl in *;
      (eapply stable_trans; [apply (nextRandom_stable w) | exact H]).
  - pose proof (os_OpenFile_stable
      (prefix +:+ NilZero.string_of_uint (Nat.to_uint (rng w)) +:+ suffix)
      (Z.lor O_RDWR (Z.lor O_CREATE O_EXCL)) 384 (set_rng (S (rng w)) w)) as H.
    destruct (os_OpenFile _ _ _ _) as [[?|[]] w2]; simpl in *;
      try (eapply stable_trans; [apply (nextRandom_stable w) | exact H]).
    eapply stable_trans; [apply (nextRandom_stable w)|].
    eapply stable_trans; [exact H | apply IH].
Qed.

Lemma os_CreateTemp_stable dir pattern : respects stable (os_CreateTemp dir pattern).
Proof.
  intros w. unfold os_CreateTemp. destruct (prefixAndSuffix pattern).
  apply createTemp_loop_stable.
Qed.

Lemma stable_ret {A} (a : A) : respects stable (ret a).
Proof. apply respects_ret, stable_refl. Qed.

Lemma stable_lift {A} (r : world → result A) : respects stable (lift r).
Proof. apply respects_lift, stable_refl. Qed.

Lemma stable_bind {A B} (m : M A) (k : A → M B) :
  respects stable m → (∀ a, respects stable (k a)) → respects stable (bind m k).
Proof. apply respects_bind, stable_trans. Qed.

Lemma stable_orWrap {A} msg (m : M A) :
  respects stable m → respects stable (orWrap msg m).
Proof. apply respects_orWrap. Qed.

Lemma http_Get_stable url : respects stable (http_Get url).
Proof. apply stable_lift. Qed.

Create HintDb stable_db.
#[export] Hint Resolve stable_ret stable_lift stable_bind stable_orWrap
  os_MkdirAll_stable os_OpenFile_stable file_Write_stable io_Copy_stable
  os_CreateTemp_stable http_Get_stable : stable_db.

Section ProgramFacts.
Context {L : GoLib}.

Lemma zip_OpenReader_stable name : respects stable (zip_OpenReader name).
Proof.
  unfold zip_OpenReader, os_Open. apply stable_bind; [auto with stable_db|].
  intros f w. destruct (s_err _); apply stable_refl.
Qed.

Lemma unzipEntries_stable destDir files : respects stable (unzipEntries destDir files).
Proof.
  induction files as [|f rest IH]; simpl; [auto with stable_db|].
  destruct (IsDir (zf_Mode f)).
  - intros w. eapply stable_trans; [apply os_MkdirAll_stable | apply IH].
  - auto 10 with stable_db.
Qed.

Lemma unzipFile_stable zipFile destDir : respects stable (unzipFile zipFile destDir).
Proof.
  unfold unzipFile. apply stable_bind.
  - apply stable_orWrap, zip_OpenReader_stable.
  - intros. apply unzipEntries_stable.
Qed.

End ProgramFacts.

(* ===================================================================== *)
(** * The temporary file                                                  *)
(* ===================================================================== *)

#[local] Arguments upd : simpl never.
#[local] Arguments find : simpl never.
#[local] Arguments resolve : simpl never.

Lemma locate_ok path w p : locate path w = Ok p → path ≠ "" ∧ p = resolve (cwd w) path.
Proof.
  unfold locate. destruct (String.eqb path "") eqn:E; [done|].
  intros H. inversion H. split; [|done]. intros ->. done.
Qed.

Lemma locate_nonempty path w : path ≠ "" → locate path w = Ok (resolve (cwd w) path).
Proof.
  intros H. unfold locate. destruct (String.eqb path "") eqn:E; [|done].
  apply String.eqb_eq in E. done.
Qed.

Lemma removable_stable w w' name : stable w w' → removable w name → removable w' name.
Proof.
  intros [(Hcwd & _) Hk] (Hne & Hp & (m & d & Hf) & (pm & pes & Hpar & Hw)).
  split; [done|]. simpl. rewrite Hcwd. split; [done|]. split.
  - destruct (Hk _ _ Hf) as (y & Hy & Hattr). destruct y; [|done]. by eexists _, _.
  - destruct (Hk _ _ Hpar) as (y & Hy & Hattr). destruct y as [|pm' pes']; [done|].
    simpl in Hattr. subst pm'. by eexists _, _.
Qed.

(** A file opened with O_CREATE|O_EXCL is a new, empty file that can be
    removed again. *)
Lemma os_OpenFile_excl name perm w f w1 :
  os_OpenFile name (Z.lor O_RDWR (Z.lor O_CREATE O_EXCL)) perm w = (Ok f, w1) →
  f_Name f = name ∧ f_path f = resolve (cwd w1) name ∧ removable w1 name.
Proof.
  unfold os_OpenFile, on_fs. intros H.
  destruct (locate name w) as [p|] eqn:Hloc; [|done].
  apply locate_ok in Hloc as [Hne ->].
  destruct (openFile_node _ _ _ _ _) as [n'|] eqn:Hop; [|done].
  inversion H; subst f w1; clear H. unfold removable. simpl.
  change (cwd (set_fs n' w)) with (cwd w). repeat split; [done|..].
  - intros Hnil. rewrite Hnil in Hop. unfold openFile_node in Hop. simpl in Hop.
    destruct (fs w); done.
  - unfold openFile_node in Hop.
    destruct (find (fs w) _) as [[? ?|? ?]|[]] eqn:Hf; try done.
    change (hasFlag (Z.lor O_RDWR (Z.lor O_CREATE O_EXCL)) O_CREATE) with true in Hop.
    destruct (find (fs w) (parentOf _)) as [[?|m es]|] eqn:Hpar; try done.
    destruct (may_write m); inversion Hop. eexists _, _. by eapply find_upd_created.
  - unfold openFile_node in Hop.
    destruct (find (fs w) _) as [[? ?|? ?]|[]] eqn:Hf; try done.
    change (hasFlag (Z.lor O_RDWR (Z.lor O_CREATE O_EXCL)) O_CREATE) with true in Hop.
    destruct (find (fs w) (parentOf _)) as [[?|m es]|] eqn:Hpar; try done.
    destruct (may_write m) eqn:Hw; inversion Hop.
    destruct (upd_keeps (created (NFile (creation_mode (umask w) perm) ""))
                (resolve (cwd w) name) (fs w) (mild_created _) _ _ Hpar)
      as (y & Hy & Hattr).
    destruct y as [|m' es']; [done|]. simpl in Hattr. subst m'. by eexists _, _.
Qed.

Lemma createTemp_loop_ok tries prefix suffix w f w1 :
  createTemp_loop tries prefix suffix w = (Ok f, w1) →
  f_path f = resolve (cwd w1) (f_Name f) ∧ removable w1 (f_Name f).
Proof.
  revert w. induction tries as [|tries IH]; intros w; simpl.
  - destruct (os_OpenFile _ _ _ _) as [[f'|[]] w2] eqn:Hop; try done.
    intros H; inversion H; subst. apply os_OpenFile_excl in Hop as (-> & ? & ?). done.
  - destruct (os_OpenFile _ _ _ _) as [[f'|[]] w2] eqn:Hop; try done.
    + intros H; inversion H; subst. apply os_OpenFile_excl in Hop as (-> & ? & ?). done.
    + apply IH.
Qed.

Lemma os_CreateTemp_ok dir pattern w f w1 :
  os_CreateTemp dir pattern w = (Ok f, w1) →
  f_path f = resolve (cwd w1) (f_Name f) ∧ removable w1 (f_Name f).
Proof.
  unfold os_CreateTemp. destruct (prefixAndSuffix pattern). apply createTemp_loop_ok.
Qed.

(** os.Remove on a removable file: the name is gone. *)
Lemma os_Remove_removable name w :
  removable w name →
  ∃ w', os_Remove name w = (Ok tt, w') ∧ os_Lstat name w' = Err ENOENT
        ∧ same_env w w' ∧ out w' = out w.
Proof.
  intros (Hne & Hp & (m & d & Hf) & (pm & pes & Hpar & Hw)). simpl in *.
  unfold os_Remove, on_fs, os_Lstat. rewrite (locate_nonempty _ _ Hne).
  unfold remove_node. rewrite Hf, Hpar, Hw.
  destruct (resolve (cwd w) name) as [|c p'] eqn:Hres; [done|].
  eexists. split; [done|]. split; [|by repeat split].
  rewrite (locate_nonempty _ _ Hne). simpl. rewrite Hres.
  by eapply find_upd_removed.
Qed.

Section TempFile.
Context {L : GoLib}.

(** The part of downloadAndUnzip that runs between CreateTemp and the
    deferred Remove. *)
Lemma download_body_stable (tempFile : file) resp baseDir name :
  respects stable
    (let* _ := orWrap "error writing to temp file" (io_Copy tempFile resp) in
     let dirPath := Join baseDir name in
     let* _ := orWrap ("error creating directory " +:+ dirPath)
                 (os_MkdirAll dirPath ModePerm) in
     let* _ := orWrap "error unzipping file" (unzipFile (f_Name tempFile) dirPath) in
     ret tt).
Proof.
  apply stable_bind; [auto with stable_db|]. intros _.
  apply stable_bind; [auto with stable_db|]. intros _.
  apply stable_bind; [apply stable_orWrap, unzipFile_stable|]. intros _.
  apply stable_ret.
Qed.

(** C5. Whenever downloadAndUnzip has created its temporary file (http.Get
    and os.CreateTemp succeeded), that file exists right after its creation
    and no longer exists when downloadAndUnzip returns, whatever the result:
    success, a body that could not be copied, a directory that could not be
    made, or a failed extraction. *)
Theorem C5_temp_file_removed url name baseDir w resp tempFile w1 :
  net w url = Served resp →
  os_CreateTemp "" "*.zip" w = (Ok tempFile, w1) →
  (∃ m d, os_Lstat (f_Name tempFile) w1 = Ok (NFile m d))
  ∧ os_Lstat (f_Name tempFile) (snd (downloadAndUnzip url name baseDir w))
    = Err ENOENT.
Proof.
  intros Hnet Hct.
  destruct (os_CreateTemp_ok _ _ _ _ _ Hct) as [Hpath Hrem].
  split.
  - destruct Hrem as (Hne & _ & (m & d & Hf) & _).
    exists m, d. unfold os_Lstat. by rewrite (locate_nonempty _ _ Hne).
  - unfold downloadAndUnzip.
    unfold bind at 1. unfold orWrap at 1. unfold http_Get, lift. rewrite Hnet.
    unfold bind at 1. unfold orWrap at 1. rewrite Hct.
    unfold defer.
    pose proof (download_body_stable tempFile resp baseDir name w1) as Hst.
    simpl in Hst.
    destruct (bind _ _ w1) as [r w2] eqn:Hbody. simpl in Hst.
    pose proof (removable_stable _ _ _ Hst Hrem) as Hrem2.
    destruct (os_Remove_removable _ _ Hrem2) as (w' & Hr & Hgone & _).
    simpl. by rewrite Hr.
Qed.

End TempFile.

(* ===================================================================== *)
(** * System calls print nothing                                          *)
(* ===================================================================== *)

Lemma quiet_ret {A} (a : A) : respects same_out (ret a).
Proof. apply respects_ret, same_out_refl. Qed.

Lemma quiet_lift {A} (r : world → result A) : respects same_out (lift r).
Proof. apply respects_lift, same_out_refl. Qed.

Lemma quiet_bind {A B} (m : M A) (k : A → M B) :
  respects same_out m → (∀ a, respects same_out (k a)) → respects same_out (bind m k).
Proof. apply respects_bind, same_out_trans. Qed.

Lemma quiet_orWrap {A} msg (m : M A) :
  respects same_out m → respects same_out (orWrap msg m).
Proof. apply respects_orWrap. Qed.

Lemma quiet_defer {A B} (cleanup : M B) (body : M A) :
  respects same_out body → respects same_out cleanup →
  respects same_out (defer cleanup body).
Proof. apply respects_defer, same_out_trans. Qed.

Lemma os_MkdirAll_quiet path perm : respects same_out (os_MkdirAll path perm).
Proof. intros w. apply on_fs_same_out. Qed.

Lemma os_OpenFile_quiet name flag perm : respects same_out (os_OpenFile name flag perm).
Proof.
  intros w. unfold os_OpenFile.
  pose proof (on_fs_same_out name (openFile_node (umask w) flag perm) w) as H.
  by destruct (on_fs _ _ w) as [[?|?] ?].
Qed.

Lemma os_Remove_quiet name : respects same_out (os_Remove name).
Proof. apply on_fs_same_out. Qed.

Lemma file_Write_quiet f data : respects same_out (file_Write f data).
Proof. by intros w. Qed.

Lemma io_Copy_quiet dst src : respects same_out (io_Copy dst src).
Proof. intros w. unfold io_Copy. simpl. by destruct (s_err src). Qed.

Lemma createTemp_loop_quiet tries prefix suffix :
  respects same_out (createTemp_loop tries prefix suffix).
Proof.
  induction tries as [|tries IH]; intros w; simpl.
  - pose proof (os_OpenFile_quiet
      (prefix +:+ NilZero.string_of_uint (Nat.to_uint (rng w)) +:+ suffix)
      (Z.lor O_RDWR (Z.lor O_CREATE O_EXCL)) 384 (set_rng (S (rng w)) w)) as H.
    by destruct (os_OpenFile _ _ _ _) as [[?|[]] w2].
  - pose proof (os_OpenFile_quiet
      (prefix +:+ NilZero.string_of_uint (Nat.to_uint (rng w)) +:+ suffix)
      (Z.lor O_RDWR (Z.lor O_CREATE O_EXCL)) 384 (set_rng (S (rng w)) w)) as H.
    destruct (os_OpenFile _ _ _ _) as [[?|[]] w2]; try done.
    eapply same_out_trans; [exact H | apply IH].
Qed.

Lemma os_CreateTemp_quiet dir pattern : respects same_out (os_CreateTemp dir pattern).
Proof.
  intros w. unfold os_CreateTemp. destruct (prefixAndSuffix pattern).
  apply createTemp_loop_quiet.
Qed.

Lemma http_Get_quiet url : respects same_out (http_Get url).
Proof. apply quiet_lift. Qed.

Create HintDb quiet_db.
#[export] Hint Resolve quiet_ret quiet_lift quiet_bind quiet_orWrap quiet_defer
  os_MkdirAll_quiet os_OpenFile_quiet os_Remove_quiet file_Write_quiet io_Copy_quiet
  os_CreateTemp_quiet http_Get_quiet : quiet_db.

Section Quiet.
Context {L : GoLib}.

Lemma zip_OpenReader_quiet name : respects same_out (zip_OpenReader name).
Proof.
  unfold zip_OpenReader, os_Open. apply quiet_bind; [auto with quiet_db|].
  intros f w. by destruct (s_err _).
Qed.

Lemma unzipEntries_quiet destDir files : respects same_out (unzipEntries destDir files).
Proof.
  induction files as [|f rest IH]; simpl; [auto with quiet_db|].
  destruct (IsDir (zf_Mode f)).
  - intros w. eapply same_out_trans; [apply os_MkdirAll_quiet | apply IH].
  - auto 10 with quiet_db.
Qed.

Lemma unzipFile_quiet zipFile destDir : respects same_out (unzipFile zipFile destDir).
Proof.
  unfold unzipFile. apply quiet_bind.
  - apply quiet_orWrap, zip_OpenReader_quiet.
  - intros. apply unzipEntries_quiet.
Qed.

Lemma downloadAndUnzip_quiet url name baseDir :
  respects same_out (downloadAndUnzip url name baseDir).
Proof.
  unfold downloadAndUnzip.
  apply quiet_bind; [auto with quiet_db|]. intros resp.
  apply quiet_bind; [auto with quiet_db|]. intros tempFile.
  apply quiet_defer; [|auto with quiet_db].
  apply quiet_bind; [auto with quiet_db|]. intros _.
  apply quiet_bind; [auto with quiet_db|]. intros _.
  apply quiet_bind; [apply quiet_orWrap, unzipFile_quiet|]. intros _.
  apply quiet_ret.
Qed.

End Quiet.

(* ===================================================================== *)
(** * The loop over the index                                             *)
(* ===================================================================== *)

Lemma dirs_kept_refl w : dirs_kept w w.
Proof. split; [apply same_env_refl|]. intros q m es H. by exists es. Qed.

Lemma dirs_kept_trans w1 w2 w3 : dirs_kept w1 w2 → dirs_kept w2 w3 → dirs_kept w1 w3.
Proof.
  intros [E1 K1] [E2 K2]. split; [by eapply same_env_trans|].
  intros q m es H. destruct (K1 _ _ _ H) as [es' H']. by apply K2 in H'.
Qed.

Lemma stable_dirs_kept w w' : stable w w' → dirs_kept w w'.
Proof.
  intros [E K]. split; [done|]. intros q m es H.
  destruct (K _ _ H) as (y & Hy & Ha). destruct y as [|m' es']; [done|].
  simpl in Ha. subst m'. by exists es'.
Qed.

Lemma emit_dirs_kept e w : dirs_kept w (emit e w).
Proof. apply stable_dirs_kept. split; [by repeat split | apply keeps_refl]. Qed.

Lemma os_Remove_file_dirs_kept name w :
  removable w name → dirs_kept w (snd (os_Remove name w)).
Proof.
  intros (Hne & Hp & (m & d & Hf) & (pm & pes & Hpar & Hw)). simpl in *.
  unfold os_Remove, on_fs. rewrite (locate_nonempty _ _ Hne).
  unfold remove_node. rewrite Hf, Hpar, Hw.
  destruct (resolve (cwd w) name) as [|c p'] eqn:Hres; [done|].
  simpl. split; [by repeat split|]. intros q m' es' Hq. simpl.
  destruct (find_upd_removed_other (c :: p') (fs w) q _ m d Hf Hq) as (y & Hy & Ha).
  { intros ->. congruence. }
  destruct y as [|m'' es'']; [done|]. simpl in Ha. subst m''. by exists es''.
Qed.

Section IndexLoop.
Context {L : GoLib}.

Lemma downloadAndUnzip_dirs_kept url name baseDir :
  respects dirs_kept (downloadAndUnzip url name baseDir).
Proof.
  intros w. unfold downloadAndUnzip.
  unfold bind at 1. unfold orWrap at 1. unfold http_Get, lift.
  destruct (net w url) as [e|resp]; [apply dirs_kept_refl|].
  unfold bind at 1. unfold orWrap at 1.
  pose proof (os_CreateTemp_stable "" "*.zip" w) as Hst1.
  destruct (os_CreateTemp "" "*.zip" w) as [[tempFile|e] w1] eqn:Hct; simpl in Hst1.
  2:{ by apply stable_dirs_kept. }
  destruct (os_CreateTemp_ok _ _ _ _ _ Hct) as [Hpath Hrem].
  unfold defer.
  pose proof (download_body_stable tempFile resp baseDir name w1) as Hst. simpl in Hst.
  destruct (bind _ _ w1) as [r w2] eqn:Hbody. simpl in Hst.
  pose proof (removable_stable _ _ _ Hst Hrem) as Hrem2.
  simpl. eapply dirs_kept_trans; [by apply stable_dirs_kept|].
  eapply dirs_kept_trans; [by apply stable_dirs_kept|].
  by apply os_Remove_file_dirs_kept.
Qed.

(** A successful downloadAndUnzip leaves the directory of the entry. *)
Lemma downloadAndUnzip_ok_dir url name baseDir w w' :
  downloadAndUnzip url name baseDir w = (Ok tt, w') → is_dir w' (Join baseDir name).
Proof.
  unfold downloadAndUnzip.
  unfold bind at 1. unfold orWrap at 1. unfold http_Get, lift.
  destruct (net w url) as [e|resp]; [done|].
  unfold bind at 1. unfold orWrap at 1.
  destruct (os_CreateTemp "" "*.zip" w) as [[tempFile|e] w1] eqn:Hct; [|done].
  destruct (os_CreateTemp_ok _ _ _ _ _ Hct) as [Hpath Hrem].
  unfold defer.
  unfold bind at 1. unfold orWrap at 1.
  pose proof (io_Copy_stable tempFile resp w1) as Hst2.
  destruct (io_Copy tempFile resp w1) as [[[]|e] w2]; simpl in Hst2; [|by intros [=]].
  unfold bind at 1. unfold orWrap at 1.
  pose proof (os_MkdirAll_stable (Join baseDir name) ModePerm w2) as Hst3.
  destruct (os_MkdirAll (Join baseDir name) ModePerm w2) as [[[]|e] w3] eqn:Hmk;
    simpl in Hst3; [|by intros [=]].
  unfold bind at 1. unfold orWrap at 1.
  pose proof (unzipFile_stable (f_Name tempFile) (Join baseDir name) w3) as Hst4.
  destruct (unzipFile (f_Name tempFile) (Join baseDir name) w3) as [[[]|e] w4];
    simpl in Hst4; [|by intros [=]].
  unfold ret. intros [= <-].
  (* the directory after MkdirAll *)
  unfold os_MkdirAll, on_fs in Hmk.
  destruct (locate (Join baseDir name) w2) as [p|] eqn:Hloc; [|done].
  apply locate_ok in Hloc as [Hne ->].
  destruct (mkdirAll_node _ _ _ _) as [n3|] eqn:Hnode; [|done].
  inversion Hmk; subst w3; clear Hmk.
  apply mkdirAll_node_dir in Hnode as (m & es & Hdir). rewrite rev_involutive in Hdir.
  (* it survives the extraction and the removal of the temporary file *)
  assert (removable w4 (f_Name tempFile)) as Hrem4.
  { eapply removable_stable; [|exact Hrem].
    eapply stable_trans; [exact Hst2|]. eapply stable_trans; [exact Hst3|exact Hst4]. }
  destruct (stable_dirs_kept _ _ Hst4) as [E4 K4].
  destruct (K4 _ _ _ Hdir) as [es4 Hdir4].
  destruct (os_Remove_file_dirs_kept _ _ Hrem4) as [E5 K5].
  destruct (K5 _ _ _ Hdir4) as [es5 Hdir5].
  exists m, es5. unfold os_Lstat. rewrite (locate_nonempty _ _ Hne).
  destruct E5 as (-> & _). destruct E4 as (-> & _). done.
Qed.

End IndexLoop.

(** The notices among the lines of a run name the entries, in order; the log
    lines are as many as the entries that failed. *)
Lemma entryLines_notices es : ∀ outcomes,
  length outcomes = length es →
  processingNotices (concat (zip_with entryLines es outcomes)) = map e_Name es
  ∧ (succeeded outcomes
     + length (failedEntries (concat (zip_with entryLines es outcomes))) = length es)%nat.
Proof.
  unfold processingNotices, failedEntries, succeeded.
  induction es as [|e es IH]; intros [|o os] Hl; simpl in Hl; try done.
  destruct (IH os ltac:(lia)) as [IH1 IH2].
  cbn [zip_with concat]. rewrite !omap_app, IH1, length_app.
  destruct o as [err|]; simpl; (split; [done | lia]).
Qed.

Section IndexLoopFacts.
Context {L : GoLib}.
Variables (baseDir : string) (filterSet : option (gset string)).

Lemma processEntries_app es1 es2 c w :
  processEntries baseDir filterSet (es1 ++ es2) c w
  = processEntries baseDir filterSet es2
      (fst (processEntries baseDir filterSet es1 c w))
      (snd (processEntries baseDir filterSet es1 c w)).
Proof.
  revert c w. induction es1 as [|e es1 IH]; intros c w; simpl; [done|].
  destruct (selected filterSet e); [|apply IH].
  destruct (downloadAndUnzip _ _ _ _) as [[[]|err] w2]; apply IH.
Qed.

Lemma processEntries_dirs_kept es c w :
  dirs_kept w (snd (processEntries baseDir filterSet es c w)).
Proof.
  revert c w. induction es as [|e es IH]; intros c w; simpl; [apply dirs_kept_refl|].
  destruct (selected filterSet e); [|apply IH].
  pose proof (downloadAndUnzip_dirs_kept (e_URL e) (e_Name e) baseDir
                (emit (PrintProcessing (e_Name e)) w)) as Hd.
  destruct (downloadAndUnzip _ _ _ _) as [[[]|err] w2]; simpl in Hd.
  - eapply dirs_kept_trans; [apply emit_dirs_kept|].
    eapply dirs_kept_trans; [exact Hd | apply IH].
  - eapply dirs_kept_trans; [apply emit_dirs_kept|].
    eapply dirs_kept_trans; [exact Hd|].
    eapply dirs_kept_trans; [apply emit_dirs_kept | apply IH].
Qed.

(** What the loop prints and logs, and what it counts: for each selected
    entry in turn its notice and, if it failed, its log line; the count grows
    by the number of entries that did not fail. *)
Lemma processEntries_lines es c w :
  ∃ outcomes,
    length outcomes = length (List.filter (selected filterSet) es)
    ∧ out (snd (processEntries baseDir filterSet es c w))
      = out w ++ concat (zip_with entryLines (List.filter (selected filterSet) es) outcomes)
    ∧ fst (processEntries baseDir filterSet es c w) = (c + succeeded outcomes)%nat.
Proof.
  revert c w. induction es as [|e es IH]; intros c w; simpl.
  - exists []. split; [done|]. split; [by rewrite app_nil_r | unfold succeeded; simpl; lia].
  - destruct (selected filterSet e); [|apply IH].
    pose proof (downloadAndUnzip_quiet (e_URL e) (e_Name e) baseDir
                  (emit (PrintProcessing (e_Name e)) w)) as Hq.
    destruct (downloadAndUnzip _ _ _ _) as [[[]|err] w2]; unfold same_out in Hq;
      simpl in Hq.
    + destruct (IH (S c) w2) as (os & Hl & Ho & Hc).
      exists (None :: os). split; [simpl; by rewrite Hl|]. split.
      * rewrite Ho, Hq. simpl. by rewrite <- app_assoc.
      * rewrite Hc. unfold succeeded. simpl. lia.
    + destruct (IH c (emit (LogFailedProcess (e_Name e) err) w2)) as (os & Hl & Ho & Hc).
      exists (Some err :: os). split; [simpl; by rewrite Hl|]. split.
      * rewrite Ho. simpl. rewrite Hq. by rewrite <- !app_assoc.
      * rewrite Hc. unfold succeeded. simpl. lia.
Qed.

Lemma succeeded_le outcomes : (succeeded outcomes ≤ length outcomes)%nat.
Proof.
  unfold succeeded. induction outcomes as [|[e|] os IH]; simpl; lia.
Qed.

Lemma processEntries_count_le es c w :
  (fst (processEntries baseDir filterSet es c w)
   ≤ c + length (List.filter (selected filterSet) es))%nat.
Proof.
  destruct (processEntries_lines es c w) as (os & Hl & _ & ->).
  pose proof (succeeded_le os). lia.
Qed.

(** When no entry failed, every selected entry has its directory. *)
Lemma processEntries_all_ok es c w :
  fst (processEntries baseDir filterSet es c w)
  = (c + length (List.filter (selected filterSet) es))%nat →
  ∀ e, e ∈ es → selected filterSet e = true →
       is_dir (snd (processEntries baseDir filterSet es c w)) (Join baseDir (e_Name e)).
Proof.
  revert c w. induction es as [|e0 es IH]; intros c w Hall e Hin Hsel.
  { by apply elem_of_nil in Hin. }
  simpl in Hall |- *.
  destruct (selected filterSet e0) eqn:Hs0.
  - destruct (downloadAndUnzip _ _ _ _) as [[[]|err] w2] eqn:Hd.
    + simpl in Hall.
      apply elem_of_cons in Hin as [->|Hin].
      * apply downloadAndUnzip_ok_dir in Hd as (m & es' & Hdir).
        destruct (processEntries_dirs_kept es (S c) w2) as [(Hcwd & _) K].
        unfold os_Lstat in Hdir.
        destruct (locate _ w2) as [p|] eqn:Hloc; [|done].
        apply locate_ok in Hloc as [Hne ->].
        destruct (K _ _ _ Hdir) as [es'' Hdir'].
        exists m, es''. unfold os_Lstat. rewrite (locate_nonempty _ _ Hne).
        by rewrite Hcwd.
      * apply IH; [simpl in Hall; lia | done | done].
    + exfalso. simpl in Hall.
      pose proof (processEntries_count_le es c
                    (emit (LogFailedProcess (e_Name e0) err) w2)). lia.
  - apply elem_of_cons in Hin as [->|Hin]; [congruence|].
    by apply IH.
Qed.

End IndexLoopFacts.

(* ===================================================================== *)
(** * The Concatenator                                                    *)
(* ===================================================================== *)

Lemma append_assoc (a b c : string) : (a +:+ b) +:+ c = a +:+ (b +:+ c).
Proof.
  induction a as [|x a IH]; [done|].
  change (String x ((a +:+ b) +:+ c) = String x (a +:+ (b +:+ c))). by rewrite IH.
Qed.

Lemma append_nil_r (s : string) : s +:+ "" = s.
Proof.
  induction s as [|x s IH]; [done|].
  change (String x (s +:+ "") = String x s). by rewrite IH.
Qed.

Lemma set_fs_id w : set_fs (fs w) w = w.
Proof. by destruct w. Qed.

(** Opening a regular file for reading. *)
Lemma os_Open_file name w m data :
  name ≠ "" → find (fs w) (resolve (cwd w) name) = Ok (NFile m data) →
  os_Open name w
  = (if may_read m then Ok (mkFile name (resolve (cwd w) name)) else Err EACCES, w).
Proof.
  intros Hne Hf. unfold os_Open, os_OpenFile, on_fs.
  rewrite (locate_nonempty _ _ Hne). unfold openFile_node. rewrite Hf.
  change (hasFlag O_RDONLY O_CREATE) with false.
  change (wants_read O_RDONLY) with true.
  change (wants_write O_RDONLY) with false.
  change (hasFlag O_RDONLY O_TRUNC) with false.
  simpl. destruct (may_read m); simpl; [by rewrite set_fs_id | done].
Qed.

Lemma source_of_frame w w' dest file f :
  mild f → cwd w' = cwd w → fs w' = upd dest f (fs w) →
  source_of w dest file → source_of w' dest file.
Proof.
  intros Hf Hcwd Hfs (Hne & Hneq & m & data & Hfile).
  split; [done|]. rewrite Hcwd, Hfs. split; [done|].
  exists m, data. by apply find_upd_file_frame.
Qed.

Lemma piece_frame w w' dest file f :
  mild f → cwd w' = cwd w → io_fault w' = io_fault w → fs w' = upd dest f (fs w) →
  source_of w dest file →
  piece w' file = piece w file ∧ ∀ dp, pieceLog w' dp file = pieceLog w dp file.
Proof.
  intros Hf Hcwd Hio Hfs (Hne & Hneq & m & data & Hfile).
  unfold piece, pieceLog. rewrite Hcwd, Hio, Hfs.
  rewrite (find_upd_file_frame f dest (fs w) _ m data Hf Hfile Hneq).
  by rewrite Hfile.
Qed.

Section Concat.
Context {L : GoLib}.

(** The loop of the Concatenator: to the combined file it adds, for each
    source file in turn, that file's [piece], and it logs that file's
    [pieceLog]. *)
Lemma concatFiles_spec dest destPath files : ∀ w md D0,
  find (fs w) (f_path dest) = Ok (NFile md D0) →
  Forall (source_of w (f_path dest)) files →
  let w' := concatFiles dest destPath files w in
  find (fs w') (f_path dest) = Ok (NFile md (D0 +:+ concatAll (map (piece w) files)))
  ∧ out w' = out w ++ concat (map (pieceLog w destPath) files)
  ∧ same_env w w'.
Proof.
  induction files as [|file rest IH]; intros w md D0 Hd Hsrc; simpl.
  { split; [|split; [by rewrite app_nil_r | apply same_env_refl]].
    change (concatAll (map (piece w) [])) with "". by rewrite append_nil_r. }
  apply Forall_cons in Hsrc as [Hfile Hrest].
  pose proof Hfile as (Hne & Hneq & m & data & Hf).
  rewrite (os_Open_file _ _ _ _ Hne Hf).
  unfold piece at 1, pieceLog at 1. rewrite Hf.
  destruct (may_read m) eqn:Hr.
  - (* the file opens *)
    unfold io_Copy, file_Reader, read_node. simpl. rewrite Hf.
    destruct (io_fault w (resolve (cwd w) file)) as [k|] eqn:Hio; simpl.
    + (* a reading fault: the bytes read so far are in the combined file *)
      set (f := appended (String.substring 0 k data)).
      set (w2 := emit _ _).
      assert (find (fs w2) (f_path dest)
              = Ok (NFile md (D0 +:+ String.substring 0 k data))) as Hd2.
      { simpl. eapply find_upd_same; [exact Hd | done]. }
      assert (Forall (source_of w2 (f_path dest)) rest) as Hrest2.
      { eapply Forall_impl; [exact Hrest|]. intros x Hx.
        by eapply (source_of_frame w w2 _ _ f (mild_appended _)). }
      destruct (IH w2 _ _ Hd2 Hrest2) as (Hc & Ho & He).
      assert (∀ x, x ∈ rest → piece w2 x = piece w x
                              ∧ pieceLog w2 destPath x = pieceLog w destPath x) as Hpc.
      { intros x Hx. rewrite Forall_forall in Hrest.
        destruct (piece_frame w w2 (f_path dest) x f (mild_appended _)
                    eq_refl eq_refl eq_refl (Hrest x Hx)) as [? ?]. done. }
      assert (map (piece w2) rest = map (piece w) rest) as Hm1.
      { apply map_ext_in. intros x Hx. apply Hpc. by apply list_elem_of_In. }
      assert (map (pieceLog w2 destPath) rest = map (pieceLog w destPath) rest) as Hm2.
      { apply map_ext_in. intros x Hx. apply Hpc. by apply list_elem_of_In. }
      split; [|split].
      * by rewrite Hc, Hm1, append_assoc.
      * rewrite Ho, Hm2. simpl. by rewrite <- app_assoc.
      * eapply same_env_trans; [|exact He]. by repeat split.
    + (* the whole file, then the newline *)
      set (w2 := set_fs _ _).
      assert (find (fs w2) (f_path dest) = Ok (NFile md (D0 +:+ (data +:+ LF)))) as Hd2.
      { simpl. rewrite <- append_assoc.
        eapply find_upd_same.
        - eapply find_upd_same; [exact Hd | done].
        - done. }
      assert (Forall (source_of w2 (f_path dest)) rest) as Hrest2.
      { eapply Forall_impl; [exact Hrest|]. intros x Hx.
        eapply (source_of_frame (set_fs (upd (f_path dest) (appended data) (fs w)) w) w2
                  _ _ (appended LF) (mild_appended _)); [done|done|].
        by eapply (source_of_frame w _ _ _ (appended data) (mild_appended _)). }
      destruct (IH w2 _ _ Hd2 Hrest2) as (Hc & Ho & He).
      assert (∀ x, x ∈ rest → piece w2 x = piece w x
                              ∧ pieceLog w2 destPath x = pieceLog w destPath x) as Hpc.
      { intros x Hx. rewrite Forall_forall in Hrest.
        pose proof (Hrest x Hx) as Hsx.
        set (w1 := set_fs (upd (f_path dest) (appended data) (fs w)) w).
        assert (source_of w1 (f_path dest) x) as Hsx1
          by (by eapply (source_of_frame w w1 _ _ (appended data) (mild_appended _))).
        destruct (piece_frame w w1 (f_path dest) x _ (mild_appended data)
                    eq_refl eq_refl eq_refl Hsx) as [E1 E1'].
        destruct (piece_frame w1 w2 (f_path dest) x _ (mild_appended LF)
                    eq_refl eq_refl eq_refl Hsx1) as [E2 E2'].
        split; [congruence | by rewrite E2', E1']. }
      assert (map (piece w2) rest = map (piece w) rest) as Hm1.
      { apply map_ext_in. intros x Hx. apply Hpc. by apply list_elem_of_In. }
      assert (map (pieceLog w2 destPath) rest = map (pieceLog w destPath) rest) as Hm2.
      { apply map_ext_in. intros x Hx. apply Hpc. by apply list_elem_of_In. }
      split; [|split].
      * by rewrite Hc, Hm1, append_assoc.
      * by rewrite Ho, Hm2.
      * eapply same_env_trans; [|exact He]. by repeat split.
  - (* the file cannot be opened: nothing is added *)
    set (w2 := emit _ _).
    assert (find (fs w2) (f_path dest) = Ok (NFile md D0)) as Hd2 by done.
    assert (Forall (source_of w2 (f_path dest)) rest) as Hrest2 by done.
    destruct (IH w2 _ _ Hd2 Hrest2) as (Hc & Ho & He).
    split; [|split].
    + by rewrite Hc.
    + rewrite Ho. simpl. by rewrite <- app_assoc.
    + eapply same_env_trans; [|exact He]. by repeat split.
Qed.

End Concat.

(* ===================================================================== *)
(** * The Selector                                                        *)
(* ===================================================================== *)

Section Selector.
Context {L : GoLib}.

(** The loop that fills the map, against the set of the specification. *)
Lemma selection_loop (pieces : list string) (acc : gset string) :
  foldl (λ companies name,
           let trimmed := TrimSpace name in
           if negb (String.eqb trimmed "")
           then {[ ToLower trimmed ]} ∪ companies
           else companies) acc pieces
  = list_to_set (spec_tokens pieces) ∪ acc.
Proof.
  revert acc. induction pieces as [|x l IH]; intros acc.
  - unfold spec_tokens. simpl. set_solver.
  - simpl. rewrite IH. unfold spec_tokens. simpl.
    destruct (negb (String.eqb (TrimSpace x) "")); simpl; set_solver.
Qed.

Lemma parseCompanyNames_spec input :
  parseCompanyNames input = spec_selection_of_string input.
Proof.
  unfold parseCompanyNames, spec_selection_of_string.
  rewrite selection_loop. set_solver.
Qed.

Lemma scanTokens_ok raw final ts :
  scanTokens raw final = (ts, None) → ts = map dropCR raw ∧ final = None.
Proof.
  revert ts. induction raw as [|l rest IH]; intros ts; simpl.
  - intros [= <- ->]. done.
  - destruct (MaxScanTokenSize <=? Z.of_nat (String.length l)); [done|].
    destruct (scanTokens rest final) as [ts' e]. intros [= <- ->].
    destruct (IH ts' eq_refl) as [-> ->]. done.
Qed.

(** Short lines are all delivered. *)
Lemma scanTokens_short raw final :
  Forall (λ l, Z.of_nat (String.length l) < MaxScanTokenSize) raw →
  scanTokens raw final = (map dropCR raw, final).
Proof.
  induction 1 as [|l rest Hl _ IH]; simpl; [done|].
  destruct (Z.leb_spec MaxScanTokenSize (Z.of_nat (String.length l))); [lia|].
  by rewrite IH.
Qed.


(** A line of 65536 bytes stops the Scanner: readCompanyList reports
    bufio.ErrTooLong, which main treats as fatal. *)
Lemma scanTokens_long l rest final :
  MaxScanTokenSize ≤ Z.of_nat (String.length l) →
  scanTokens (l :: rest) final = ([], Some ErrTooLong).
Proof.
  intros H. simpl.
  by destruct (Z.leb_spec MaxScanTokenSize (Z.of_nat (String.length l))); [|lia].
Qed.

End Selector.

Section ConcatFacts.
Context {L : GoLib}.

(** os.Create: afterwards the name denotes an empty regular file, and every
    other regular file is as before. *)
Lemma os_Create_ok name w f w1 :
  os_Create name w = (Ok f, w1) →
  name ≠ "" ∧ f_path f = resolve (cwd w) name ∧ same_env w w1 ∧ out w1 = out w
  ∧ (∃ m, find (fs w1) (f_path f) = Ok (NFile m ""))
  ∧ ∃ g, mild g ∧ fs w1 = upd (f_path f) g (fs w).
Proof.
  unfold os_Create, os_OpenFile, on_fs. intros H.
  destruct (locate name w) as [p|] eqn:Hloc; [|done].
  apply locate_ok in Hloc as [Hne ->].
  destruct (openFile_node _ _ _ _ _) as [n'|] eqn:Hop; [|done].
  inversion H; subst f w1; clear H. simpl.
  split; [done|]. split; [done|]. split; [by repeat split|]. split; [done|].
  unfold openFile_node in Hop.
  change (hasFlag (Z.lor O_RDWR (Z.lor O_CREATE O_TRUNC)) O_CREATE) with true in Hop.
  change (hasFlag (Z.lor O_RDWR (Z.lor O_CREATE O_TRUNC)) O_EXCL) with false in Hop.
  change (hasFlag (Z.lor O_RDWR (Z.lor O_CREATE O_TRUNC)) O_TRUNC) with true in Hop.
  change (wants_write (Z.lor O_RDWR (Z.lor O_CREATE O_TRUNC))) with true in Hop.
  simpl in Hop.
  destruct (find (fs w) _) as [[fm d|dm es]|[]] eqn:Hf; try done.
  - destruct (may_read fm && may_write fm); inversion Hop. split.
    + exists fm. by eapply find_upd_same.
    + exists truncated. split; [apply mild_truncated | done].
  - destruct (find (fs w) (parentOf _)) as [[?|pm pes]|] eqn:Hpar; try done.
    destruct (may_write pm); inversion Hop. split.
    + eexists. by eapply find_upd_created.
    + eexists. split; [apply mild_created | done].
Qed.

(** The Concatenator as a whole, when the combined file can be created and
    the files found are regular files other than the combined file. *)
Lemma concatenate_spec baseDir outputDir w w' :
  let destPath := Join outputDir "everything.txt" in
  let files := findAllTxtFiles baseDir w in
  Forall (source_of w (resolve (cwd w) destPath)) files →
  concatenateAllTxtFiles baseDir outputDir w = (Ok tt, w') →
  contentOf w' destPath = Some (concatAll (map (piece w) files))
  ∧ out w' = out w ++ concat (map (pieceLog w destPath) files) ++ [PrintCreated destPath].
Proof.
  intros destPath files Hsrc. unfold concatenateAllTxtFiles.
  fold destPath. fold files. unfold bind, orWrap.
  destruct (os_Create destPath w) as [[dest|e] w1] eqn:Hcr; [|done].
  intros [= <-].
  destruct (os_Create_ok _ _ _ _ Hcr)
    as (Hne & Hpath & Henv & Hout & (m & Hd) & g & Hg & Hfs).
  pose proof Henv as (Hcwd & _ & _ & _ & Hio).
  assert (Forall (source_of w1 (f_path dest)) files) as Hsrc1.
  { eapply Forall_impl; [exact Hsrc|]. intros x Hx. rewrite <- Hpath in Hx.
    by eapply (source_of_frame w w1 _ _ g). }
  destruct (concatFiles_spec dest destPath files w1 m "" Hd Hsrc1) as (Hc & Ho & He).
  assert (map (piece w1) files = map (piece w) files) as Hm1.
  { apply map_ext_in. intros x Hx. apply list_elem_of_In in Hx.
    rewrite Forall_forall in Hsrc. specialize (Hsrc x Hx). rewrite <- Hpath in Hsrc.
    by destruct (piece_frame w w1 (f_path dest) x g Hg Hcwd Hio Hfs Hsrc). }
  assert (map (pieceLog w1 destPath) files = map (pieceLog w destPath) files) as Hm2.
  { apply map_ext_in. intros x Hx. apply list_elem_of_In in Hx.
    rewrite Forall_forall in Hsrc. specialize (Hsrc x Hx). rewrite <- Hpath in Hsrc.
    by destruct (piece_frame w w1 (f_path dest) x g Hg Hcwd Hio Hfs Hsrc). }
  split.
  - unfold contentOf, os_Lstat. rewrite (locate_nonempty _ _ Hne). simpl.
    destruct He as (-> & _). rewrite Hcwd, <- Hpath, Hc, Hm1. done.
  - simpl. rewrite Ho, Hout, Hm2. by rewrite <- app_assoc.
Qed.

Lemma piece_readable w file data :
  readable_with w file data → piece w file = data +:+ LF ∧ ∀ dp, pieceLog w dp file = [].
Proof.
  intros (Hne & m & Hf & Hr & Hio). unfold piece, pieceLog. by rewrite Hf, Hr, Hio.
Qed.

Lemma readable_source w dest file data :
  readable_with w file data → resolve (cwd w) file ≠ dest → source_of w dest file.
Proof. intros (Hne & m & Hf & _) Hneq. split; [done|]. split; [done|]. by eexists _, _. Qed.

(** C7. If the Concatenator finds exactly two text files, the first with
    content X and the second with content Y, both readable and neither being
    the combined file itself, and the combined file can be created, then the
    combined file holds X, a newline, Y, a newline, and nothing is logged. *)
Theorem C7_concatenation_round_trip baseDir outputDir w w' f1 f2 X Y :
  findAllTxtFiles baseDir w = [f1; f2] →
  readable_with w f1 X →
  readable_with w f2 Y →
  resolve (cwd w) f1 ≠ resolve (cwd w) (Join outputDir "everything.txt") →
  resolve (cwd w) f2 ≠ resolve (cwd w) (Join outputDir "everything.txt") →
  concatenateAllTxtFiles baseDir outputDir w = (Ok tt, w') →
  contentOf w' (Join outputDir "everything.txt") = Some (X +:+ LF +:+ Y +:+ LF)
  ∧ out w' = out w ++ [PrintCreated (Join outputDir "everything.txt")].
Proof.
  intros Hfiles H1 H2 Hn1 Hn2 Hrun.
  destruct (concatenate_spec baseDir outputDir w w') as [Hc Ho]; [|done|].
  { rewrite Hfiles. repeat constructor; by eapply readable_source. }
  rewrite Hfiles in Hc, Ho. simpl in Hc, Ho.
  destruct (piece_readable _ _ _ H1) as [E1 L1].
  destruct (piece_readable _ _ _ H2) as [E2 L2].
  rewrite E1, E2 in Hc. rewrite L1, L2 in Ho. simpl in Ho.
  split; [|done]. rewrite Hc. f_equal.
  unfold concatAll. simpl. by rewrite append_nil_r, append_assoc.
Qed.

End ConcatFacts.

(* ===================================================================== *)
(** * The Item Processor as a whole                                       *)
(* ===================================================================== *)

Section ItemProcessor.
Context {L : GoLib}.

Lemma processURLs_unfold jsonURL baseDir filterSet w resp entries :
  net w jsonURL = Served resp →
  json_Decode (s_data resp) = Ok entries →
  processURLs jsonURL baseDir filterSet w
  = (Ok tt,
     emit (PrintCompleted (fst (processEntries baseDir filterSet entries 0 w)))
          (snd (processEntries baseDir filterSet entries 0 w))).
Proof.
  intros Hnet Hdec. unfold processURLs, bind, orWrap, http_Get, lift.
  rewrite Hnet, Hdec. by destruct (processEntries _ _ _ _ _).
Qed.

Lemma filter_all {A} (l : list A) : List.filter (λ _, true) l = l.
Proof. induction l as [|x l IH]; simpl; [done | by rewrite IH]. Qed.



End ItemProcessor.

(* ===================================================================== *)
(** * The Archive Extractor                                               *)
(* ===================================================================== *)

Section Extractor.
Context {L : GoLib}.

Lemma unzipEntries_cons_file destDir f rest w :
  IsDir (zf_Mode f) = false →
  unzipEntries destDir (f :: rest) w
  = match extractFile destDir f w with
    | (Ok _, w1) => unzipEntries destDir rest w1
    | (Err e, w1) => (Err e, w1)
    end.
Proof.
  intros Hd. simpl. rewrite Hd. unfold extractFile, bind.
  destruct (os_MkdirAll _ _ w) as [[[]|e] w1]; [|done].
  destruct (orWrap "error opening output file" _ w1) as [[outFile|e] w2]; [|done].
  destruct (orWrap "error opening zip content" _ w2) as [[rc|e] w3]; [|done].
  by destruct (orWrap "error writing to output file" _ w3) as [[[]|e] w4].
Qed.

Lemma unzipEntries_cons_dir destDir f rest w :
  IsDir (zf_Mode f) = true →
  unzipEntries destDir (f :: rest) w
  = unzipEntries destDir rest
      (snd (os_MkdirAll (Join destDir (zf_Name f)) ModePerm w)).
Proof. intros Hd. simpl. by rewrite Hd. Qed.

Lemma unzipEntries_app destDir es1 es2 w :
  unzipEntries destDir (es1 ++ es2) w
  = match unzipEntries destDir es1 w with
    | (Ok _, w1) => unzipEntries destDir es2 w1
    | (Err e, w1) => (Err e, w1)
    end.
Proof.
  revert w. induction es1 as [|f es1 IH]; intros w; [done|].
  rewrite <- app_comm_cons.
  destruct (IsDir (zf_Mode f)) eqn:Hd.
  - rewrite !unzipEntries_cons_dir by done. apply IH.
  - rewrite !unzipEntries_cons_file by done.
    destruct (extractFile destDir f w) as [[[]|e] w1]; [apply IH | done].
Qed.

Lemma extractFile_stable destDir f : respects stable (extractFile destDir f).
Proof. unfold extractFile. auto 10 with stable_db. Qed.

End Extractor.

(** A directory entry never ends the loop: the result of os.MkdirAll is
    dropped, and the next entry is looked at in the world MkdirAll leaves. *)
Lemma directory_entry_unchecked destDir f rest w :
  IsDir (zf_Mode f) = true →
  unzipEntries destDir (f :: rest) w
  = unzipEntries destDir rest (snd (os_MkdirAll (Join destDir (zf_Name f)) ModePerm w)).
Proof. intros Hd. simpl. by rewrite Hd. Qed.

Example directory_entry_over_a_file :
  fst (os_MkdirAll "AllChaosData/acme/sub" ModePerm Sample.w_old) = Err ENOTDIR
  ∧ unzipEntries "AllChaosData/acme" [Sample.folder "sub/"] Sample.w_old
    = (Ok tt, Sample.w_old).
Proof. split; vm_compute; reflexivity. Qed.

Section ExtractorFailures.
Context {L : GoLib}.

Lemma os_Open_fs name w : fs (snd (os_Open name w)) = fs w.
Proof.
  unfold os_Open, os_OpenFile, on_fs.
  destruct (locate name w) as [p|]; [|done].
  unfold openFile_node.
  change (hasFlag O_RDONLY O_CREATE) with false.
  change (hasFlag O_RDONLY O_TRUNC) with false.
  change (wants_write O_RDONLY) with false.
  simpl.
  destruct (find (fs w) p) as [[fm d|dm es]|[]]; simpl; try done.
  - change (wants_read O_RDONLY) with true. simpl. by destruct (may_read fm).
  - by destruct (may_read dm).
Qed.

Lemma zip_OpenReader_fs name w : fs (snd (zip_OpenReader name w)) = fs w.
Proof.
  unfold zip_OpenReader, bind.
  pose proof (os_Open_fs name w) as H.
  destruct (os_Open name w) as [[f|e] w1]; simpl in *; [|done].
  by destruct (s_err _).
Qed.


End ExtractorFailures.

(* ===================================================================== *)
(** * What the extraction of one file entry leaves                        *)
(* ===================================================================== *)

(** A new directory brings no regular file into the tree. *)
Lemma find_upd_mkdir_file p pm n q m d :
  find (upd p (created (NDir pm [])) n) q = Ok (NFile m d) →
  find n q = Ok (NFile m d).
Proof.
  revert n q. induction p as [|c p' IH]; intros n q H.
  - by rewrite upd_nil in H.
  - destruct n as [m0 d0|m0 es]; [by rewrite upd_file in H|].
    destruct q as [|x q'].
    { destruct p' as [|c2 p'']; [rewrite upd_last in H | rewrite upd_cons in H].
      - done.
      - by destruct (lookupEntry c es). }
    destruct (decide (c = x)) as [->|Hne].
    + destruct p' as [|c2 p''].
      * rewrite upd_last, find_cons in H. rewrite find_cons.
        destruct (may_exec m0); [|done].
        destruct (lookupEntry x es) as [ch|] eqn:Hx; simpl in H;
          rewrite lookup_setEntry_eq in H; [done|].
        destruct q' as [|y q'']; [done|]. rewrite find_cons in H.
        by destruct (may_exec pm).
      * rewrite upd_cons in H. rewrite find_cons.
        destruct (lookupEntry x es) as [ch|] eqn:Hx; [|by rewrite find_cons, Hx in H].
        rewrite find_cons, lookup_setEntry_eq in H.
        destruct (may_exec m0); [|done]. by apply IH.
    + destruct p' as [|c2 p''].
      * by rewrite upd_last, find_cons, lookup_updated_ne in H.
      * rewrite upd_cons in H.
        destruct (lookupEntry c es); [|done].
        by rewrite find_cons, lookup_setEntry_ne in H.
Qed.

Lemma mkdir_node_files u perm p n n' q m d :
  mkdir_node u perm p n = Ok n' → find n' q = Ok (NFile m d) → find n q = Ok (NFile m d).
Proof.
  unfold mkdir_node. intros H.
  destruct (find n p) as [?|[]]; try done.
  destruct (find n (parentOf p)) as [[?|pm pes]|]; try done.
  destruct (may_write pm); [|done].
  inversion H. apply find_upd_mkdir_file.
Qed.

Lemma mkdirAll_node_files u perm rp n n' q m d :
  mkdirAll_node u perm rp n = Ok n' → find n' q = Ok (NFile m d) → find n q = Ok (NFile m d).
Proof.
  revert n'. induction rp as [|c rparent IH]; intros n' H Hq; simpl in H.
  - change (find n (rev [])) with (Ok n) in H.
    destruct n; inversion H; by subst.
  - destruct (find n (rev rparent ++ [c])) as [[?|? ?]|e0] eqn:Hf.
    + done.
    + inversion H. by subst.
    + destruct (mkdirAll_node u perm rparent n) as [n1|] eqn:H1; [|done].
      destruct (mkdir_node u perm (rev rparent ++ [c]) n1) as [n2|] eqn:H2.
      * inversion H; subst n2. apply (IH n1 eq_refl).
        by eapply mkdir_node_files.
      * destruct (find n1 (rev rparent ++ [c])) as [[?|? ?]|]; try done.
        inversion H; subst n'. by apply (IH n1 eq_refl).
Qed.

Lemma mkdirAll_node_existing u perm rp n m es :
  find n (rev rp) = Ok (NDir m es) → mkdirAll_node u perm rp n = Ok n.
Proof.
  intros H. destruct rp as [|c rp].
  - change (mkdirAll_node u perm [] n)
      with (match find n (rev []) with
            | Ok (NDir _ _) => Ok n
            | Ok (NFile _ _) => Err ENOTDIR
            | Err e0 => Err e0
            end). by rewrite H.
  - change (mkdirAll_node u perm (c :: rp) n)
      with (match find n (rev (c :: rp)) with
            | Ok (NDir _ _) => Ok n
            | Ok (NFile _ _) => Err ENOTDIR
            | Err e0 =>
                match mkdirAll_node u perm rp n with
                | Err e => Err e
                | Ok n1 =>
                    match mkdir_node u perm (rev (c :: rp)) n1 with
                    | Ok n2 => Ok n2
                    | Err e =>
                        match find n1 (rev (c :: rp)) with
                        | Ok (NDir _ _) => Ok n1
                        | _ => Err e
                        end
                    end
                end
            end). by rewrite H.
Qed.

(** Opening the destination of an entry: an existing writable file is
    truncated and keeps its mode; a missing one is created empty with the
    mode asked for, less the umask. *)
Lemma os_OpenFile_wct name perm w f w1 :
  os_OpenFile name WCT perm w = (Ok f, w1) →
  name ≠ "" ∧ f = mkFile name (resolve (cwd w) name) ∧ same_env w w1
  ∧ keeps (fs w) (fs w1)
  ∧ ((∃ fm d0, find (fs w) (resolve (cwd w) name) = Ok (NFile fm d0)
               ∧ may_write fm = true
               ∧ find (fs w1) (resolve (cwd w) name) = Ok (NFile fm ""))
     ∨ (find (fs w) (resolve (cwd w) name) = Err ENOENT
        ∧ find (fs w1) (resolve (cwd w) name)
          = Ok (NFile (creation_mode (umask w) perm) ""))).
Proof.
  intros H.
  pose proof (os_OpenFile_stable name WCT perm w) as [Henv Hk]. rewrite H in Henv, Hk.
  unfold os_OpenFile, on_fs in H.
  destruct (locate name w) as [p|] eqn:Hloc; [|done].
  apply locate_ok in Hloc as [Hne ->].
  destruct (openFile_node _ _ _ _ _) as [n'|] eqn:Hop; [|done].
  inversion H; subst f w1; clear H. simpl in *.
  split; [done|]. split; [done|]. split; [done|]. split; [done|].
  unfold openFile_node in Hop.
  change (hasFlag WCT O_CREATE) with true in Hop.
  change (hasFlag WCT O_EXCL) with false in Hop.
  change (hasFlag WCT O_TRUNC) with true in Hop.
  change (wants_write WCT) with true in Hop.
  change (wants_read WCT) with false in Hop.
  simpl in Hop.
  destruct (find (fs w) _) as [[fm d|dm es]|[]] eqn:Hf; try done.
  - destruct (may_write fm) eqn:Hw; inversion Hop. left.
    exists fm, d. split; [done|]. split; [done|]. by eapply find_upd_same.
  - destruct (find (fs w) (parentOf _)) as [[?|pm pes]|] eqn:Hpar; try done.
    destruct (may_write pm); inversion Hop. right. split; [done|].
    by eapply find_upd_created.
Qed.

Section OneEntry.
Context {L : GoLib}.

(** What a successful turn of the loop leaves for a file entry. *)
Lemma extractFile_ok destDir f w w' :
  extractFile destDir f w = (Ok tt, w') →
  let fpath := Join destDir (zf_Name f) in
  fpath ≠ "" ∧ Dir fpath ≠ "" ∧ same_env w w'
  ∧ ∃ data mode,
      zf_Open f = Ok (Stream data None)
      ∧ (∃ m es, find (fs w') (resolve (cwd w) (Dir fpath)) = Ok (NDir m es))
      ∧ find (fs w') (resolve (cwd w) fpath) = Ok (NFile mode data)
      ∧ ((∃ d0, find (fs w) (resolve (cwd w) fpath) = Ok (NFile mode d0)
                ∧ may_write mode = true)
         ∨ ((∀ m0 d0, find (fs w) (resolve (cwd w) fpath) ≠ Ok (NFile m0 d0))
            ∧ mode = creation_mode (umask w) (zf_Mode f))).
Proof.
  intros H fpath. unfold extractFile in H. fold fpath in H. unfold bind in H.
  (* the directory *)
  pose proof (os_MkdirAll_stable (Dir fpath) ModePerm w) as [Henv1 _].
  destruct (os_MkdirAll (Dir fpath) ModePerm w) as [[[]|e] w1] eqn:Hmk; [|done].
  simpl in Henv1.
  unfold os_MkdirAll, on_fs in Hmk.
  destruct (locate (Dir fpath) w) as [pd|] eqn:Hlocd; [|done].
  apply locate_ok in Hlocd as [Hned ->].
  destruct (mkdirAll_node _ _ _ _) as [n1|] eqn:Hnode; [|done].
  inversion Hmk; subst w1; clear Hmk.
  pose proof (mkdirAll_node_dir _ _ _ _ _ Hnode) as (dm & des & Hdir).
  rewrite rev_involutive in Hdir.
  (* the destination *)
  unfold orWrap at 1 in H.
  destruct (os_OpenFile fpath _ (zf_Mode f) _) as [[outFile|e] w2] eqn:Hop; [|done].
  apply os_OpenFile_wct in Hop as (Hne & -> & Henv2 & Hk2 & Hcase).
  simpl in Henv2, Hk2, Hcase.
  (* the content *)
  unfold orWrap at 1 in H. unfold lift in H.
  destruct (zf_Open f) as [[data rerr]|e] eqn:Hzo; [|done].
  unfold orWrap, io_Copy in H. simpl in H.
  destruct rerr as [e|]; [done|]. inversion H; subst w'; clear H. simpl.
  destruct Henv2 as (Hcwd2 & Hum2 & Htmp2 & Hnet2 & Hio2).
  split; [done|]. split; [done|]. split; [by repeat split|].
  assert (∀ x, find (fs w2) (resolve (cwd w) fpath) = Ok (NFile x "") →
               find (upd (resolve (cwd w) fpath) (appended data) (fs w2))
                    (resolve (cwd w) fpath) = Ok (NFile x data)) as Hwr.
  { intros x Hx. by eapply find_upd_same. }
  assert (∃ m es, find (upd (resolve (cwd w) fpath) (appended data) (fs w2))
                       (resolve (cwd w) (Dir fpath)) = Ok (NDir m es)) as Hd.
  { destruct (Hk2 _ _ Hdir) as (y & Hy & Ha).
    destruct (upd_keeps (appended data) (resolve (cwd w) fpath) (fs w2)
                (mild_appended _) _ _ Hy) as (z & Hz & Hb).
    destruct y as [|? ?]; [done|]. destruct z as [|zm zes]; [done|]. by eexists _, _. }
  destruct Hcase as [(fm & d0 & Hf1 & Hw & Hf2)|[Hf1 Hf2]].
  - exists data, fm. split; [done|]. split; [done|]. split; [by apply Hwr|].
    left. exists d0. split; [|done]. by eapply mkdirAll_node_files.
  - exists data, (creation_mode (umask w) (zf_Mode f)).
    split; [done|]. split; [done|]. split; [by apply Hwr|].
    right. split; [|done]. intros m0 d0 Hold.
    destruct (mkdirAll_node_keeps _ _ _ _ _ Hnode _ _ Hold) as (y & Hy & _).
    simpl in Hf1. congruence.
Qed.

End OneEntry.

(* ===================================================================== *)
(** * Extracting the same archive again                                   *)
(* ===================================================================== *)

Section Rerun.
Context {L : GoLib}.

Lemma ready_stable w w' destDir f : stable w w' → ready w destDir f → ready w' destDir f.
Proof.
  intros [(Hcwd & _) Hk] (Hne & Hned & (dm & des & Hd) & (fm & d0 & Hf & Hw) & Hz).
  split; [done|]. split; [done|]. rewrite Hcwd. split; [|split; [|done]].
  - destruct (Hk _ _ Hd) as (y & Hy & Ha). destruct y; [done|]. by eexists _, _.
  - destruct (Hk _ _ Hf) as (y & Hy & Ha). destruct y as [m' d'|]; [|done].
    simpl in Ha. subst m'. by eexists _, _.
Qed.

(** A file entry that is ready is extracted without error. *)
Lemma extractFile_ready destDir f w :
  ready w destDir f → ∃ w', extractFile destDir f w = (Ok tt, w').
Proof.
  intros (Hne & Hned & (dm & des & Hd) & (fm & d0 & Hf & Hw) & (data & Hz)).
  unfold extractFile, bind.
  (* the directory is there *)
  unfold os_MkdirAll at 1. unfold on_fs at 1. rewrite (locate_nonempty _ _ Hned).
  rewrite (mkdirAll_node_existing _ _ _ _ dm des) by (by rewrite rev_involutive).
  rewrite set_fs_id.
  (* the file is there and may be written *)
  unfold orWrap at 1. unfold os_OpenFile, on_fs. rewrite (locate_nonempty _ _ Hne).
  unfold openFile_node. rewrite Hf.
  change (hasFlag (Z.lor O_WRONLY (Z.lor O_CREATE O_TRUNC)) O_CREATE) with true.
  change (hasFlag (Z.lor O_WRONLY (Z.lor O_CREATE O_TRUNC)) O_EXCL) with false.
  change (hasFlag (Z.lor O_WRONLY (Z.lor O_CREATE O_TRUNC)) O_TRUNC) with true.
  change (wants_write (Z.lor O_WRONLY (Z.lor O_CREATE O_TRUNC))) with true.
  change (wants_read (Z.lor O_WRONLY (Z.lor O_CREATE O_TRUNC))) with false.
  simpl. rewrite Hw. simpl.
  unfold orWrap at 1. unfold lift. rewrite Hz.
  unfold orWrap, io_Copy. simpl. by eexists.
Qed.

(** After its extraction a file entry is ready, if what it creates may be
    written. *)
Lemma extractFile_ok_ready destDir f w w' :
  may_write (creation_mode (umask w) (zf_Mode f)) = true →
  extractFile destDir f w = (Ok tt, w') → ready w' destDir f.
Proof.
  intros Hmode H.
  destruct (extractFile_ok _ _ _ _ H)
    as (Hne & Hned & (Hcwd & _) & data & mode & Hz & Hd & Hf & Hcase).
  split; [done|]. split; [done|]. rewrite Hcwd. split; [done|]. split; [|by eexists].
  exists mode, data. split; [done|].
  destruct Hcase as [(d0 & _ & Hw)|[_ ->]]; done.
Qed.

Lemma first_run_ready destDir files : ∀ w w1,
  Forall (writable_entry (umask w)) files →
  unzipEntries destDir files w = (Ok tt, w1) →
  Forall (λ f, IsDir (zf_Mode f) = false → ready w1 destDir f) files.
Proof.
  induction files as [|f rest IH]; intros w w1 Hwr Hrun; [constructor|].
  apply Forall_cons in Hwr as [Hf Hrest].
  destruct (IsDir (zf_Mode f)) eqn:Hd.
  - rewrite unzipEntries_cons_dir in Hrun by done.
    constructor; [intros Hx; congruence|].
    eapply IH; [|exact Hrun].
    destruct (os_MkdirAll_stable (Join destDir (zf_Name f)) ModePerm w)
      as [(_ & -> & _) _]. done.
  - rewrite unzipEntries_cons_file in Hrun by done.
    pose proof (extractFile_stable destDir f w) as Hst.
    destruct (extractFile destDir f w) as [[[]|e] w'] eqn:Hx; [|done].
    simpl in Hst. constructor.
    + intros _. eapply ready_stable.
      * pose proof (unzipEntries_stable destDir rest w') as Hst'.
        rewrite Hrun in Hst'. exact Hst'.
      * eapply extractFile_ok_ready; [|exact Hx]. by apply Hf.
    + eapply IH; [|exact Hrun]. destruct Hst as [(_ & -> & _) _]. done.
Qed.

Lemma rerun_ok destDir files : ∀ w,
  Forall (λ f, IsDir (zf_Mode f) = false → ready w destDir f) files →
  ∃ w2, unzipEntries destDir files w = (Ok tt, w2).
Proof.
  induction files as [|f rest IH]; intros w Hr; [by eexists|].
  apply Forall_cons in Hr as [Hf Hrest].
  destruct (IsDir (zf_Mode f)) eqn:Hd.
  - rewrite unzipEntries_cons_dir by done. apply IH.
    eapply Forall_impl; [exact Hrest|]. intros x Hx Hdx.
    eapply ready_stable; [apply os_MkdirAll_stable | by apply Hx].
  - rewrite unzipEntries_cons_file by done.
    destruct (extractFile_ready destDir f w (Hf eq_refl)) as [w' Hx].
    pose proof (extractFile_stable destDir f w) as Hst.
    rewrite Hx in Hst |- *. apply IH.
    eapply Forall_impl; [exact Hrest|]. intros x Hxr Hdx.
    eapply ready_stable; [exact Hst | by apply Hxr].
Qed.

(** C6, as the code has it.  For a file entry, a successful turn of the loop
    leaves the parent directory of the destination and, at the destination, a
    regular file that holds exactly the bytes of the entry; the file has the
    permission bits it had if it existed before, and the entry's declared
    permission bits less the umask if it did not.  Extracting the same
    entries into the same destination once more succeeds when every file
    entry's declared permission bits, less the umask, allow the owner to
    write. *)
Theorem C6_extraction_overwrites :
  (∀ destDir f w w',
      IsDir (zf_Mode f) = false →
      unzipEntries destDir [f] w = (Ok tt, w') →
      let fpath := Join destDir (zf_Name f) in
      ∃ data,
        zf_Open f = Ok (Stream data None)
        ∧ is_dir w' (Dir fpath)
        ∧ os_Lstat fpath w'
          = Ok (NFile (match os_Lstat fpath w with
                       | Ok (NFile m0 _) => m0
                       | _ => creation_mode (umask w) (zf_Mode f)
                       end) data))
  ∧ (∀ destDir files w w1,
        Forall (λ f, IsDir (zf_Mode f) = false →
                     may_write (creation_mode (umask w) (zf_Mode f)) = true) files →
        unzipEntries destDir files w = (Ok tt, w1) →
        ∃ w2, unzipEntries destDir files w1 = (Ok tt, w2)).
Proof.
  split.
  - intros destDir f w w' Hd Hrun fpath.
    rewrite unzipEntries_cons_file in Hrun by done.
    destruct (extractFile destDir f w) as [[[]|e] w1] eqn:Hx; [|done].
    inversion Hrun; subst w1; clear Hrun.
    destruct (extractFile_ok _ _ _ _ Hx)
      as (Hne & Hned & (Hcwd & _) & data & mode & Hz & (dm & des & Hdir) & Hf & Hcase).
    fold fpath in Hne, Hned, Hdir, Hf, Hcase.
    exists data. split; [done|]. split.
    + exists dm, des. unfold os_Lstat. rewrite (locate_nonempty _ _ Hned).
      by rewrite Hcwd.
    + unfold os_Lstat. rewrite !(locate_nonempty _ _ Hne). rewrite Hcwd, Hf.
      destruct Hcase as [(d0 & -> & _)|[Hnone ->]]; [done|].
      destruct (find (fs w) (resolve (cwd w) fpath)) as [[m0 d0|? ?]|] eqn:Hold; try done.
      by destruct (Hnone m0 d0).
  - intros destDir files w w1 Hwr Hrun.
    apply rerun_ok. by eapply first_run_ready.
Qed.

End Rerun.

(* ===================================================================== *)
(** * The directory walk                                                  *)
(* ===================================================================== *)

Section WalkFacts.
Context {S : Type}.
Variable walkFn : string → option FileInfo → option error → S → S * option error.

Lemma walk_dir path m es st :
  walk walkFn path (NDir m es) st
  = let err := if may_read m then None else Some EACCES in
    let '(st1, err1) := walkFn path (Some (infoOf path (NDir m es))) err st in
    match err, err1 with
    | None, None => walkChildren walkFn path m es st1
    | _, _ => (st1, err1)
    end.
Proof.
  simpl. destruct (walkFn path _ _ st) as [st1 err1].
  destruct (may_read m); [|done]. destruct err1; [done|].
  clear. revert st1. induction es as [|[name child] rest IH]; intros st1; [done|].
  simpl. destruct (if may_exec m then _ else _) as [st' e].
  destruct e; [done | apply IH].
Qed.

Lemma walkChildren_app path m es1 es2 st :
  walkChildren walkFn path m (es1 ++ es2) st
  = match walkChildren walkFn path m es1 st with
    | (st1, None) => walkChildren walkFn path m es2 st1
    | (st1, Some e) => (st1, Some e)
    end.
Proof.
  revert st. induction es1 as [|[name child] rest IH]; intros st; [done|].
  simpl. destruct (if may_exec m then _ else _) as [st' e].
  destruct e; [done | apply IH].
Qed.

End WalkFacts.

Section WalkErrors.
Context {L : GoLib}.

(** C9. A directory that cannot be read ends the walk at once with the
    error and with the files found so far, and so does a directory that
    cannot be searched, or a root that os.Lstat cannot find; an error met
    below one name of a directory ends the walk of that directory, with the
    files found until then, and the names after it are not visited, whatever
    they are.
    findAllTxtFiles keeps the files and drops the error, so that
    concatenateAllTxtFiles goes on with the partial list: it succeeds as soon
    as the combined file can be created, writes the pieces of those files,
    and logs nothing but the files it could not open or copy. *)
Theorem C9_walk_error_is_silent :
  (∀ path m es files,
      may_read m = false →
      walk collectTxt path (NDir m es) files = (files, Some EACCES))
  ∧ (∀ path m es1 name child es2 files files1 files2 e,
        may_read m = true → may_exec m = true →
        walkChildren collectTxt path m es1 files = (files1, None) →
        walk collectTxt (Join path name) child files1 = (files2, Some e) →
        walk collectTxt path (NDir m (es1 ++ (name, child) :: es2)) files
        = (files2, Some e))
  ∧ (∀ baseDir outputDir w files e,
        Walk collectTxt baseDir w [] = (files, Some e) →
        findAllTxtFiles baseDir w = files
        ∧ (∀ dest w1, os_Create (Join outputDir "everything.txt") w = (Ok dest, w1) →
                      fst (concatenateAllTxtFiles baseDir outputDir w) = Ok tt)
        ∧ (∀ w',
              Forall (source_of w (resolve (cwd w) (Join outputDir "everything.txt")))
                     files →
              concatenateAllTxtFiles baseDir outputDir w = (Ok tt, w') →
              contentOf w' (Join outputDir "everything.txt")
              = Some (concatAll (map (piece w) files))
              ∧ out w'
                = out w
                  ++ concat (map (pieceLog w (Join outputDir "everything.txt")) files)
                  ++ [PrintCreated (Join outputDir "everything.txt")]))
  ∧ (∀ path m name child rest files,
        may_read m = true → may_exec m = false →
        walk collectTxt path (NDir m ((name, child) :: rest)) files
        = (files, Some EACCES))
  ∧ (∀ root w e,
        os_Lstat root w = Err e →
        Walk collectTxt root w [] = ([], Some e)
        ∧ findAllTxtFiles root w = []).
Proof.
  split; [|split; [|split; [|split]]]; cycle 3.
  - intros path m name child rest files Hr Hx.
    rewrite walk_dir. simpl. rewrite Hr. simpl. by rewrite Hx.
  - intros root w e He. unfold findAllTxtFiles, Walk. by rewrite He.
  - intros path m es files Hr. rewrite walk_dir. simpl. by rewrite Hr.
  - intros path m es1 name child es2 files files1 files2 e Hr Hx H1 Hc.
    rewrite walk_dir. simpl. rewrite Hr. simpl.
    rewrite walkChildren_app, H1. simpl. by rewrite Hx, Hc.
  - intros baseDir outputDir w files e HW.
    assert (findAllTxtFiles baseDir w = files) as Hfiles
      by (unfold findAllTxtFiles; by rewrite HW).
    split; [done|]. split.
    + intros dest w1 Hcr. unfold concatenateAllTxtFiles, bind, orWrap. by rewrite Hcr.
    + intros w' Hsrc Hrun. rewrite <- Hfiles in Hsrc |- *.
      by apply concatenate_spec.
Qed.

End WalkErrors.

(* ===================================================================== *)
(** * The command line                                                    *)
(* ===================================================================== *)

Section CommandLine.
Context {L : GoLib}.

(** C10. With a comma-separated list on the command line, the run is the run
    without the name-list file and without the download-all flag, in every
    world: the file plays no part, whether it exists or not.  With a
    name-list file and no comma-separated list, the run is the run without
    the download-all flag. *)
Theorem C10_comma_list_wins fl w :
  (companies fl ≠ "" →
   main fl w = main (mkFlags "" (companies fl) false (help fl)) w)
  ∧ (companies fl ≠ "" ∨ inputFile fl ≠ "" →
     main fl w = main (mkFlags (inputFile fl) (companies fl) false (help fl)) w).
Proof.
  destruct fl as [i c a h]. simpl. split.
  - intros Hc. unfold main. simpl.
    destruct (String.eqb c "") eqn:Ec; [apply String.eqb_eq in Ec; done|].
    simpl. by rewrite !andb_false_r.
  - intros Hci. unfold main. simpl.
    destruct (String.eqb c "") eqn:Ec; simpl.
    + destruct Hci as [Hc|Hi]; [apply String.eqb_eq in Ec; done|].
      destruct (String.eqb i "") eqn:Ei; [apply String.eqb_eq in Ei; done|].
      done.
    + by rewrite !andb_false_r.
Qed.

End CommandLine.

(* ===================================================================== *)
(** * The path of an entry is not confined to the destination             *)
(* ===================================================================== *)

(** C8. unzipFile joins the destination and the name of the entry and opens
    the result, with no check that it stays below the destination: the entry
    ../../escaped.txt, extracted into AllChaosData/acme, is written to
    escaped.txt in the working directory, which is not below
    AllChaosData/acme. *)
Theorem C8_entries_escape_destination :
  ∃ destDir f w w' data,
    hasDotDot (zf_Name f)
    ∧ unzipEntries destDir [f] w = (Ok tt, w')
    ∧ zf_Open f = Ok (Stream data None)
    ∧ contentOf w (Join destDir (zf_Name f)) = None
    ∧ contentOf w' (Join destDir (zf_Name f)) = Some data
    ∧ ¬ (resolve (cwd w) destDir `prefix_of`
           resolve (cwd w') (Join destDir (zf_Name f))).
Proof.
  exists "AllChaosData/acme", (Sample.plain "../../escaped.txt" "E"), Sample.w0,
         (snd (unzipEntries "AllChaosData/acme" Sample.archive_up Sample.w0)), "E".
  split; [|split; [|split; [|split; [|split]]]].
  - unfold hasDotDot. vm_compute. by left.
  - vm_compute. reflexivity.
  - reflexivity.
  - vm_compute. reflexivity.
  - vm_compute. reflexivity.
  - vm_compute. intros [k Hk]. discriminate Hk.
Qed.

(* ===================================================================== *)
(** * The statements at sample inputs                                     *)
(* ===================================================================== *)

Ltac is_source :=
  split; [intros [=] | split; [vm_compute; intros [=] | eexists _, _; vm_compute; reflexivity]].

(** Closes a goal with a hypothesis that is equal to it up to computation. *)
Ltac from H := generalize H; vm_compute; let K := fresh in intros K; exact K.

Ltac all_sources :=
  repeat (apply Forall_cons_2; [is_source|]); apply Forall_nil_2.






(** C5 at the download of an archive that extracts well and at the download
    of an archive whose extraction fails. *)
Lemma C5_witness :
  os_Lstat "/tmp/7.zip" (snd (os_CreateTemp "" "*.zip" Sample.w0)) = Ok (NFile 384 "")
  ∧ os_Lstat "/tmp/7.zip"
      (snd (downloadAndUnzip (L:=Sample.lib) "u/tesla" "Tesla" "AllChaosData" Sample.w0))
    = Err ENOENT
  ∧ isErr (fst (downloadAndUnzip (L:=Sample.lib) "u/cut" "Cut" "AllChaosData" Sample.w0))
    = true
  ∧ os_Lstat "/tmp/7.zip"
      (snd (downloadAndUnzip (L:=Sample.lib) "u/cut" "Cut" "AllChaosData" Sample.w0))
    = Err ENOENT.
Proof.
  split; [vm_compute; reflexivity|]. split; [|split; [vm_compute; reflexivity|]].
  - apply (C5_temp_file_removed (L:=Sample.lib) "u/tesla" "Tesla" "AllChaosData" Sample.w0
             (Stream "ZIP-a" None) (mkFile "/tmp/7.zip" ["tmp"; "7.zip"])
             (snd (os_CreateTemp "" "*.zip" Sample.w0)));
      vm_compute; reflexivity.
  - apply (C5_temp_file_removed (L:=Sample.lib) "u/cut" "Cut" "AllChaosData" Sample.w0
             (Stream "ZIP-cut" None) (mkFile "/tmp/7.zip" ["tmp"; "7.zip"])
             (snd (os_CreateTemp "" "*.zip" Sample.w0)));
      vm_compute; reflexivity.
Defined.

(** C6 as stated fails.  An archive with an entry of mode 0444 is extracted
    without error, and extracting it again into the same destination fails,
    because the file of the first run may not be opened for writing.  And an
    entry of mode 0644 that overwrites a file of mode 0600 leaves a file of
    mode 0600: the declared permission bits are not those of the file. *)
Lemma C6_counterexample :
  let r1 := unzipEntries "AllChaosData/acme" Sample.archive_ro Sample.w0 in
  (fst r1 = Ok tt
   ∧ os_Lstat "AllChaosData/acme/r.txt" (snd r1) = Ok (NFile 292 "X")
   ∧ fst (unzipEntries "AllChaosData/acme" Sample.archive_ro (snd r1))
     = Err (Wrap "error opening output file" EACCES))
  ∧ (os_Lstat "AllChaosData/acme/2.txt" Sample.w_old = Ok (NFile 384 "old content")
     ∧ zf_Mode (Sample.plain "2.txt" "Y") = 420
     ∧ fst (unzipEntries "AllChaosData/acme" Sample.archive_b Sample.w_old) = Ok tt
     ∧ os_Lstat "AllChaosData/acme/2.txt"
         (snd (unzipEntries "AllChaosData/acme" Sample.archive_b Sample.w_old))
       = Ok (NFile 384 "Y")).
Proof. repeat split; vm_compute; reflexivity. Qed.

(** C6, amended, at an archive whose file entries have mode 0644. *)
Lemma C6_witness :
  let r1 := unzipEntries "AllChaosData/Tesla" Sample.archive_a Sample.w0 in
  os_Lstat "AllChaosData/Tesla/2.txt"
    (snd (unzipEntries "AllChaosData/Tesla" Sample.archive_b Sample.w0))
  = Ok (NFile 420 "Y")
  ∧ fst r1 = Ok tt
  ∧ ∃ w2, unzipEntries "AllChaosData/Tesla" Sample.archive_a (snd r1) = (Ok tt, w2).
Proof.
  intros r1. destruct C6_extraction_overwrites as [H1 H2]. split; [|split].
  - destruct (H1 "AllChaosData/Tesla" (Sample.plain "2.txt" "Y") Sample.w0
                (snd (unzipEntries "AllChaosData/Tesla" Sample.archive_b Sample.w0)))
      as (data & Hz & _ & Hf).
    + reflexivity.
    + vm_compute. reflexivity.
    + injection Hz as <-. from Hf.
  - vm_compute. reflexivity.
  - apply (H2 "AllChaosData/Tesla" Sample.archive_a Sample.w0 (snd r1)).
    + repeat (apply Forall_cons_2; [intros _; vm_compute; reflexivity|]).
      apply Forall_nil_2.
    + vm_compute. reflexivity.
Defined.

(** C7 at the tree a/1.txt = X, b/2.txt = Y. *)
Lemma C7_witness :
  contentOf (snd (concatenateAllTxtFiles "AllChaosData" "." Sample.w_two)) "everything.txt"
  = Some ("X" +:+ LF +:+ "Y" +:+ LF).
Proof.
  destruct (C7_concatenation_round_trip "AllChaosData" "." Sample.w_two
              (snd (concatenateAllTxtFiles "AllChaosData" "." Sample.w_two))
              "AllChaosData/a/1.txt" "AllChaosData/b/2.txt" "X" "Y") as [H _].
  - vm_compute. reflexivity.
  - split; [intros [=]|]. exists 420. repeat split; vm_compute; reflexivity.
  - split; [intros [=]|]. exists 420. repeat split; vm_compute; reflexivity.
  - vm_compute. intros [=].
  - vm_compute. intros [=].
  - vm_compute. reflexivity.
  - from H.
Defined.

(** C9 at a tree whose second directory cannot be listed: the walk stops
    there, the third file is not found, and the Concatenator succeeds with
    the first file alone, logging nothing. *)
Lemma C9_witness :
  Walk collectTxt "AllChaosData" Sample.w_closed []
  = (["AllChaosData/a/1.txt"], Some EACCES)
  ∧ contentOf Sample.w_closed "AllChaosData/c/3.txt" = Some "Z"
  ∧ findAllTxtFiles "AllChaosData" Sample.w_closed = ["AllChaosData/a/1.txt"]
  ∧ fst (concatenateAllTxtFiles "AllChaosData" "." Sample.w_closed) = Ok tt
  ∧ contentOf (snd (concatenateAllTxtFiles "AllChaosData" "." Sample.w_closed))
      "everything.txt" = Some ("X" +:+ LF)
  ∧ out (snd (concatenateAllTxtFiles "AllChaosData" "." Sample.w_closed))
    = [PrintCreated "everything.txt"].
Proof.
  destruct C9_walk_error_is_silent as (H1 & H2 & H3 & _ & _).
  assert (Walk collectTxt "AllChaosData" Sample.w_closed []
          = (["AllChaosData/a/1.txt"], Some EACCES)) as HW.
  { (* the walk, by the first two parts of the statement *)
    unfold Walk.
    assert (os_Lstat "AllChaosData" Sample.w_closed
            = Ok (NDir 493 ([("a", NDir 493 [("1.txt", NFile 420 "X")])]
                            ++ ("b", NDir 192 [("2.txt", NFile 420 "Y")])
                            :: [("c", NDir 493 [("3.txt", NFile 420 "Z")])])))
      as -> by (vm_compute; reflexivity).
    apply (H2 "AllChaosData" 493 _ "b" _ _ [] ["AllChaosData/a/1.txt"]).
    - reflexivity.
    - reflexivity.
    - vm_compute. reflexivity.
    - apply H1. reflexivity. }
  destruct (H3 "AllChaosData" "." Sample.w_closed _ _ HW) as (Hf & Hok & Hrun).
  split; [exact HW|]. split; [vm_compute; reflexivity|]. split; [exact Hf|].
  split.
  - apply (Hok (mkFile "everything.txt" ["home"; "u"; "everything.txt"])
               (snd (os_Create "everything.txt" Sample.w_closed))).
    vm_compute. reflexivity.
  - destruct (Hrun (snd (concatenateAllTxtFiles "AllChaosData" "." Sample.w_closed)))
      as [Hc Ho].
    + all_sources.
    + vm_compute. reflexivity.
    + split; [from Hc | from Ho].
Defined.

(** C10 at a command line with a comma-separated list, a name-list file that
    does not exist and the download-all flag: the run is the run with the
    list alone, and it does not stop on the missing file, as the run with the
    file alone does. *)
Lemma C10_witness :
  main (L:=Sample.lib) (mkFlags "missing.txt" "tesla" true false) Sample.w0
  = main (L:=Sample.lib) (mkFlags "" "tesla" false false) Sample.w0
  ∧ fst (main (L:=Sample.lib) (mkFlags "missing.txt" "tesla" true false) Sample.w0) = Ok tt
  ∧ fst (main (L:=Sample.lib) (mkFlags "missing.txt" "" true false) Sample.w0) = Err ENOENT
  ∧ main (L:=Sample.lib) (mkFlags "missing.txt" "" true false) Sample.w0
    = main (L:=Sample.lib) (mkFlags "missing.txt" "" false false) Sample.w0.
Proof.
  split; [|split; [|split]].
  - apply (proj1 (C10_comma_list_wins (L:=Sample.lib)
                    (mkFlags "missing.txt" "tesla" true false) Sample.w0)).
    simpl. intros [=].
  - vm_compute. reflexivity.
  - vm_compute. reflexivity.
  - apply (proj2 (C10_comma_list_wins (L:=Sample.lib)
                    (mkFlags "missing.txt" "" true false) Sample.w0)).
    right. simpl. intros [=].
Defined.

(* ===================================================================== *)
(** * More about the Selector and the loop over the index                 *)
(* ===================================================================== *)

Lemma Split_append (a b : string) (sep : ascii) :
  Split (a +:+ String sep b) sep = Split a sep ++ Split b sep.
Proof.
  induction a as [|x a IH].
  - change ("" +:+ String sep b) with (String sep b).
    change (Split (String sep b) sep)
      with (if Ascii.eqb sep sep then "" :: Split b sep
            else match Split b sep with
                 | t :: ts => String sep t :: ts
                 | [] => [String sep ""]
                 end).
    by rewrite Ascii.eqb_refl.
  - change (String x a +:+ String sep b) with (String x (a +:+ String sep b)).
    change (Split (String x (a +:+ String sep b)) sep)
      with (if Ascii.eqb x sep then "" :: Split (a +:+ String sep b) sep
            else match Split (a +:+ String sep b) sep with
                 | t :: ts => String x t :: ts
                 | [] => [String x ""]
                 end).
    change (Split (String x a) sep)
      with (if Ascii.eqb x sep then "" :: Split a sep
            else match Split a sep with
                 | t :: ts => String x t :: ts
                 | [] => [String x ""]
                 end).
    rewrite IH. destruct (Ascii.eqb x sep); [done|].
    assert (Split a sep ≠ []) as Hne.
    { clear. destruct a as [|y a]; [done|].
      change (Split (String y a) sep)
        with (if Ascii.eqb y sep then "" :: Split a sep
              else match Split a sep with
                   | t :: ts => String y t :: ts
                   | [] => [String y ""]
                   end).
      destruct (Ascii.eqb y sep); [done|]. by destruct (Split a sep). }
    by destruct (Split a sep).
Qed.

Section SelectorMore.
Context {L : GoLib}.

Lemma spec_tokens_app l1 l2 : spec_tokens (l1 ++ l2) = spec_tokens l1 ++ spec_tokens l2.
Proof. unfold spec_tokens. by rewrite map_app, List.filter_app, map_app. Qed.

(** X1. Two lists of names joined by a comma give the union of their sets: the
    order of the names and their repetition do not matter. *)
Theorem parseCompanyNames_comma a b :
  parseCompanyNames (a +:+ "," +:+ b) = parseCompanyNames a ∪ parseCompanyNames b.
Proof.
  rewrite !parseCompanyNames_spec. unfold spec_selection_of_string.
  change ("," +:+ b) with (String ","%char b).
  rewrite Split_append, spec_tokens_app. apply list_to_set_app_L.
Qed.

Lemma elem_of_spec_tokens x pieces :
  x ∈ spec_tokens pieces
  ↔ ∃ t, t ∈ pieces ∧ TrimSpace t ≠ "" ∧ x = ToLower (TrimSpace t).
Proof.
  unfold spec_tokens. rewrite list_elem_of_fmap. split.
  - intros (y & -> & Hy). apply list_elem_of_In, filter_In in Hy as [Hy Hne].
    apply list_elem_of_In, list_elem_of_fmap in Hy as (t & -> & Ht).
    exists t. split; [done|]. split; [|done].
    intros Heq. rewrite Heq in Hne. done.
  - intros (t & Ht & Hne & ->). exists (TrimSpace t). split; [done|].
    apply list_elem_of_In, filter_In. split.
    + apply list_elem_of_In, list_elem_of_fmap. by exists t.
    + destruct (String.eqb (TrimSpace t) "") eqn:E; [|done].
      apply String.eqb_eq in E. done.
Qed.

(** X2. An entry of the index passes the filter built from a comma-separated
    list exactly when its lowercased name is the lowercased form of one of
    the trimmed, non-empty names of the list. *)
Theorem selected_by_list input entry :
  selected (Some (parseCompanyNames input)) entry = true
  ↔ ∃ t, t ∈ Split input ","%char ∧ TrimSpace t ≠ ""
         ∧ ToLower (TrimSpace t) = ToLower (e_Name entry).
Proof.
  unfold selected. rewrite bool_decide_eq_true, parseCompanyNames_spec.
  unfold spec_selection_of_string. rewrite elem_of_list_to_set, elem_of_spec_tokens.
  split; intros (t & ? & ? & ?); exists t; done.
Qed.

Variables (baseDir : string).

(** X3. The entries that the filter leaves out play no part in the loop: the loop
    over the index is the loop over the selected entries alone. *)
Theorem processEntries_selected_only filterSet entries c w :
  processEntries baseDir filterSet (List.filter (selected filterSet) entries) c w
  = processEntries baseDir filterSet entries c w.
Proof.
  revert c w. induction entries as [|e es IH]; intros c w; [done|].
  simpl. destruct (selected filterSet e) eqn:Hs; [|apply IH].
  simpl. rewrite Hs.
  destruct (downloadAndUnzip _ _ _ _) as [[[]|err] w2]; apply IH.
Qed.

(** X4. Names of the Selection Set that match no entry of the index are ignored
    without any notice: when no entry matches, processURLs downloads nothing,
    leaves the world as it is and reports zero companies. *)
Theorem processURLs_no_match jsonURL s w resp entries :
  net w jsonURL = Served resp →
  json_Decode (s_data resp) = Ok entries →
  (∀ e, e ∈ entries → ToLower (e_Name e) ∉ s) →
  processURLs jsonURL baseDir (Some s) w = (Ok tt, emit (PrintCompleted 0) w).
Proof.
  intros Hnet Hdec Hno. rewrite (processURLs_unfold _ _ _ _ _ _ Hnet Hdec).
  assert (∀ c, processEntries baseDir (Some s) entries c w = (c, w)) as ->; [|done].
  clear Hnet Hdec. induction entries as [|e es IH]; intros c; [done|].
  simpl. rewrite bool_decide_eq_false_2.
  - apply IH. intros e' He'. apply Hno. by right.
  - apply Hno. by left.
Qed.

End SelectorMore.

(* ===================================================================== *)
(** * What a run never does                                               *)
(* ===================================================================== *)

Lemma os_OpenFile_excl_fresh name perm w f w1 :
  os_OpenFile name (Z.lor O_RDWR (Z.lor O_CREATE O_EXCL)) perm w = (Ok f, w1) →
  f_Name f = name ∧ find (fs w) (resolve (cwd w) name) = Err ENOENT.
Proof.
  unfold os_OpenFile, on_fs. intros H.
  destruct (locate name w) as [p|] eqn:Hloc; [|done].
  apply locate_ok in Hloc as [Hne ->].
  destruct (openFile_node _ _ _ _ _) as [n'|] eqn:Hop; [|done].
  inversion H; subst f w1; clear H. split; [done|].
  unfold openFile_node in Hop.
  by destruct (find (fs w) _) as [[? ?|? ?]|[]] eqn:Hf.
Qed.

Lemma os_OpenFile_failed name flag perm w e w1 :
  os_OpenFile name flag perm w = (Err e, w1) → w1 = w.
Proof.
  unfold os_OpenFile, on_fs.
  destruct (locate name w) as [p|]; [|by intros [= _ <-]].
  destruct (openFile_node _ _ _ _ _); [done | by intros [= _ <-]].
Qed.

Lemma createTemp_loop_fresh tries prefix suffix w f w1 :
  createTemp_loop tries prefix suffix w = (Ok f, w1) →
  find (fs w) (resolve (cwd w) (f_Name f)) = Err ENOENT.
Proof.
  revert w. induction tries as [|tries IH]; intros w; simpl.
  - destruct (os_OpenFile _ _ _ _) as [[f'|[]] w2] eqn:Hop; try done.
    intros H; inversion H; subst.
    by apply os_OpenFile_excl_fresh in Hop as [-> ?].
  - destruct (os_OpenFile _ _ _ _) as [[f'|[]] w2] eqn:Hop; try done.
    + intros H; inversion H; subst.
      by apply os_OpenFile_excl_fresh in Hop as [-> ?].
    + apply os_OpenFile_failed in Hop. subst w2. intros H. by apply IH in H.
Qed.

Lemma os_CreateTemp_fresh dir pattern w f w1 :
  os_CreateTemp dir pattern w = (Ok f, w1) →
  find (fs w) (resolve (cwd w) (f_Name f)) = Err ENOENT.
Proof.
  unfold os_CreateTemp. destruct (prefixAndSuffix pattern). apply createTemp_loop_fresh.
Qed.

Lemma emit_stable e w : stable w (emit e w).
Proof. split; [by repeat split | apply keeps_refl]. Qed.

Lemma say_stable e : respects stable (say e).
Proof. intros w. apply emit_stable. Qed.

Lemma orFatal_stable {A} msg (m : M A) : respects stable m → respects stable (orFatal msg m).
Proof.
  intros Hm w. unfold orFatal. specialize (Hm w).
  destruct (m w) as [[a|e] w1]; [done|]. simpl in *.
  eapply stable_trans; [exact Hm | apply emit_stable].
Qed.

Section NothingLost.
Context {L : GoLib}.

(** The temporary file is the only name downloadAndUnzip removes, and that
    name did not exist before the call. *)
Lemma downloadAndUnzip_stable url name baseDir :
  respects stable (downloadAndUnzip url name baseDir).
Proof.
  intros w. unfold downloadAndUnzip.
  unfold bind at 1. unfold orWrap at 1. unfold http_Get, lift.
  destruct (net w url) as [e|resp]; [apply stable_refl|].
  unfold bind at 1. unfold orWrap at 1.
  pose proof (os_CreateTemp_stable "" "*.zip" w) as Hst1.
  destruct (os_CreateTemp "" "*.zip" w) as [[tempFile|e] w1] eqn:Hct; simpl in Hst1.
  2:{ done. }
  destruct (os_CreateTemp_ok _ _ _ _ _ Hct) as [Hpath Hrem].
  pose proof (os_CreateTemp_fresh _ _ _ _ _ Hct) as Hfresh.
  unfold defer.
  pose proof (download_body_stable tempFile resp baseDir name w1) as Hst. simpl in Hst.
  destruct (bind _ _ w1) as [r w2] eqn:Hbody. simpl in Hst.
  pose proof (removable_stable _ _ _ Hst Hrem) as Hrem2.
  pose proof (stable_trans _ _ _ Hst1 Hst) as Hst2.
  destruct Hst2 as [Henv Hk]. destruct Henv as (Hcwd & Henv).
  destruct Hrem2 as (Hne & Hp & (m & d & Hf) & (pm & pes & Hpar & Hw)). simpl in *.
  unfold os_Remove, on_fs. rewrite (locate_nonempty _ _ Hne).
  unfold remove_node. rewrite Hf, Hpar, Hw.
  destruct (resolve (cwd w2) (f_Name tempFile)) as [|c p'] eqn:Hres; [done|].
  simpl. split; [exact (conj Hcwd Henv)|]. intros q x Hq. simpl.
  destruct (Hk _ _ Hq) as (x2 & Hq2 & Hattr).
  destruct (find_upd_removed_other (c :: p') (fs w2) q _ m d Hf Hq2) as (y & Hy & Ha).
  { intros ->. rewrite Hcwd in Hres. rewrite Hres in Hfresh. congruence. }
  exists y. split; [done|]. by eapply same_attr_trans.
Qed.

Lemma processEntries_stable baseDir filterSet es c w :
  stable w (snd (processEntries baseDir filterSet es c w)).
Proof.
  revert c w. induction es as [|e es IH]; intros c w; simpl; [apply stable_refl|].
  destruct (selected filterSet e); [|apply IH].
  pose proof (downloadAndUnzip_stable (e_URL e) (e_Name e) baseDir
                (emit (PrintProcessing (e_Name e)) w)) as Hd.
  destruct (downloadAndUnzip _ _ _ _) as [[[]|err] w2]; simpl in Hd.
  - eapply stable_trans; [apply emit_stable|].
    eapply stable_trans; [exact Hd | apply IH].
  - eapply stable_trans; [apply emit_stable|].
    eapply stable_trans; [exact Hd|].
    eapply stable_trans; [apply emit_stable | apply IH].
Qed.

Lemma processURLs_stable jsonURL baseDir filterSet :
  respects stable (processURLs jsonURL baseDir filterSet).
Proof.
  unfold processURLs.
  apply stable_bind; [auto with stable_db|]. intros resp.
  apply stable_bind; [auto with stable_db|]. intros entries w.
  pose proof (processEntries_stable baseDir filterSet entries 0 w) as H.
  destruct (processEntries _ _ _ _ _) as [c w1]. simpl in *.
  eapply stable_trans; [exact H | apply emit_stable].
Qed.

Lemma concatFiles_stable dest destPath files w :
  stable w (concatFiles dest destPath files w).
Proof.
  revert w. induction files as [|file rest IH]; intros w; simpl; [apply stable_refl|].
  pose proof (os_OpenFile_stable file O_RDONLY 0 w) as H1.
  unfold os_Open. destruct (os_OpenFile file O_RDONLY 0 w) as [[src|err] w1]; simpl in H1.
  2:{ eapply stable_trans; [exact H1|].
      eapply stable_trans; [apply emit_stable | apply IH]. }
  pose proof (io_Copy_stable dest (file_Reader src w1) w1) as H2.
  destruct (io_Copy dest (file_Reader src w1) w1) as [[[]|err] w2]; simpl in H2.
  2:{ eapply stable_trans; [exact H1|]. eapply stable_trans; [exact H2|].
      eapply stable_trans; [apply emit_stable | apply IH]. }
  pose proof (file_Write_stable dest (String "010"%char "") w2) as H3.
  eapply stable_trans; [exact H1|]. eapply stable_trans; [exact H2|].
  eapply stable_trans; [exact H3 | apply IH].
Qed.

Lemma concatenateAllTxtFiles_stable baseDir outputDir :
  respects stable (concatenateAllTxtFiles baseDir outputDir).
Proof.
  intros w. unfold concatenateAllTxtFiles.
  apply stable_bind; [apply stable_orWrap, os_OpenFile_stable|].
  intros dest w1. simpl.
  eapply stable_trans; [apply concatFiles_stable | apply emit_stable].
Qed.

(** X5. Whatever the options, the index, the archives and the outcome, a run of
    main removes no file or directory that was there before it and changes
    neither the kind nor the permission bits of any of them: all it does to
    the tree is add names and change the contents of files.  The working
    directory, the umask and the rest of the environment are left alone. *)
Theorem main_removes_nothing fl : respects stable (main fl).
Proof.
  unfold main.
  destruct (help fl || _); [apply say_stable|].
  apply stable_bind; [apply orFatal_stable, os_MkdirAll_stable|]. intros _.
  apply stable_bind.
  { destruct (negb (String.eqb (companies fl) "")).
    - apply stable_bind; [apply say_stable | intros; apply stable_ret].
    - destruct (negb (String.eqb (inputFile fl) "")).
      + apply orFatal_stable, stable_lift.
      + destruct (all fl); [|apply stable_ret].
        apply stable_bind; [apply say_stable | intros; apply stable_ret]. }
  intros companySet.
  apply stable_bind; [apply orFatal_stable, processURLs_stable|]. intros _.
  apply stable_bind; [apply orFatal_stable, concatenateAllTxtFiles_stable|]. intros _.
  apply stable_ret.
Qed.

End NothingLost.

(* ===================================================================== *)
(** * The ways out of main                                                *)
(* ===================================================================== *)

Lemma os_MkdirAll_ok_dir path perm w w' :
  os_MkdirAll path perm w = (Ok tt, w') → is_dir w' path.
Proof.
  intros Hmk. unfold os_MkdirAll, on_fs in Hmk.
  destruct (locate path w) as [p|] eqn:Hloc; [|done].
  apply locate_ok in Hloc as [Hne ->].
  destruct (mkdirAll_node _ _ _ _) as [n3|] eqn:Hnode; [|done].
  inversion Hmk; subst w'; clear Hmk.
  apply mkdirAll_node_dir in Hnode as (m & es & Hdir). rewrite rev_involutive in Hdir.
  exists m, es. unfold os_Lstat. by rewrite (locate_nonempty _ _ Hne).
Qed.

Lemma is_dir_stable w w' path : stable w w' → is_dir w path → is_dir w' path.
Proof.
  intros [(Hcwd & _) Hk] (m & es & Hd). unfold is_dir, os_Lstat in *.
  destruct (locate path w) as [p|] eqn:Hloc; [|done].
  apply locate_ok in Hloc as [Hne ->].
  rewrite (locate_nonempty _ _ Hne), Hcwd.
  destruct (Hk _ _ Hd) as (y & Hy & Hattr).
  destruct y as [|m' es']; [done|]. by exists m', es'.
Qed.

Lemma last_out_emit e w : last (out (emit e w)) = Some e.
Proof. unfold emit. simpl. apply last_snoc. Qed.

Section WaysOut.
Context {L : GoLib}.

Lemma afterSelection_ok companySet w w' :
  afterSelection companySet w = (Ok tt, w') →
  stable w w'
  ∧ (∃ m d, os_Lstat "everything.txt" w' = Ok (NFile m d))
  ∧ last (out w') = Some (PrintCreated "everything.txt").
Proof.
  unfold afterSelection. unfold bind at 1. unfold orFatal at 1.
  pose proof (processURLs_stable "https://chaos-data.projectdiscovery.io/index.json"
                (Join "." "AllChaosData") companySet w) as Hst1.
  destruct (processURLs _ _ _ w) as [[[]|e] w1]; simpl in Hst1; [|done].
  unfold bind at 1. unfold orFatal at 1.
  pose proof (concatenateAllTxtFiles_stable (Join "." "AllChaosData") "." w1) as Hst2.
  destruct (concatenateAllTxtFiles _ _ w1) as [[[]|e] w2] eqn:Hcat; simpl in Hst2; [|done].
  unfold ret. intros [= <-]. split; [by eapply stable_trans|].
  unfold concatenateAllTxtFiles in Hcat.
  unfold bind at 1 in Hcat. unfold orWrap at 1 in Hcat.
  destruct (os_Create _ w1) as [[dest|e] w3] eqn:Hcr; [|done].
  apply os_Create_ok in Hcr as (Hne & Hpath & Henv & _ & (m & Hf) & _).
  inversion Hcat; subst w2; clear Hcat. split; [|apply last_out_emit].
  destruct (concatFiles_stable dest (Join "." "everything.txt")
              (findAllTxtFiles (Join "." "AllChaosData") w1) w3) as [Henv3 Hk3].
  destruct (Hk3 _ _ Hf) as (y & Hy & Hattr). destruct y as [m' d'|]; [|done].
  exists m', d'. unfold os_Lstat.
  assert (Join "." "everything.txt" = "everything.txt") as HJ by (vm_compute; reflexivity).
  rewrite HJ in *. rewrite (locate_nonempty _ _ Hne).
  change (cwd (emit _ ?x)) with (cwd x). change (fs (emit _ ?x)) with (fs x).
  destruct Henv3 as (-> & _). destruct Henv as (-> & _). by rewrite <- Hpath.
Qed.

End WaysOut.

Section MainCases.
Context {L : GoLib}.

Lemma main_unfold fl w :
  (help fl || (String.eqb (inputFile fl) "" && String.eqb (companies fl) ""
               && negb (all fl))) = false →
  main fl w
  = match os_MkdirAll (Join "." "AllChaosData") ModePerm w with
    | (Err e, w0) => (Err e, emit (LogFatal "Failed to create base directory" e) w0)
    | (Ok _, w0) =>
        match chooseCompanies fl w0 with
        | (Err e, w1) => (Err e, w1)
        | (Ok companySet, w1) => afterSelection companySet w1
        end
    end.
Proof.
  intros Hmode. unfold main. rewrite Hmode. cbv zeta.
  unfold bind at 1. unfold orFatal at 1.
  destruct (os_MkdirAll _ _ w) as [[[]|e] w0]; [|done].
  unfold bind at 1. reflexivity.
Qed.

Lemma chooseCompanies_cases fl w :
  (∃ companySet w1, chooseCompanies fl w = (Ok companySet, w1)
                    ∧ fs w1 = fs w ∧ same_env w w1)
  ∨ (∃ e, chooseCompanies fl w = (Err e, emit (LogFatal "Failed to read input file" e) w)
          ∧ companies fl = "" ∧ inputFile fl ≠ ""
          ∧ snd (readCompanyList (inputFile fl) w) = Some e).
Proof.
  unfold chooseCompanies.
  destruct (String.eqb (companies fl) "") eqn:Hc; cbn [negb]; cbv iota beta.
  2:{ left. eexists _, _. split; [reflexivity|]. split; [done | by repeat split]. }
  apply String.eqb_eq in Hc.
  destruct (String.eqb (inputFile fl) "") eqn:Hi; cbn [negb]; cbv iota beta.
  { left. destruct (all fl); eexists _, _; (split; [reflexivity|]);
      (split; [done | by repeat split]). }
  apply String.eqb_neq in Hi.
  unfold orFatal, lift; cbv beta.
  destruct (readCompanyList (inputFile fl) w) as [cs [e|]] eqn:Hr.
  - right. by exists e.
  - left. exists cs, w. split; [done|]. split; [done | by repeat split].
Qed.

Lemma afterSelection_no_index companySet w :
  (∀ resp entries,
     net w "https://chaos-data.projectdiscovery.io/index.json" = Served resp →
     json_Decode (s_data resp) ≠ Ok entries) →
  ∃ err, afterSelection companySet w
         = (Err err, emit (LogFatal "Failed to process URLs" err) w).
Proof.
  intros Hno. unfold afterSelection. unfold bind at 1. unfold orFatal at 1.
  unfold processURLs. unfold bind at 1. unfold orWrap at 1. unfold http_Get, lift.
  destruct (net w _) as [e|resp] eqn:Hnet; [by eexists|].
  unfold bind at 1. unfold orWrap at 1.
  destruct (json_Decode (s_data resp)) as [entries|e] eqn:Hdec; [|by eexists].
  by destruct (Hno _ _ eq_refl Hdec).
Qed.

(** X6. A run that is asked for something and ends without a fatal error leaves
    the base directory AllChaosData and a regular file everything.txt in the
    working directory, and the last line it prints is the notice that this
    file was created. *)
Theorem main_ok_outputs fl w w' :
  (help fl || (String.eqb (inputFile fl) "" && String.eqb (companies fl) ""
               && negb (all fl))) = false →
  main fl w = (Ok tt, w') →
  is_dir w' "AllChaosData"
  ∧ (∃ m d, os_Lstat "everything.txt" w' = Ok (NFile m d))
  ∧ last (out w') = Some (PrintCreated "everything.txt").
Proof.
  intros Hmode. rewrite (main_unfold _ _ Hmode).
  destruct (os_MkdirAll _ _ w) as [[[]|e] w0] eqn:Hmk; [|done].
  apply os_MkdirAll_ok_dir in Hmk.
  destruct (chooseCompanies_cases fl w0)
    as [(cs & w1 & -> & Hfs & Henv)|(e & -> & _)]; [|done].
  intros Hafter. apply afterSelection_ok in Hafter as (Hst & Hfile & Hlast).
  split; [|done].
  assert (Join "." "AllChaosData" = "AllChaosData") as HJ by (vm_compute; reflexivity).
  rewrite HJ in Hmk.
  eapply is_dir_stable; [exact Hst|]. eapply is_dir_stable; [|exact Hmk].
  split; [done|]. rewrite Hfs. apply keeps_refl.
Qed.

(** X7. When the index cannot be fetched or cannot be decoded, a run that is
    asked for something ends in log.Fatalf, and the tree is as the creation
    of the base directory left it: nothing is downloaded, and the combined
    file is neither created nor emptied. *)
Theorem main_without_index fl w :
  (help fl || (String.eqb (inputFile fl) "" && String.eqb (companies fl) ""
               && negb (all fl))) = false →
  (∀ resp entries,
     net w "https://chaos-data.projectdiscovery.io/index.json" = Served resp →
     json_Decode (s_data resp) ≠ Ok entries) →
  ∃ err msg,
    fst (main fl w) = Err err
    ∧ last (out (snd (main fl w))) = Some (LogFatal msg err)
    ∧ fs (snd (main fl w))
      = fs (snd (os_MkdirAll (Join "." "AllChaosData") ModePerm w)).
Proof.
  intros Hmode Hno. rewrite (main_unfold _ _ Hmode).
  pose proof (os_MkdirAll_stable (Join "." "AllChaosData") ModePerm w) as [Henv0 _].
  destruct (os_MkdirAll _ _ w) as [[[]|e] w0] eqn:Hmk; simpl in Henv0.
  2:{ exists e, "Failed to create base directory".
      cbv beta iota; cbn [fst snd]. by rewrite last_out_emit. }
  destruct (chooseCompanies_cases fl w0)
    as [(cs & w1 & -> & Hfs & Henv)|(e & -> & _)].
  2:{ exists e, "Failed to read input file".
      cbv beta iota; cbn [fst snd]. by rewrite last_out_emit. }
  destruct (afterSelection_no_index cs w1) as [err ->].
  { destruct Henv as (_ & _ & _ & -> & _). destruct Henv0 as (_ & _ & _ & -> & _). done. }
  exists err, "Failed to process URLs".
  cbv beta iota; cbn [fst snd]. rewrite last_out_emit. split; [done|]. split; [done|].
  change (fs (emit _ ?x)) with (fs x). done.
Qed.

(** X8. A name list that cannot be opened is fatal after the base directory has
    been made and before anything is fetched: the error of the open is the
    result, and the only thing added to the output is the fatal line. *)
Theorem main_name_list_missing fl w w0 err :
  help fl = false → companies fl = "" → inputFile fl ≠ "" →
  os_MkdirAll (Join "." "AllChaosData") ModePerm w = (Ok tt, w0) →
  os_Lstat (inputFile fl) w0 = Err err →
  main fl w = (Err err, emit (LogFatal "Failed to read input file" err) w0).
Proof.
  intros Hh Hc Hi Hmk Hstat.
  assert (String.eqb (inputFile fl) "" = false) as Hib by by apply String.eqb_neq.
  rewrite main_unfold; [|by rewrite Hh, Hib]. rewrite Hmk.
  unfold chooseCompanies. rewrite Hc, Hib. cbn [negb String.eqb]. cbv iota.
  unfold orFatal, lift, readCompanyList, os_Open, os_OpenFile, on_fs.
  unfold os_Lstat in Hstat. rewrite (locate_nonempty _ _ Hi) in *.
  unfold openFile_node. rewrite Hstat.
  change (hasFlag O_RDONLY O_CREATE) with false. by destruct err.
Qed.

End MainCases.

(* ===================================================================== *)
(** * What the walk gathers                                               *)
(* ===================================================================== *)

Lemma node_ind2 (P : node → Prop) :
  (∀ m d, P (NFile m d)) →
  (∀ m es, Forall (λ e, P (snd e)) es → P (NDir m es)) →
  ∀ n, P n.
Proof.
  intros Hf Hd. fix IH 1. intros [m d|m es]; [apply Hf|].
  apply Hd. induction es as [|[name child] rest IHes].
  - apply Forall_nil_2.
  - apply Forall_cons_2; [apply IH | apply IHes].
Qed.

Lemma txtFilesOf_dir path m es : txtFilesOf path (NDir m es) = txtFilesUnder path es.
Proof. simpl. induction es as [|[name child] rest IH]; [done|]. simpl. by rewrite IH. Qed.

Lemma open_tree_dir m es :
  open_tree (NDir m es) = may_read m && may_exec m && open_trees es.
Proof.
  reflexivity.
Qed.

Lemma txtFilesOf_suffix n : ∀ path,
  Forall (λ f, HasSuffix (basename f) ".txt" = true) (txtFilesOf path n).
Proof.
  induction n as [m d|m es IH] using node_ind2; intros path.
  - simpl. destruct (HasSuffix (basename path) ".txt") eqn:E.
    + by apply Forall_cons_2; [|apply Forall_nil_2].
    + apply Forall_nil_2.
  - rewrite txtFilesOf_dir. induction es as [|[name child] rest IHes]; simpl.
    + apply Forall_nil_2.
    + apply Forall_cons_1 in IH as [Hc Hrest]. apply Forall_app. split.
      * apply Hc.
      * by apply IHes.
Qed.

Lemma walk_collectTxt n : ∀ path st,
  ∃ new rest e,
    walk collectTxt path n st = (st ++ new, e)
    ∧ txtFilesOf path n = new ++ rest
    ∧ (e = None → rest = [])
    ∧ (open_tree n = true → e = None).
Proof.
  induction n as [m d|m es IH] using node_ind2; intros path st.
  - simpl. destruct (HasSuffix (basename path) ".txt") eqn:E.
    + exists [path], [], None. by rewrite app_nil_r.
    + exists [], [], None. by rewrite app_nil_r.
  - rewrite walk_dir, txtFilesOf_dir, open_tree_dir.
    destruct (may_read m) eqn:Hr; simpl.
    2:{ exists [], (txtFilesUnder path es), (Some EACCES). by rewrite app_nil_r. }
    revert st. induction es as [|[name child] rest IHes]; intros st; simpl.
    { exists [], [], None. by rewrite app_nil_r. }
    apply Forall_cons_1 in IH as [Hc Hrest]. simpl in Hc.
    destruct (may_exec m) eqn:Hx; simpl.
    2:{ exists [], (txtFilesOf (Join path name) child ++ txtFilesUnder path rest),
          (Some EACCES). by rewrite app_nil_r. }
    destruct (Hc (Join path name) st) as (new1 & rest1 & e1 & -> & -> & Hdone1 & Hopen1).
    destruct e1 as [e1|].
    { exists new1, (rest1 ++ txtFilesUnder path rest), (Some e1).
      rewrite app_assoc. repeat split; [done|].
      intros [Ho _]%andb_prop. by specialize (Hopen1 Ho). }
    rewrite (Hdone1 eq_refl), app_nil_r.
    destruct (IHes Hrest (st ++ new1)) as (new2 & rest2 & e2 & -> & -> & Hdone2 & Hopen2).
    exists (new1 ++ new2), rest2, e2. rewrite !app_assoc. repeat split; [done|].
    intros [_ Ho]%andb_prop. by apply Hopen2.
Qed.

(** X9. The list findAllTxtFiles returns is always an initial part of the list of
    the regular files named *.txt of the tree under the root, in the order of
    the directory entries.  It is the whole list when the walk ends without
    an error, and it does when every directory of the tree can be read and
    searched. *)
Theorem findAllTxtFiles_initial_part root w n :
  os_Lstat root w = Ok n →
  ∃ rest,
    txtFilesOf root n = findAllTxtFiles root w ++ rest
    ∧ (snd (Walk collectTxt root w []) = None → rest = [])
    ∧ (open_tree n = true → snd (Walk collectTxt root w []) = None).
Proof.
  intros Hstat. unfold findAllTxtFiles, Walk. rewrite Hstat.
  destruct (walk_collectTxt n root []) as (new & rest & e & -> & -> & Hdone & Hopen).
  by exists rest.
Qed.

(** X10. Every path findAllTxtFiles returns has a last element that ends in
    ".txt", in these very letters: a name in another case, such as a.TXT, is
    never returned. *)
Theorem findAllTxtFiles_suffix root w :
  Forall (λ f, HasSuffix (basename f) ".txt" = true) (findAllTxtFiles root w).
Proof.
  unfold findAllTxtFiles, Walk. destruct (os_Lstat root w) as [n|e] eqn:Hstat.
  - destruct (walk_collectTxt n root []) as (new & rest & e & -> & Hall & _).
    pose proof (txtFilesOf_suffix n root) as H. rewrite Hall in H.
    by apply Forall_app in H as [H _].
  - apply Forall_nil_2.
Qed.

(* ===================================================================== *)
(** * More error paths                                                    *)
(* ===================================================================== *)

Lemma scanTokens_stops pre l post final :
  Forall (λ l, Z.of_nat (String.length l) < MaxScanTokenSize) pre →
  MaxScanTokenSize ≤ Z.of_nat (String.length l) →
  scanTokens (pre ++ l :: post) final = (map dropCR pre, Some ErrTooLong).
Proof.
  intros Hpre Hl. induction Hpre as [|x pre Hx _ IH].
  - simpl. by destruct (Z.leb_spec MaxScanTokenSize (Z.of_nat (String.length l))); [|lia].
  - change ((x :: pre) ++ l :: post) with (x :: (pre ++ l :: post)).
    change (scanTokens (x :: (pre ++ l :: post)) final)
      with (if MaxScanTokenSize <=? Z.of_nat (String.length x)
            then ([], Some ErrTooLong)
            else let '(ts, e) := scanTokens (pre ++ l :: post) final in
                 (dropCR x :: ts, e)).
    destruct (Z.leb_spec MaxScanTokenSize (Z.of_nat (String.length x))); [lia|].
    by rewrite IH.
Qed.

Section ErrorPaths.
Context {L : GoLib}.

(** X11. A name list with a line of 65536 bytes or more: readCompanyList returns
    bufio.ErrTooLong together with the set of the names on the lines before
    that line; the lines after it are not read. *)
Theorem readCompanyList_line_too_long path w m content pre l post :
  os_Lstat path w = Ok (NFile m content) →
  may_read m = true →
  io_fault w (resolve (cwd w) path) = None →
  rawLines content = pre ++ l :: post →
  Forall (λ l, Z.of_nat (String.length l) < MaxScanTokenSize) pre →
  MaxScanTokenSize ≤ Z.of_nat (String.length l) →
  readCompanyList path w
  = (Some (list_to_set (spec_tokens (map dropCR pre))), Some ErrTooLong).
Proof.
  intros Hstat Hr Hio Hlines Hpre Hl.
  unfold os_Lstat in Hstat.
  destruct (locate path w) as [p|] eqn:Hloc; [|done].
  apply locate_ok in Hloc as [Hne ->].
  unfold readCompanyList.
  rewrite (os_Open_file _ _ _ _ Hne Hstat), Hr.
  unfold scanLines, file_Reader, read_node. simpl. rewrite Hstat, Hio. simpl.
  rewrite Hlines, (scanTokens_stops _ _ _ _ Hpre Hl).
  rewrite selection_loop. f_equal. f_equal. set_solver.
Qed.

Lemma downloadAndUnzip_refused url name baseDir w err :
  net w url = Refused err →
  downloadAndUnzip url name baseDir w = (Err (Wrap ("error downloading " +:+ url) err), w).
Proof.
  intros Hnet. unfold downloadAndUnzip. unfold bind at 1. unfold orWrap at 1.
  unfold http_Get, lift. by rewrite Hnet.
Qed.

(** X12. When every request for a selected entry is refused, the loop of
    processURLs leaves the tree exactly as it was, counts nothing, and
    changes nothing of the environment: no directory is made for an entry
    whose archive could not be requested. *)
Theorem processEntries_offline baseDir filterSet entries c w :
  (∀ e, e ∈ entries → selected filterSet e = true →
        ∃ err, net w (e_URL e) = Refused err) →
  fst (processEntries baseDir filterSet entries c w) = c
  ∧ fs (snd (processEntries baseDir filterSet entries c w)) = fs w
  ∧ rng (snd (processEntries baseDir filterSet entries c w)) = rng w
  ∧ same_env w (snd (processEntries baseDir filterSet entries c w)).
Proof.
  revert w. induction entries as [|e es IH]; intros w Hoff.
  { by repeat split. }
  simpl. destruct (selected filterSet e) eqn:Hs.
  2:{ apply IH. intros e' He'. apply Hoff. by right. }
  destruct (Hoff e) as [err Herr]; [by left | done |].
  rewrite (downloadAndUnzip_refused _ _ _ _ err) by done.
  set (w1 := emit (LogFailedProcess _ _) _).
  destruct (IH w1) as (H1 & H2 & H3 & H4).
  { intros e' He'. apply Hoff. by right. }
  split; [done|]. split; [by rewrite H2|]. split; [by rewrite H3|].
  eapply same_env_trans; [|exact H4]. by repeat split.
Qed.

Lemma unzipEntries_extracted destDir files : ∀ w w1,
  unzipEntries destDir files w = (Ok tt, w1) →
  Forall (λ f, IsDir (zf_Mode f) = false →
               Join destDir (zf_Name f) ≠ ""
               ∧ ∃ m d, find (fs w1) (resolve (cwd w1) (Join destDir (zf_Name f)))
                        = Ok (NFile m d)) files.
Proof.
  induction files as [|f rest IH]; intros w w1 Hrun; [apply Forall_nil_2|].
  destruct (IsDir (zf_Mode f)) eqn:Hd.
  - rewrite (unzipEntries_cons_dir _ _ _ _ Hd) in Hrun.
    apply Forall_cons_2; [by rewrite Hd | by eapply IH].
  - rewrite (unzipEntries_cons_file _ _ _ _ Hd) in Hrun.
    destruct (extractFile destDir f w) as [[[]|e] w0] eqn:Hx; [|done].
    apply Forall_cons_2; [|by eapply IH]. intros _.
    pose proof (extractFile_stable destDir f w) as [Henv0 _]. rewrite Hx in Henv0.
    apply extractFile_ok in Hx as (Hne & _ & _ & data & mode & _ & _ & Hfile & _).
    split; [done|].
    pose proof (unzipEntries_stable destDir rest w0) as Hst. rewrite Hrun in Hst.
    destruct Hst as [Henv1 Hk]. simpl in *.
    destruct Henv1 as (-> & _). destruct Henv0 as (-> & _).
    destruct (Hk _ _ Hfile) as (y & Hy & Hattr). destruct y as [m' d'|]; [|done].
    by exists m', d'.
Qed.

(** X13. Extraction is not undone: when the entries of the front part of an
    archive have been extracted, their files are still there when the loop
    ends, whatever happens to the entries that follow and whatever the
    result of the loop. *)
Theorem unzipEntries_keeps_extracted destDir es1 es2 w :
  fst (unzipEntries destDir es1 w) = Ok tt →
  Forall (λ f, IsDir (zf_Mode f) = false →
               ∃ m d, os_Lstat (Join destDir (zf_Name f))
                        (snd (unzipEntries destDir (es1 ++ es2) w))
                      = Ok (NFile m d)) es1.
Proof.
  intros Hok. rewrite unzipEntries_app.
  destruct (unzipEntries destDir es1 w) as [[[]|e] w1] eqn:H1; [|done].
  pose proof (unzipEntries_extracted _ _ _ _ H1) as Hall.
  pose proof (unzipEntries_stable destDir es2 w1) as [Henv Hk].
  eapply Forall_impl; [exact Hall|]. intros f Hf Hd.
  destruct (Hf Hd) as (Hne & m & d & Hfile).
  destruct (Hk _ _ Hfile) as (y & Hy & Hattr). destruct y as [m' d'|]; [|done].
  exists m', d'. unfold os_Lstat. rewrite (locate_nonempty _ _ Hne).
  destruct Henv as (-> & _). exact Hy.
Qed.

End ErrorPaths.

Section PartialResults.
Context {L : GoLib}.

(** X14. An archive that cannot be opened or extracted still leaves the directory
    of its entry behind: when downloadAndUnzip fails in unzipFile, the
    directory made for the entry exists afterwards. *)
Theorem downloadAndUnzip_failed_extraction url name baseDir w w' e :
  downloadAndUnzip url name baseDir w = (Err (Wrap "error unzipping file" e), w') →
  is_dir w' (Join baseDir name).
Proof.
  unfold downloadAndUnzip.
  unfold bind at 1. unfold orWrap at 1. unfold http_Get, lift.
  destruct (net w url) as [e0|resp].
  { intros H. injection H as H _. by destruct url. }
  unfold bind at 1. unfold orWrap at 1.
  destruct (os_CreateTemp "" "*.zip" w) as [[tempFile|e0] w1] eqn:Hct; [|done].
  destruct (os_CreateTemp_ok _ _ _ _ _ Hct) as [Hpath Hrem].
  unfold defer.
  unfold bind at 1. unfold orWrap at 1.
  pose proof (io_Copy_stable tempFile resp w1) as Hst2.
  destruct (io_Copy tempFile resp w1) as [[[]|e0] w2]; simpl in Hst2; [|by intros [=]].
  unfold bind at 1. unfold orWrap at 1.
  pose proof (os_MkdirAll_stable (Join baseDir name) ModePerm w2) as Hst3.
  destruct (os_MkdirAll (Join baseDir name) ModePerm w2) as [[[]|e0] w3] eqn:Hmk;
    simpl in Hst3.
  2:{ intros H. injection H as H _. by destruct (Join baseDir name). }
  unfold bind at 1. unfold orWrap at 1.
  pose proof (unzipFile_stable (f_Name tempFile) (Join baseDir name) w3) as Hst4.
  destruct (unzipFile (f_Name tempFile) (Join baseDir name) w3) as [[[]|e0] w4];
    simpl in Hst4; [done|].
  intros [= -> <-].
  apply os_MkdirAll_ok_dir in Hmk.
  assert (removable w4 (f_Name tempFile)) as Hrem4.
  { eapply removable_stable; [|exact Hrem].
    eapply stable_trans; [exact Hst2|]. eapply stable_trans; [exact Hst3|exact Hst4]. }
  apply (is_dir_stable _ _ _ Hst4) in Hmk as (m & es & Hdir).
  unfold os_Lstat in Hdir.
  destruct (locate (Join baseDir name) w4) as [p|] eqn:Hloc; [|done].
  apply locate_ok in Hloc as [Hne ->].
  destruct (os_Remove_file_dirs_kept _ _ Hrem4) as [E5 K5].
  destruct (K5 _ _ _ Hdir) as [es5 Hdir5].
  exists m, es5. unfold os_Lstat. rewrite (locate_nonempty _ _ Hne).
  destruct E5 as (-> & _). done.
Qed.

End PartialResults.

(* ===================================================================== *)
(** * The Concatenator and the files it reads                             *)
(* ===================================================================== *)

Lemma others_kept_refl dest w : others_kept dest w w.
Proof. by repeat split. Qed.

Lemma others_kept_trans dest w1 w2 w3 :
  others_kept dest w1 w2 → others_kept dest w2 w3 → others_kept dest w1 w3.
Proof.
  intros (C1 & I1 & K1) (C2 & I2 & K2). split; [congruence|]. split; [congruence|].
  intros q m d Hq Hf. by apply K2, K1.
Qed.

Lemma emit_others_kept dest e w : others_kept dest w (emit e w).
Proof. by repeat split. Qed.

Lemma file_Write_others_kept f data w :
  others_kept (f_path f) w (snd (file_Write f data w)).
Proof.
  split; [done|]. split; [done|]. intros q m d Hq Hf. simpl.
  by apply find_upd_file_frame; [apply mild_appended|..].
Qed.

Lemma io_Copy_others_kept f src w : others_kept (f_path f) w (snd (io_Copy f src w)).
Proof.
  unfold io_Copy. pose proof (file_Write_others_kept f (s_data src) w) as H.
  destruct (file_Write f (s_data src) w) as [r w1]. by destruct (s_err src).
Qed.

Lemma os_Open_others_kept dest name w : others_kept dest w (snd (os_Open name w)).
Proof.
  destruct (os_OpenFile_stable name O_RDONLY 0 w) as [(Hcwd & _ & _ & _ & Hio) _].
  split; [done|]. split; [done|]. intros q m d _ Hf. by rewrite os_Open_fs.
Qed.

Lemma os_Create_others_kept name w f w1 :
  os_Create name w = (Ok f, w1) → others_kept (f_path f) w w1.
Proof.
  intros (_ & _ & (Hcwd & _ & _ & _ & Hio) & _ & _ & g & Hg & Hfs)%os_Create_ok.
  split; [done|]. split; [done|]. intros q m d Hq Hf. rewrite Hfs.
  by apply find_upd_file_frame.
Qed.

Lemma others_kept_piece dest w w' file :
  others_kept dest w w' → source_of w dest file →
  source_of w' dest file ∧ piece w' file = piece w file.
Proof.
  intros (Hcwd & Hio & Hk) (Hne & Hneq & m & data & Hfile). split.
  - split; [done|]. rewrite Hcwd. split; [done|]. exists m, data. by apply Hk.
  - unfold piece. rewrite Hcwd, Hio, (Hk _ _ _ Hneq Hfile). by rewrite Hfile.
Qed.

Section ConcatMore.
Context {L : GoLib}.

Lemma concatFiles_others_kept dest destPath files w :
  others_kept (f_path dest) w (concatFiles dest destPath files w).
Proof.
  revert w. induction files as [|file rest IH]; intros w; simpl;
    [apply others_kept_refl|].
  pose proof (os_Open_others_kept (f_path dest) file w) as H1.
  destruct (os_Open file w) as [[src|err] w1]; simpl in H1.
  2:{ eapply others_kept_trans; [exact H1|].
      eapply others_kept_trans; [apply emit_others_kept | apply IH]. }
  pose proof (io_Copy_others_kept dest (file_Reader src w1) w1) as H2.
  destruct (io_Copy dest (file_Reader src w1) w1) as [[[]|err] w2]; simpl in H2.
  2:{ eapply others_kept_trans; [exact H1|]. eapply others_kept_trans; [exact H2|].
      eapply others_kept_trans; [apply emit_others_kept | apply IH]. }
  pose proof (file_Write_others_kept dest (String "010"%char "") w2) as H3.
  eapply others_kept_trans; [exact H1|]. eapply others_kept_trans; [exact H2|].
  eapply others_kept_trans; [exact H3 | apply IH].
Qed.

Lemma concatenate_others_kept baseDir outputDir w r w' :
  concatenateAllTxtFiles baseDir outputDir w = (r, w') →
  others_kept (resolve (cwd w) (Join outputDir "everything.txt")) w w'.
Proof.
  unfold concatenateAllTxtFiles. unfold bind, orWrap.
  destruct (os_Create _ w) as [[dest|e] w1] eqn:Hcr.
  - intros [= <- <-]. pose proof (os_Create_others_kept _ _ _ _ Hcr) as H1.
    apply os_Create_ok in Hcr as (_ & Hpath & _). rewrite <- Hpath.
    eapply others_kept_trans; [exact H1|].
    eapply others_kept_trans; [apply concatFiles_others_kept | apply emit_others_kept].
  - intros [= <- <-]. unfold os_Create in Hcr. apply os_OpenFile_failed in Hcr.
    subst w1. apply others_kept_refl.
Qed.

(** X15. The Concatenator changes no file but the combined one: whatever its
    result, every other regular file has the mode and the content it had. *)
Theorem concatenate_changes_one_file baseDir outputDir w q m d :
  q ≠ resolve (cwd w) (Join outputDir "everything.txt") →
  find (fs w) q = Ok (NFile m d) →
  find (fs (snd (concatenateAllTxtFiles baseDir outputDir w))) q = Ok (NFile m d).
Proof.
  intros Hq Hf.
  destruct (concatenateAllTxtFiles baseDir outputDir w) as [r w'] eqn:Hrun.
  apply concatenate_others_kept in Hrun as (_ & _ & Hk). by apply Hk.
Qed.

(** X16. The combined file does not grow from run to run: when the Concatenator
    succeeds, and then runs again and finds the same files, the combined file
    has the same content after the second run as after the first. *)
Theorem concatenate_again baseDir outputDir w w1 w2 :
  Forall (source_of w (resolve (cwd w) (Join outputDir "everything.txt")))
         (findAllTxtFiles baseDir w) →
  concatenateAllTxtFiles baseDir outputDir w = (Ok tt, w1) →
  findAllTxtFiles baseDir w1 = findAllTxtFiles baseDir w →
  concatenateAllTxtFiles baseDir outputDir w1 = (Ok tt, w2) →
  contentOf w2 (Join outputDir "everything.txt")
  = contentOf w1 (Join outputDir "everything.txt").
Proof.
  intros Hsrc Hrun1 Hsame Hrun2.
  pose proof (concatenate_others_kept _ _ _ _ _ Hrun1) as Hk.
  destruct (concatenate_spec _ _ _ _ Hsrc Hrun1) as [-> _].
  assert (Forall (source_of w1 (resolve (cwd w1) (Join outputDir "everything.txt")))
                 (findAllTxtFiles baseDir w1)) as Hsrc1.
  { rewrite Hsame. pose proof Hk as (Hcwd & _). rewrite Hcwd.
    eapply Forall_impl; [exact Hsrc|]. intros x Hx.
    by destruct (others_kept_piece _ _ _ _ Hk Hx). }
  destruct (concatenate_spec _ _ _ _ Hsrc1 Hrun2) as [-> _].
  rewrite Hsame. f_equal. f_equal. apply map_ext_in. intros x Hx.
  apply list_elem_of_In in Hx. rewrite Forall_forall in Hsrc.
  by destruct (others_kept_piece _ _ _ _ Hk (Hsrc x Hx)).
Qed.

End ConcatMore.

(* ===================================================================== *)
(** * getCompanyNames                                                     *)
(* ===================================================================== *)

Lemma getCompanyNames_keys keys : getCompanyNames keys = keys.
Proof.
  unfold getCompanyNames.
  assert (∀ acc, foldl (λ names name, names ++ [name]) acc keys = acc ++ keys) as H.
  { induction keys as [|k keys IH]; intros acc; simpl; [by rewrite app_nil_r|].
    by rewrite IH, <- app_assoc. }
  apply H.
Qed.

Section Names.
Context {L : GoLib}.

(** X17. The slice getCompanyNames builds from the set of a comma-separated
    list, which main prints after "Selected companies", holds the lowercased
    forms of the trimmed, non-empty names of the list, each exactly once,
    whatever the order in which the map is ranged over. *)
Theorem getCompanyNames_of_list input keys :
  rangeOf (parseCompanyNames input) keys →
  NoDup (getCompanyNames keys)
  ∧ length (getCompanyNames keys) = size (parseCompanyNames input)
  ∧ ∀ x, x ∈ getCompanyNames keys
         ↔ ∃ t, t ∈ Split input ","%char ∧ TrimSpace t ≠ ""
                ∧ x = ToLower (TrimSpace t).
Proof.
  intros [Hnd Hin]. rewrite getCompanyNames_keys. split; [done|]. split.
  - assert (keys ≡ₚ elements (parseCompanyNames input)) as ->; [|done].
    apply NoDup_Permutation; [done | apply NoDup_elements|].
    intros x. rewrite Hin. by rewrite elem_of_elements.
  - intros x. rewrite Hin, parseCompanyNames_spec. unfold spec_selection_of_string.
    by rewrite elem_of_list_to_set, elem_of_spec_tokens.
Qed.

End Names.

(* ===================================================================== *)
(** * chaos.go and the later program                                      *)
(* ===================================================================== *)

Lemma alike_refl w : alike w w.
Proof. by repeat split. Qed.

Lemma alike_trans w1 w2 w3 : alike w1 w2 → alike w2 w3 → alike w1 w3.
Proof.
  intros (A1 & A2 & A3 & A4 & A5 & A6 & A7 & A8) (B1 & B2 & B3 & B4 & B5 & B6 & B7 & B8).
  repeat split; congruence.
Qed.

Lemma alike_sym w1 w2 : alike w1 w2 → alike w2 w1.
Proof. intros (A1 & A2 & A3 & A4 & A5 & A6 & A7 & A8). by repeat split. Qed.

Lemma alike_emit e w w' : alike w w' → alike (emit e w) (emit e w').
Proof.
  intros (A1 & A2 & A3 & A4 & A5 & A6 & A7 & A8). repeat split; try done.
  simpl. by rewrite !List.filter_app, A8.
Qed.

Lemma alike_emit_l e w w' : shared e = false → alike w w' → alike (emit e w) w'.
Proof.
  intros He (A1 & A2 & A3 & A4 & A5 & A6 & A7 & A8). repeat split; try done.
  simpl. rewrite List.filter_app, A8. simpl. rewrite He. by rewrite app_nil_r.
Qed.

(** Two alike worlds are the same world but for the output. *)
Lemma alike_inv w w' :
  alike w w' →
  w' = World (fs w) (cwd w) (umask w) (tmpdir w) (rng w) (net w) (io_fault w) (out w').
Proof.
  destruct w, w'. intros (A1 & A2 & A3 & A4 & A5 & A6 & A7 & A8). simpl in *. by subst.
Qed.

Ltac two_worlds w w' H :=
  destruct w as [? ? ? ? ? ? ? ?], w' as [? ? ? ? ? ? ? ?];
  destruct H as (? & ? & ? & ? & ? & ? & ? & H); simpl in *; subst.

Lemma blind_ret {A} (a : A) : blind (ret a).
Proof. by intros w w' H. Qed.

Lemma blind_bind {A B} (m : M A) (k : A → M B) :
  blind m → (∀ a, blind (k a)) → blind (bind m k).
Proof.
  intros Hm Hk w w' H. unfold bind. destruct (Hm w w' H) as [Hr Hw].
  destruct (m w) as [[a|e] w1], (m w') as [[a'|e'] w1']; simpl in *; try done.
  - inversion Hr; subst a'. by apply Hk.
  - inversion Hr; subst e'. by split.
Qed.

Lemma blind_orWrap {A} msg (m : M A) : blind m → blind (orWrap msg m).
Proof.
  intros Hm w w' H. unfold orWrap. destruct (Hm w w' H) as [Hr Hw].
  destruct (m w) as [[a|e] w1], (m w') as [[a'|e'] w1']; simpl in *; try done.
  inversion Hr; subst e'. done.
Qed.

Lemma blind_orFatal {A} msg (m : M A) : blind m → blind (orFatal msg m).
Proof.
  intros Hm w w' H. unfold orFatal. destruct (Hm w w' H) as [Hr Hw].
  destruct (m w) as [[a|e] w1], (m w') as [[a'|e'] w1']; simpl in *; try done.
  inversion Hr; subst e'. split; [done|]. by apply alike_emit.
Qed.

Lemma blind_defer {A B} (cleanup : M B) (body : M A) :
  blind body → blind cleanup → blind (defer cleanup body).
Proof.
  intros Hb Hc w w' H. unfold defer. destruct (Hb w w' H) as [Hr Hw].
  destruct (body w) as [r1 w1], (body w') as [r1' w1']; simpl in *.
  split; [done|]. by apply Hc.
Qed.

Lemma blind_lift {A} (r : world → result A) :
  (∀ w w', alike w w' → r w' = r w) → blind (lift r).
Proof. intros Hr w w' H. unfold lift. simpl. split; [by apply Hr | done]. Qed.

Lemma blind_say e : blind (say e).
Proof. intros w w' H. split; [done|]. by apply alike_emit. Qed.

Lemma blind_on_fs path op : blind (on_fs path op).
Proof.
  intros w w' H. two_worlds w w' H. unfold on_fs, locate. simpl.
  destruct (String.eqb path ""); [by repeat split|].
  destruct (op _ _); by repeat split.
Qed.

Lemma blind_os_MkdirAll path perm : blind (os_MkdirAll path perm).
Proof.
  intros w w' H. unfold os_MkdirAll.
  pose proof H as (_ & _ & -> & _). by apply blind_on_fs.
Qed.

Lemma blind_os_OpenFile name flag perm : blind (os_OpenFile name flag perm).
Proof.
  intros w w' H. unfold os_OpenFile.
  pose proof H as (_ & -> & -> & _).
  destruct (blind_on_fs name (openFile_node (umask w) flag perm) w w' H) as [Hr Hw].
  destruct (on_fs _ _ w) as [[a|e] w1], (on_fs _ _ w') as [[a'|e'] w1'];
    simpl in *; try done.
  inversion Hr; by subst.
Qed.

Lemma blind_file_Write f data : blind (file_Write f data).
Proof. intros w w' H. two_worlds w w' H. by repeat split. Qed.

Lemma blind_io_Copy dst src : blind (io_Copy dst src).
Proof.
  intros w w' H. two_worlds w w' H. unfold io_Copy. simpl.
  destruct (s_err src); by repeat split.
Qed.

Lemma blind_createTemp_loop tries prefix suffix :
  blind (createTemp_loop tries prefix suffix).
Proof.
  induction tries as [|tries IH]; intros w w' H; simpl.
  - pose proof H as (_ & _ & _ & _ & -> & _).
    destruct (blind_os_OpenFile
                (prefix +:+ NilZero.string_of_uint (Nat.to_uint (rng w)) +:+ suffix)
                (Z.lor O_RDWR (Z.lor O_CREATE O_EXCL)) 384
                (set_rng (S (rng w)) w) (set_rng (S (rng w)) w')) as [Hr Hw].
    { destruct H as (A1 & A2 & A3 & A4 & A5 & A6 & A7 & A8). by repeat split. }
    destruct (os_OpenFile _ _ _ (set_rng _ w)) as [[a|e] w1],
             (os_OpenFile _ _ _ (set_rng _ w')) as [[a'|e'] w1']; simpl in *; try done.
    inversion Hr; subst e'. by destruct e.
  - pose proof H as (_ & _ & _ & _ & -> & _).
    destruct (blind_os_OpenFile
                (prefix +:+ NilZero.string_of_uint (Nat.to_uint (rng w)) +:+ suffix)
                (Z.lor O_RDWR (Z.lor O_CREATE O_EXCL)) 384
                (set_rng (S (rng w)) w) (set_rng (S (rng w)) w')) as [Hr Hw].
    { destruct H as (A1 & A2 & A3 & A4 & A5 & A6 & A7 & A8). by repeat split. }
    destruct (os_OpenFile _ _ _ (set_rng _ w)) as [[a|e] w1],
             (os_OpenFile _ _ _ (set_rng _ w')) as [[a'|e'] w1']; simpl in *; try done.
    inversion Hr; subst e'. destruct e; try done. by apply IH.
Qed.

Lemma blind_os_CreateTemp dir pattern : blind (os_CreateTemp dir pattern).
Proof.
  intros w w' H. unfold os_CreateTemp. pose proof H as (_ & _ & _ & -> & _).
  destruct (prefixAndSuffix pattern). by apply blind_createTemp_loop.
Qed.

Lemma blind_http_Get url : blind (http_Get url).
Proof. apply blind_lift. by intros w w' (_ & _ & _ & _ & _ & -> & _). Qed.

Lemma blind_os_Remove name : blind (os_Remove name).
Proof. apply blind_on_fs. Qed.

Lemma alike_file_Reader f w w' : alike w w' → file_Reader f w' = file_Reader f w.
Proof. intros H. two_worlds w w' H. done. Qed.

Lemma alike_os_Lstat path w w' : alike w w' → os_Lstat path w' = os_Lstat path w.
Proof. intros H. two_worlds w w' H. done. Qed.

Create HintDb blind_db.
#[export] Hint Resolve blind_ret blind_bind blind_orWrap blind_orFatal blind_defer
  blind_say blind_os_MkdirAll blind_os_OpenFile blind_file_Write blind_io_Copy
  blind_os_CreateTemp blind_http_Get blind_os_Remove : blind_db.

Section TwoPrograms.
Context {L : GoLib}.

Lemma blind_zip_OpenReader name : blind (zip_OpenReader name).
Proof.
  unfold zip_OpenReader, os_Open. apply blind_bind; [auto with blind_db|].
  intros f w w' H. rewrite (alike_file_Reader f w w' H).
  by destruct (s_err _).
Qed.

Lemma blind_unzipEntries destDir files : blind (unzipEntries destDir files).
Proof.
  induction files as [|f rest IH]; simpl; [auto with blind_db|].
  destruct (IsDir (zf_Mode f)).
  - intros w w' H. apply IH. by apply blind_os_MkdirAll.
  - apply blind_bind; [auto with blind_db|]. intros _.
    apply blind_bind; [auto with blind_db|]. intros outFile.
    apply blind_bind; [apply blind_orWrap, blind_lift; done|]. intros rc.
    apply blind_bind; [auto with blind_db|]. intros _. exact IH.
Qed.

Lemma blind_unzipFile zipFile destDir : blind (unzipFile zipFile destDir).
Proof.
  unfold unzipFile. apply blind_bind.
  - apply blind_orWrap, blind_zip_OpenReader.
  - intros. apply blind_unzipEntries.
Qed.

Lemma blind_downloadAndUnzip url name baseDir : blind (downloadAndUnzip url name baseDir).
Proof.
  unfold downloadAndUnzip.
  apply blind_bind; [auto with blind_db|]. intros resp.
  apply blind_bind; [auto with blind_db|]. intros tempFile.
  apply blind_defer; [|auto with blind_db].
  apply blind_bind; [auto with blind_db|]. intros _.
  apply blind_bind; [auto with blind_db|]. intros _.
  apply blind_bind; [apply blind_orWrap, blind_unzipFile|]. intros _.
  apply blind_ret.
Qed.

(** The two loops over the index do the same but for the count. *)
Lemma processEntries_alike baseDir filterSet entries c w w' :
  alike w w' →
  alike (snd (processEntries baseDir filterSet entries c w))
        (ChaosGo.processEntries baseDir filterSet entries w').
Proof.
  revert c w w'. induction entries as [|e es IH]; intros c w w' H; simpl; [done|].
  destruct (selected filterSet e); [|by apply IH].
  destruct (blind_downloadAndUnzip (e_URL e) (e_Name e) baseDir
              (emit (PrintProcessing (e_Name e)) w)
              (emit (PrintProcessing (e_Name e)) w')) as [Hr Hw].
  { by apply alike_emit. }
  destruct (downloadAndUnzip _ _ _ (emit _ w)) as [[[]|err] w2],
           (downloadAndUnzip _ _ _ (emit _ w')) as [[[]|err'] w2']; simpl in *; try done.
  - by apply IH.
  - inversion Hr; subst err'. by apply IH, alike_emit.
Qed.

Lemma processURLs_cases jsonURL baseDir filterSet w :
  processURLs jsonURL baseDir filterSet w
  = match net w jsonURL with
    | Refused e => (Err (Wrap "error fetching JSON index" e), w)
    | Served resp =>
        match json_Decode (s_data resp) with
        | Err e => (Err (Wrap "error decoding JSON index" e), w)
        | Ok entries =>
            (Ok tt,
             emit (PrintCompleted (fst (processEntries baseDir filterSet entries 0 w)))
                  (snd (processEntries baseDir filterSet entries 0 w)))
        end
    end.
Proof.
  unfold processURLs, bind, orWrap, http_Get, lift.
  destruct (net w jsonURL) as [e|resp]; [done|].
  destruct (json_Decode (s_data resp)) as [entries|e]; [|done].
  by destruct (processEntries _ _ _ _ _).
Qed.

Lemma chaos_go_processURLs_cases jsonURL baseDir filterSet w :
  ChaosGo.processURLs jsonURL baseDir filterSet w
  = match net w jsonURL with
    | Refused e => (Err (Wrap "error fetching JSON index" e), w)
    | Served resp =>
        match json_Decode (s_data resp) with
        | Err e => (Err (Wrap "error decoding JSON index" e), w)
        | Ok entries => (Ok tt, ChaosGo.processEntries baseDir filterSet entries w)
        end
    end.
Proof.
  unfold ChaosGo.processURLs, bind, orWrap, http_Get, lift.
  destruct (net w jsonURL) as [e|resp]; [done|].
  by destruct (json_Decode (s_data resp)) as [entries|e].
Qed.

Lemma processURLs_alike jsonURL baseDir filterSet w w' :
  alike w w' →
  fst (ChaosGo.processURLs jsonURL baseDir filterSet w')
  = fst (processURLs jsonURL baseDir filterSet w)
  ∧ alike (snd (processURLs jsonURL baseDir filterSet w))
          (snd (ChaosGo.processURLs jsonURL baseDir filterSet w')).
Proof.
  intros H. rewrite processURLs_cases, chaos_go_processURLs_cases.
  pose proof H as (_ & _ & _ & _ & _ & -> & _).
  destruct (net w jsonURL) as [e|resp]; [done|].
  destruct (json_Decode (s_data resp)) as [entries|e]; [|done].
  pose proof (processEntries_alike baseDir filterSet entries 0 w w' H) as Hl.
  destruct (processEntries _ _ _ _ w) as [n w1]. simpl in *.
  split; [done|]. by apply alike_emit_l.
Qed.

Lemma alike_readCompanyList path w w' :
  alike w w' → readCompanyList path w' = readCompanyList path w.
Proof.
  intros H. unfold readCompanyList.
  destruct (blind_os_OpenFile path O_RDONLY 0 w w' H) as [Hr Hw]. unfold os_Open.
  destruct (os_OpenFile path O_RDONLY 0 w) as [[f|e] w1],
           (os_OpenFile path O_RDONLY 0 w') as [[f'|e'] w1']; simpl in *; try done.
  - inversion Hr; subst f'. by rewrite (alike_file_Reader f w w' H).
  - by inversion Hr.
Qed.

Lemma alike_findAllTxtFiles root w w' :
  alike w w' → findAllTxtFiles root w' = findAllTxtFiles root w.
Proof.
  intros H. unfold findAllTxtFiles, Walk. by rewrite (alike_os_Lstat root w w' H).
Qed.

Lemma concatFiles_alike dest destPath files w w' :
  alike w w' →
  alike (concatFiles dest destPath files w) (concatFiles dest destPath files w').
Proof.
  revert w w'. induction files as [|file rest IH]; intros w w' H; simpl; [done|].
  destruct (blind_os_OpenFile file O_RDONLY 0 w w' H) as [Hr Hw]. unfold os_Open.
  destruct (os_OpenFile file O_RDONLY 0 w) as [[src|e] w1],
           (os_OpenFile file O_RDONLY 0 w') as [[src'|e'] w1']; simpl in *; try done.
  2:{ inversion Hr; subst e'. by apply IH, alike_emit. }
  inversion Hr; subst src'. rewrite (alike_file_Reader src w1 w1' Hw).
  destruct (blind_io_Copy dest (file_Reader src w1) w1 w1' Hw) as [Hr2 Hw2].
  destruct (io_Copy dest (file_Reader src w1) w1) as [[[]|e] w2],
           (io_Copy dest (file_Reader src w1) w1') as [[[]|e'] w2']; simpl in *; try done.
  - apply IH. by apply blind_file_Write.
  - inversion Hr2; subst e'. by apply IH, alike_emit.
Qed.

Lemma blind_concatenateAllTxtFiles baseDir outputDir :
  blind (concatenateAllTxtFiles baseDir outputDir).
Proof.
  intros w w' H. unfold concatenateAllTxtFiles.
  rewrite (alike_findAllTxtFiles baseDir w w' H).
  unfold bind, orWrap.
  destruct (blind_os_OpenFile (Join outputDir "everything.txt")
              (Z.lor O_RDWR (Z.lor O_CREATE O_TRUNC)) 438 w w' H) as [Hr Hw].
  unfold os_Create.
  destruct (os_OpenFile _ _ _ w) as [[dest|e] w1],
           (os_OpenFile _ _ _ w') as [[dest'|e'] w1']; simpl in *; try done.
  - inversion Hr; subst dest'. split; [done|]. by apply alike_emit, concatFiles_alike.
  - inversion Hr; subst e'. done.
Qed.

Lemma bind_orFatal_cases {A B} msg (m : M A) (k : A → M B) w :
  bind (orFatal msg m) k w
  = match m w with
    | (Ok a, w1) => k a w1
    | (Err e, w1) => (Err e, emit (LogFatal msg e) w1)
    end.
Proof. unfold bind, orFatal. by destruct (m w) as [[a|e] w1]. Qed.

Lemma afterSelection_alike companySet w w' :
  alike w w' →
  fst (ChaosGo.afterSelection companySet w') = fst (afterSelection companySet w)
  ∧ alike (snd (afterSelection companySet w)) (snd (ChaosGo.afterSelection companySet w')).
Proof.
  intros H. unfold afterSelection, ChaosGo.afterSelection.
  rewrite 2 bind_orFatal_cases.
  destruct (processURLs_alike "https://chaos-data.projectdiscovery.io/index.json"
              (Join "." "AllChaosData") companySet w w' H) as [Hr Hw].
  destruct (processURLs _ _ _ w) as [[[]|e] w2],
           (ChaosGo.processURLs _ _ _ w') as [[[]|e'] w2']; simpl in *; try done.
  - apply blind_bind; [apply blind_orFatal, blind_concatenateAllTxtFiles| |done].
    intros; apply blind_ret.
  - inversion Hr; subst e'. split; [done|]. by apply alike_emit.
Qed.

Lemma chaos_go_main_unfold inputFile w :
  ChaosGo.main inputFile w
  = match os_MkdirAll (Join "." "AllChaosData") ModePerm w with
    | (Err e, w0) => (Err e, emit (LogFatal "Failed to create base directory" e) w0)
    | (Ok _, w0) =>
        match (if negb (String.eqb inputFile "") then
                 orFatal "Failed to read input file"
                   (lift (fun w => match readCompanyList inputFile w with
                                   | (_, Some err) => Err err
                                   | (companySet, None) => Ok companySet
                                   end))
               else ret None) w0 with
        | (Err e, w1) => (Err e, w1)
        | (Ok companySet, w1) => ChaosGo.afterSelection companySet w1
        end
    end.
Proof.
  unfold ChaosGo.main. cbv zeta. unfold bind at 1. unfold orFatal at 1.
  destruct (os_MkdirAll _ _ w) as [[[]|e] w0]; [|done].
  unfold bind at 1. reflexivity.
Qed.

(** X18. chaos.go with the option -i (or without any) does what the later program
    does with the same -i and without -c (or with -a): the two runs end with
    the same result and in the same world (the same tree, the same
    environment); the one difference is that chaos.go does not print the
    notices "Downloading all available companies..." and "Completed
    processing N companies." *)
Theorem chaos_go_main_alike fl w :
  help fl = false → companies fl = "" →
  (inputFile fl = "" → all fl = true) →
  fst (ChaosGo.main (inputFile fl) w) = fst (main fl w)
  ∧ alike (snd (main fl w)) (snd (ChaosGo.main (inputFile fl) w)).
Proof.
  intros Hh Hc Ha.
  assert (help fl || (String.eqb (inputFile fl) "" && String.eqb (companies fl) ""
                      && negb (all fl)) = false) as Hmode.
  { rewrite Hh, Hc. simpl. destruct (String.eqb (inputFile fl) "") eqn:Hi; [|done].
    apply String.eqb_eq in Hi. by rewrite (Ha Hi). }
  rewrite (main_unfold _ _ Hmode), chaos_go_main_unfold.
  destruct (os_MkdirAll _ _ w) as [[[]|e] w0]; [|done].
  unfold chooseCompanies. rewrite Hc. cbn [String.eqb negb]. cbv iota.
  destruct (String.eqb (inputFile fl) "") eqn:Hi; cbn [negb]; cbv iota.
  - apply String.eqb_eq in Hi. rewrite (Ha Hi). unfold bind, say, ret.
    apply afterSelection_alike. apply alike_emit_l; [done | apply alike_refl].
  - unfold orFatal, lift.
    destruct (readCompanyList (inputFile fl) w0) as [cs [e|]]; [done|].
    apply afterSelection_alike, alike_refl.
Qed.

End TwoPrograms.

(* ===================================================================== *)
(** * The properties above at sample worlds                               *)
(* ===================================================================== *)

Lemma pair_of_fst {A B} (p : A * B) (a : A) : fst p = a → p = (a, snd p).
Proof. destruct p. simpl. by intros ->. Qed.

(** No entry of the index Tesla, Acme, Google is called nobody. *)
Lemma processURLs_no_match_witness :
  processURLs (L:=Sample.lib) Sample.indexURL "AllChaosData"
    (Some (parseCompanyNames (L:=Sample.lib) "nobody")) Sample.w0
  = (Ok tt, emit (PrintCompleted 0) Sample.w0).
Proof.
  apply (processURLs_no_match (L:=Sample.lib) "AllChaosData" Sample.indexURL
           (parseCompanyNames (L:=Sample.lib) "nobody") Sample.w0
           (Stream "IDX" None) Sample.index3).
  - vm_compute. reflexivity.
  - vm_compute. reflexivity.
  - intros e He. apply (proj1 (bool_decide_eq_false _)).
    unfold Sample.index3 in He. rewrite !elem_of_cons in He.
    destruct He as [->|[->|[->|He]]]; [vm_compute; reflexivity..|].
    by apply elem_of_nil in He.
Defined.

(** A run with -a over the index Tesla, Acme, Google. *)
Lemma main_ok_outputs_witness :
  let w' := snd (main (L:=Sample.lib) (mkFlags "" "" true false) Sample.w0) in
  is_dir w' "AllChaosData"
  ∧ (∃ m d, os_Lstat "everything.txt" w' = Ok (NFile m d))
  ∧ last (out w') = Some (PrintCreated "everything.txt").
Proof.
  intros w'.
  assert (fst (main (L:=Sample.lib) (mkFlags "" "" true false) Sample.w0) = Ok tt) as H
    by (vm_compute; reflexivity).
  apply (main_ok_outputs (L:=Sample.lib) (mkFlags "" "" true false) Sample.w0 w').
  - reflexivity.
  - exact (pair_of_fst _ _ H).
Defined.

(** A run with -a without a network. *)
Lemma main_without_index_witness :
  ∃ err msg,
    fst (main (L:=Sample.lib) (mkFlags "" "" true false) Cases.w_offline) = Err err
    ∧ last (out (snd (main (L:=Sample.lib) (mkFlags "" "" true false) Cases.w_offline)))
      = Some (LogFatal msg err)
    ∧ fs (snd (main (L:=Sample.lib) (mkFlags "" "" true false) Cases.w_offline))
      = fs (snd (os_MkdirAll (Join "." "AllChaosData") ModePerm Cases.w_offline)).
Proof.
  apply (main_without_index (L:=Sample.lib) (mkFlags "" "" true false) Cases.w_offline).
  - reflexivity.
  - intros resp entries H. vm_compute in H. discriminate H.
Defined.

(** A run with -i names.txt where there is no such file. *)
Lemma main_name_list_missing_witness :
  main (L:=Sample.lib) (mkFlags "names.txt" "" false false) Sample.w0
  = (Err ENOENT, emit (LogFatal "Failed to read input file" ENOENT) Sample.w0).
Proof.
  apply (main_name_list_missing (L:=Sample.lib) (mkFlags "names.txt" "" false false)
           Sample.w0 Sample.w0 ENOENT).
  - reflexivity.
  - reflexivity.
  - intros [=].
  - vm_compute. reflexivity.
  - vm_compute. reflexivity.
Defined.

(** The walk of a tree whose second directory cannot be listed. *)
Lemma findAllTxtFiles_initial_part_witness :
  ∃ rest,
    txtFilesOf "AllChaosData" Cases.closedTree
    = findAllTxtFiles "AllChaosData" Sample.w_closed ++ rest
    ∧ (snd (Walk collectTxt "AllChaosData" Sample.w_closed []) = None → rest = [])
    ∧ (open_tree Cases.closedTree = true
       → snd (Walk collectTxt "AllChaosData" Sample.w_closed []) = None).
Proof.
  apply (findAllTxtFiles_initial_part "AllChaosData" Sample.w_closed Cases.closedTree).
  vm_compute. reflexivity.
Defined.

Lemma Split_repeatByte n c sep :
  Ascii.eqb c sep = false → Split (Cases.repeatByte n c) sep = [Cases.repeatByte n c].
Proof.
  intros Hc. induction n as [|n IH]; [done|].
  change (Cases.repeatByte (S n) c) with (String c (Cases.repeatByte n c)).
  change (Split (String c (Cases.repeatByte n c)) sep)
    with (if Ascii.eqb c sep then "" :: Split (Cases.repeatByte n c) sep
          else match Split (Cases.repeatByte n c) sep with
               | t :: ts => String c t :: ts
               | [] => [String c ""]
               end).
  by rewrite Hc, IH.
Qed.

Lemma length_repeatByte n c : String.length (Cases.repeatByte n c) = n.
Proof. induction n as [|n IH]; [done|]. simpl. by rewrite IH. Qed.

(** A name list whose second line has 65536 bytes. *)
Lemma readCompanyList_line_too_long_witness :
  readCompanyList (L:=Sample.lib) "names.txt" Cases.w_long
  = (Some (list_to_set (spec_tokens (L:=Sample.lib) (map dropCR ["Tesla"]))),
     Some ErrTooLong).
Proof.
  apply (readCompanyList_line_too_long (L:=Sample.lib) "names.txt" Cases.w_long 420
           Cases.longList ["Tesla"] Cases.longLine ["Google"]).
  - reflexivity.
  - reflexivity.
  - reflexivity.
  - unfold rawLines, Cases.longList.
    change ("Tesla" +:+ LF +:+ Cases.longLine +:+ LF +:+ "Google" +:+ LF)
      with ("Tesla" +:+ String "010"%char
              (Cases.longLine +:+ String "010"%char ("Google" +:+ String "010"%char ""))).
    rewrite !Split_append. unfold Cases.longLine.
    rewrite Split_repeatByte by reflexivity. reflexivity.
  - apply Forall_cons_2; [vm_compute; reflexivity | apply Forall_nil_2].
  - unfold Cases.longLine. rewrite length_repeatByte. rewrite Z2Nat.id; [lia | done].
Defined.

(** The index Tesla, Acme, Google without a network. *)
Lemma processEntries_offline_witness :
  fst (processEntries (L:=Sample.lib) "AllChaosData" None Sample.index3 0 Cases.w_offline)
  = 0%nat
  ∧ fs (snd (processEntries (L:=Sample.lib) "AllChaosData" None Sample.index3 0
               Cases.w_offline)) = fs Cases.w_offline
  ∧ rng (snd (processEntries (L:=Sample.lib) "AllChaosData" None Sample.index3 0
                Cases.w_offline)) = rng Cases.w_offline
  ∧ same_env Cases.w_offline
      (snd (processEntries (L:=Sample.lib) "AllChaosData" None Sample.index3 0
              Cases.w_offline)).
Proof.
  apply (processEntries_offline (L:=Sample.lib) "AllChaosData" None Sample.index3 0%nat
           Cases.w_offline).
  intros e _ _. eexists. reflexivity.
Defined.

(** The archive whose second entry is corrupt: a.txt stays. *)
Lemma unzipEntries_keeps_extracted_witness :
  Forall (λ f, IsDir (zf_Mode f) = false →
               ∃ m d, os_Lstat (Join "AllChaosData/Cut" (zf_Name f))
                        (snd (unzipEntries "AllChaosData/Cut"
                                ([Sample.plain "a.txt" "A"]
                                 ++ [mkZipFile "b.txt" 420 (Ok (Stream "B" (Some ErrFormat)));
                                     Sample.plain "c.txt" "C"]) Sample.w0))
                      = Ok (NFile m d))
         [Sample.plain "a.txt" "A"].
Proof.
  apply (unzipEntries_keeps_extracted "AllChaosData/Cut" [Sample.plain "a.txt" "A"]
           [mkZipFile "b.txt" 420 (Ok (Stream "B" (Some ErrFormat)));
            Sample.plain "c.txt" "C"] Sample.w0).
  vm_compute. reflexivity.
Defined.

(** The download of the archive whose second entry is corrupt. *)
Lemma downloadAndUnzip_failed_extraction_witness :
  is_dir (snd (downloadAndUnzip (L:=Sample.lib) "u/cut" "Cut" "AllChaosData" Sample.w0))
         (Join "AllChaosData" "Cut").
Proof.
  assert (fst (downloadAndUnzip (L:=Sample.lib) "u/cut" "Cut" "AllChaosData" Sample.w0)
          = Err (Wrap "error unzipping file" (Wrap "error writing to output file" ErrFormat)))
    as H by (vm_compute; reflexivity).
  exact (downloadAndUnzip_failed_extraction (L:=Sample.lib) "u/cut" "Cut" "AllChaosData"
           Sample.w0 _ (Wrap "error writing to output file" ErrFormat)
           (pair_of_fst _ _ H)).
Defined.

(** The Concatenator over two text files: the first is as it was. *)
Lemma concatenate_changes_one_file_witness :
  find (fs (snd (concatenateAllTxtFiles "AllChaosData" "." Sample.w_two)))
       ["home"; "u"; "AllChaosData"; "a"; "1.txt"]
  = Ok (NFile 420 "X").
Proof.
  apply (concatenate_changes_one_file "AllChaosData" "." Sample.w_two).
  - vm_compute. intros [=].
  - vm_compute. reflexivity.
Defined.

(** The Concatenator twice over two text files. *)
Lemma concatenate_again_witness :
  let w1 := snd (concatenateAllTxtFiles "AllChaosData" "." Sample.w_two) in
  let w2 := snd (concatenateAllTxtFiles "AllChaosData" "." w1) in
  contentOf w2 (Join "." "everything.txt") = contentOf w1 (Join "." "everything.txt").
Proof.
  intros w1 w2.
  assert (fst (concatenateAllTxtFiles "AllChaosData" "." Sample.w_two) = Ok tt) as H1
    by (vm_compute; reflexivity).
  assert (fst (concatenateAllTxtFiles "AllChaosData" "." w1) = Ok tt) as H2
    by (vm_compute; reflexivity).
  apply (concatenate_again "AllChaosData" "." Sample.w_two w1 w2).
  - assert (findAllTxtFiles "AllChaosData" Sample.w_two
            = ["AllChaosData/a/1.txt"; "AllChaosData/b/2.txt"])
      as -> by (vm_compute; reflexivity).
    all_sources.
  - exact (pair_of_fst _ _ H1).
  - vm_compute. reflexivity.
  - exact (pair_of_fst _ _ H2).
Defined.

(** The list "Tesla, Google,,tesla" ranged over as google, tesla. *)
Lemma getCompanyNames_of_list_witness :
  NoDup (getCompanyNames ["google"; "tesla"])
  ∧ length (getCompanyNames ["google"; "tesla"])
    = size (parseCompanyNames (L:=Sample.lib) "Tesla, Google,,tesla")
  ∧ ∀ x, x ∈ getCompanyNames ["google"; "tesla"]
         ↔ ∃ t, t ∈ Split "Tesla, Google,,tesla" ","%char
                ∧ TrimSpace (GoLib:=Sample.lib) t ≠ ""
                ∧ x = ToLower (GoLib:=Sample.lib) (TrimSpace (GoLib:=Sample.lib) t).
Proof.
  apply (getCompanyNames_of_list (L:=Sample.lib) "Tesla, Google,,tesla"
           ["google"; "tesla"]).
  split.
  - apply (bool_decide_unpack _). vm_compute. exact I.
  - assert (parseCompanyNames (L:=Sample.lib) "Tesla, Google,,tesla"
            = {[ "tesla"; "google" ]}) as -> by (vm_compute; reflexivity).
    intros x. rewrite !elem_of_cons, elem_of_nil, elem_of_union, !elem_of_singleton.
    tauto.
Defined.

(** chaos.go without options and the later program with -a. *)
Lemma chaos_go_main_alike_witness :
  fst (ChaosGo.main (L:=Sample.lib) "" Sample.w0)
  = fst (main (L:=Sample.lib) (mkFlags "" "" true false) Sample.w0)
  ∧ alike (snd (main (L:=Sample.lib) (mkFlags "" "" true false) Sample.w0))
          (snd (ChaosGo.main (L:=Sample.lib) "" Sample.w0)).
Proof.
  apply (chaos_go_main_alike (L:=Sample.lib) (mkFlags "" "" true false) Sample.w0).
  - reflexivity.
  - reflexivity.
  - intros _. reflexivity.
Defined.

(* ===================================================================== *)
(** * The two ways of naming companies                                    *)
(* ===================================================================== *)

Lemma Split_whole s sep : hasByte sep s = false → Split s sep = [s].
Proof.
  induction s as [|x s IH]; [done|]. simpl hasByte.
  intros [Hx Hs]%orb_false_elim.
  change (Split (String x s) sep)
    with (if Ascii.eqb x sep then "" :: Split s sep
          else match Split s sep with
               | t :: ts => String x t :: ts
               | [] => [String x ""]
               end).
  by rewrite Hx, (IH Hs).
Qed.

Lemma Split_joinWith names sep :
  names ≠ [] → Forall (λ n, hasByte sep n = false) names →
  Split (joinWith (String sep "") names) sep = names.
Proof.
  intros Hne Hall. induction Hall as [|n rest Hn Hrest IH]; [done|].
  destruct rest as [|n2 rest]; [by apply Split_whole|].
  change (joinWith (String sep "") (n :: n2 :: rest))
    with (n +:+ String sep (joinWith (String sep "") (n2 :: rest))).
  rewrite Split_append, (Split_whole _ _ Hn), IH; done.
Qed.

Lemma Split_linesOf names :
  Forall (λ n, hasByte "010"%char n = false) names →
  Split (linesOf names) "010"%char = names ++ [""].
Proof.
  induction 1 as [|n rest Hn Hrest IH]; [done|].
  change (linesOf (n :: rest)) with ((n +:+ LF) +:+ linesOf rest).
  rewrite append_assoc.
  change (LF +:+ linesOf rest) with (String "010"%char (linesOf rest)).
  by rewrite Split_append, (Split_whole _ _ Hn), IH.
Qed.

Section TwoWays.
Context {L : GoLib}.

(** X19. Naming companies in a file, one on a line, selects the same set as naming
    them in one comma-separated list, when no name holds a comma, a newline
    or a final carriage return and every line is short enough for the
    Scanner. *)
Theorem name_list_as_comma_list names path w m :
  names ≠ [] →
  Forall plainName names →
  os_Lstat path w = Ok (NFile m (linesOf names)) →
  may_read m = true →
  io_fault w (resolve (cwd w) path) = None →
  readCompanyList path w = (Some (parseCompanyNames (joinWith "," names)), None).
Proof.
  intros Hne Hall Hstat Hr Hio.
  assert (rawLines (linesOf names) = names) as Hraw.
  { unfold rawLines. rewrite Split_linesOf.
    - rewrite List.last_last. simpl. by rewrite removelast_last.
    - eapply Forall_impl; [exact Hall|]. by intros n (_ & ? & _). }
  unfold os_Lstat in Hstat.
  destruct (locate path w) as [p|] eqn:Hloc; [|done].
  apply locate_ok in Hloc as [Hnp ->].
  unfold readCompanyList.
  rewrite (os_Open_file _ _ _ _ Hnp Hstat), Hr.
  unfold scanLines, file_Reader, read_node. simpl. rewrite Hstat, Hio. simpl.
  rewrite Hraw, scanTokens_short.
  2:{ eapply Forall_impl; [exact Hall|]. by intros n (_ & _ & _ & ?). }
  assert (map dropCR names = names) as ->.
  { clear -Hall. induction Hall as [|n rest (_ & _ & Hn & _) _ IH]; [done|].
    simpl. by rewrite Hn, IH. }
  rewrite selection_loop, parseCompanyNames_spec. unfold spec_selection_of_string.
  change "," with (String ","%char "") at 1.
  rewrite Split_joinWith; [|done|].
  - f_equal. f_equal. set_solver.
  - eapply Forall_impl; [exact Hall|]. by intros n (? & _).
Qed.

End TwoWays.

(** The name list of [Sample.w_names] and the list "Tesla,,  google  ". *)
Lemma name_list_as_comma_list_witness :
  readCompanyList (L:=Sample.lib) "names.txt" Sample.w_names
  = (Some (parseCompanyNames (L:=Sample.lib) (joinWith "," ["Tesla"; ""; "  google  "])),
     None).
Proof.
  apply (name_list_as_comma_list (L:=Sample.lib) ["Tesla"; ""; "  google  "] "names.txt"
           Sample.w_names 420).
  - intros [=].
  - repeat (apply Forall_cons_2;
            [split; [reflexivity|split; [reflexivity|split; [reflexivity|
               vm_compute; reflexivity]]]|]).
    apply Forall_nil_2.
  - vm_compute. reflexivity.
  - reflexivity.
  - reflexivity.
Defined.

(* ===================================================================== *)
(** * What an extraction leaves in the files                              *)
(* ===================================================================== *)

Lemma os_MkdirAll_file_kept path perm w q m d :
  find (fs w) q = Ok (NFile m d) →
  find (fs (snd (os_MkdirAll path perm w))) q = Ok (NFile m d).
Proof.
  intros Hf. unfold os_MkdirAll, on_fs.
  destruct (locate path w) as [p|]; [|done].
  destruct (mkdirAll_node _ _ _ _) as [n'|] eqn:Hnode; [|done]. simpl.
  destruct (mkdirAll_node_keeps _ _ _ _ _ Hnode _ _ Hf) as (y & Hy & Hattr).
  destruct y as [m' d'|]; [|done]. simpl in Hattr. subst m'.
  pose proof (mkdirAll_node_files _ _ _ _ _ _ _ _ Hnode Hy) as Hback.
  congruence.
Qed.

Lemma os_MkdirAll_others_kept dest path perm w :
  others_kept dest w (snd (os_MkdirAll path perm w)).
Proof.
  destruct (os_MkdirAll_stable path perm w) as [(Hcwd & _ & _ & _ & Hio) _].
  split; [done|]. split; [done|]. intros q m d _. apply os_MkdirAll_file_kept.
Qed.

Lemma os_OpenFile_others_kept name flag perm w :
  others_kept (resolve (cwd w) name) w (snd (os_OpenFile name flag perm w)).
Proof.
  unfold os_OpenFile, on_fs.
  destruct (locate name w) as [p|] eqn:Hloc; [|apply others_kept_refl].
  apply locate_ok in Hloc as [Hne ->].
  destruct (openFile_node _ _ _ _ _) as [n'|] eqn:Hop; [|apply others_kept_refl].
  split; [done|]. split; [done|]. intros q m d Hq Hf. simpl.
  unfold openFile_node in Hop.
  destruct (find (fs w) (resolve (cwd w) name)) as [[fm d0|dm es]|[]]; try done.
  - destruct (hasFlag flag O_CREATE && hasFlag flag O_EXCL); [done|].
    destruct (implb _ _ && implb _ _); [|done]. inversion Hop.
    destruct (hasFlag flag O_TRUNC); [|done].
    by apply find_upd_file_frame; [apply mild_truncated|..].
  - destruct (hasFlag flag O_CREATE && hasFlag flag O_EXCL); [done|].
    destruct (wants_write flag); [done|]. destruct (may_read dm); by inversion Hop.
  - destruct (hasFlag flag O_CREATE); [|done].
    destruct (find (fs w) (parentOf _)) as [[?|pm pes]|]; try done.
    destruct (may_write pm); inversion Hop.
    by apply find_upd_file_frame; [apply mild_created|..].
Qed.

Section Contents.
Context {L : GoLib}.

Lemma extractFile_others_kept destDir f w :
  others_kept (resolve (cwd w) (Join destDir (zf_Name f))) w
    (snd (extractFile destDir f w)).
Proof.
  unfold extractFile. set (fpath := Join destDir (zf_Name f)).
  unfold bind at 1.
  pose proof (os_MkdirAll_others_kept (resolve (cwd w) fpath) (Dir fpath) ModePerm w) as H1.
  destruct (os_MkdirAll (Dir fpath) ModePerm w) as [[[]|e] w1]; simpl in H1; [|done].
  pose proof H1 as (Hcwd1 & _).
  unfold bind at 1. unfold orWrap at 1.
  pose proof (os_OpenFile_others_kept fpath WCT (zf_Mode f) w1) as H2.
  rewrite Hcwd1 in H2.
  assert (∀ w2, others_kept (resolve (cwd w) fpath) w1 w2 →
                others_kept (resolve (cwd w) fpath) w w2) as Hgo.
  { intros w2. by apply others_kept_trans. }
  pose proof (os_OpenFile_stable fpath WCT (zf_Mode f) w1) as [(Hcwd2 & _) _].
  unfold WCT in *.
  destruct (os_OpenFile fpath _ (zf_Mode f) w1) as [[outFile|e] w2] eqn:Hop;
    simpl in H2, Hcwd2; [|by apply Hgo].
  assert (f_path outFile = resolve (cwd w) fpath) as Hpath.
  { unfold os_OpenFile in Hop. destruct (on_fs _ _ w1) as [[[]|?] ?]; [|done].
    inversion Hop. simpl. by rewrite Hcwd1. }
  unfold bind at 1. unfold orWrap at 1. unfold lift.
  destruct (zf_Open f) as [rc|e]; [|by apply Hgo].
  unfold orWrap.
  pose proof (io_Copy_others_kept outFile rc w2) as H3. rewrite Hpath in H3.
  destruct (io_Copy outFile rc w2) as [[[]|e] w3]; simpl in *;
    apply Hgo; by eapply others_kept_trans.
Qed.

Lemma unzipEntries_kept_at destDir files q m d : ∀ w,
  Forall (λ g, IsDir (zf_Mode g) = false →
               resolve (cwd w) (Join destDir (zf_Name g)) ≠ q) files →
  find (fs w) q = Ok (NFile m d) →
  find (fs (snd (unzipEntries destDir files w))) q = Ok (NFile m d).
Proof.
  induction files as [|g rest IH]; intros w Hall Hf; [done|].
  apply Forall_cons_1 in Hall as [Hg Hrest].
  destruct (IsDir (zf_Mode g)) eqn:Hd.
  - rewrite (unzipEntries_cons_dir _ _ _ _ Hd).
    destruct (os_MkdirAll_stable (Join destDir (zf_Name g)) ModePerm w)
      as [(Hcwd & _) _].
    apply IH; [by rewrite Hcwd|]. by apply os_MkdirAll_file_kept.
  - rewrite (unzipEntries_cons_file _ _ _ _ Hd). specialize (Hg eq_refl).
    destruct (extractFile_others_kept destDir g w) as (Hcwd & _ & Hk).
    specialize (Hk q m d (not_eq_sym Hg) Hf).
    destruct (extractFile destDir g w) as [[[]|e] w1]; simpl in *; [|done].
    apply IH; [by rewrite Hcwd | done].
Qed.

(** X20. After a successful extraction, every file entry whose destination
    no later entry of the archive names holds exactly the bytes of that
    entry. *)
Theorem unzipEntries_contents destDir es1 f es2 w w1 :
  IsDir (zf_Mode f) = false →
  Forall (λ g, IsDir (zf_Mode g) = false →
               resolve (cwd w) (Join destDir (zf_Name g))
               ≠ resolve (cwd w) (Join destDir (zf_Name f))) es2 →
  unzipEntries destDir (es1 ++ f :: es2) w = (Ok tt, w1) →
  ∃ data, zf_Open f = Ok (Stream data None)
          ∧ contentOf w1 (Join destDir (zf_Name f)) = Some data.
Proof.
  intros Hd Hlater. rewrite unzipEntries_app.
  pose proof (unzipEntries_stable destDir es1 w) as [(Hcwd1 & _) _].
  destruct (unzipEntries destDir es1 w) as [[[]|e] wa]; [|done]. simpl in Hcwd1.
  rewrite (unzipEntries_cons_file _ _ _ _ Hd).
  destruct (extractFile destDir f wa) as [[[]|e] wb] eqn:Hx; [|done].
  intros Hrest.
  pose proof (extractFile_ok _ _ _ _ Hx)
    as (Hne & _ & (Hcwd2 & _) & data & mode & Hopen & _ & Hfile & _).
  exists data. split; [done|].
  pose proof (unzipEntries_stable destDir es2 wb) as [(Hcwd3 & _) _].
  pose proof (unzipEntries_kept_at destDir es2
                (resolve (cwd w) (Join destDir (zf_Name f))) mode data wb) as Hk.
  rewrite Hrest in Hk, Hcwd3. simpl in Hk, Hcwd3.
  unfold contentOf, os_Lstat. rewrite (locate_nonempty _ _ Hne).
  rewrite Hcwd3, Hcwd2, Hcwd1, Hk; [done| |].
  - rewrite Hcwd2, Hcwd1. exact Hlater.
  - by rewrite <- Hcwd1.
Qed.

End Contents.

(** The archive of Tesla: sub/1.txt holds its bytes after the extraction. *)
Lemma unzipEntries_contents_witness :
  ∃ data,
    zf_Open (Sample.plain "sub/1.txt" "X") = Ok (Stream data None)
    ∧ contentOf (snd (unzipEntries "AllChaosData/Tesla"
                        ([Sample.folder "sub/"]
                         ++ Sample.plain "sub/1.txt" "X" :: [Sample.plain "readme.md" "R"])
                        Sample.w0))
        (Join "AllChaosData/Tesla" (zf_Name (Sample.plain "sub/1.txt" "X")))
      = Some data.
Proof.
  assert (fst (unzipEntries "AllChaosData/Tesla"
                 ([Sample.folder "sub/"]
                  ++ Sample.plain "sub/1.txt" "X" :: [Sample.plain "readme.md" "R"])
                 Sample.w0) = Ok tt) as H by (vm_compute; reflexivity).
  apply (unzipEntries_contents "AllChaosData/Tesla" [Sample.folder "sub/"]
           (Sample.plain "sub/1.txt" "X") [Sample.plain "readme.md" "R"] Sample.w0 _).
  - reflexivity.
  - apply Forall_cons_2; [|apply Forall_nil_2]. intros _. vm_compute. intros [=].
  - exact (pair_of_fst _ _ H).
Defined.

(* ===================================================================== *)
(** * The Concatenator over a whole tree                                  *)
(* ===================================================================== *)

Lemma findAllTxtFiles_open root w n :
  os_Lstat root w = Ok n → open_tree n = true →
  findAllTxtFiles root w = txtFilesOf root n.
Proof.
  intros Hstat Hopen. unfold findAllTxtFiles, Walk. rewrite Hstat.
  destruct (walk_collectTxt n root []) as (new & rest & e & -> & -> & Hdone & He).
  simpl. by rewrite (Hdone (He Hopen)), app_nil_r.
Qed.

(** X21. When every directory under the base directory can be read and searched,
    the combined file holds, for every regular file named *.txt of the tree,
    in directory order, the piece of that file: its bytes and a newline when
    it can be read. *)
Theorem concatenate_whole_tree baseDir outputDir w w' n :
  os_Lstat baseDir w = Ok n →
  open_tree n = true →
  Forall (source_of w (resolve (cwd w) (Join outputDir "everything.txt")))
         (txtFilesOf baseDir n) →
  concatenateAllTxtFiles baseDir outputDir w = (Ok tt, w') →
  contentOf w' (Join outputDir "everything.txt")
  = Some (concatAll (map (piece w) (txtFilesOf baseDir n))).
Proof.
  intros Hstat Hopen Hsrc Hrun.
  rewrite <- (findAllTxtFiles_open _ _ _ Hstat Hopen) in *.
  by destruct (concatenate_spec _ _ _ _ Hsrc Hrun).
Qed.

(** The tree with a/1.txt and b/2.txt. *)
Lemma concatenate_whole_tree_witness :
  contentOf (snd (concatenateAllTxtFiles "AllChaosData" "." Sample.w_two))
            (Join "." "everything.txt")
  = Some (concatAll (map (piece Sample.w_two) (txtFilesOf "AllChaosData" Cases.twoTree))).
Proof.
  assert (fst (concatenateAllTxtFiles "AllChaosData" "." Sample.w_two) = Ok tt) as H
    by (vm_compute; reflexivity).
  apply (concatenate_whole_tree "AllChaosData" "." Sample.w_two _ Cases.twoTree).
  - vm_compute. reflexivity.
  - reflexivity.
  - assert (txtFilesOf "AllChaosData" Cases.twoTree
            = ["AllChaosData/a/1.txt"; "AllChaosData/b/2.txt"])
      as -> by (vm_compute; reflexivity).
    all_sources.
  - exact (pair_of_fst _ _ H).
Defined.
